(** * LoRa packet forwarder ([lora_pkt_fwd.c]): shallow embedding and properties

    The forwarder is one C file of six threads around a shared concentrator.
    Each thread body is embedded below as a function on explicit state:
    global variables become record fields or entries of a counter store,
    calls into libloragw, the JIT queue and parson become fields of an
    interface class, [double] arithmetic goes through [DoubleOps] (the
    binary64 instance runs the code bit for bit; the rational instance is
    the exact-arithmetic reading of the same expressions). *)

From Stdlib Require Import ZArith String Ascii List Bool Lia QArith Floats.
From Stdlib Require Import DecimalString.
Import ListNotations.

Open Scope Z_scope.

(* ====================================================================== *)
(** * Machine integers *)

Definition wrap_unsigned (w : Z) (x : Z) : Z := x mod 2 ^ w.

Definition wrap_signed (w : Z) (x : Z) : Z :=
  let r := x mod 2 ^ w in
  if r <? 2 ^ (w - 1) then r else r - 2 ^ w.

Definition uint8 := wrap_unsigned 8.
Definition uint16 := wrap_unsigned 16.
Definition uint32 := wrap_unsigned 32.
Definition int8 := wrap_signed 8.
Definition int32 := wrap_signed 32.

(** Bytes of a C string literal, as [memcpy] puts them in a buffer. *)
Definition bytes_of_string (s : string) : list Z :=
  map (fun c => Z.of_N (N_of_ascii c)) (list_ascii_of_string s).

(** [%d] of [printf]. *)
Definition fmt_d (z : Z) : string := NilZero.string_of_int (Z.to_int z).

(** Host representation of a 32-bit word stored through a [uint32_t *]
    (little-endian host). *)
Definition store_uint32 (x : Z) : list Z :=
  [Z.land x 255; Z.land (Z.shiftr x 8) 255;
   Z.land (Z.shiftr x 16) 255; Z.land (Z.shiftr x 24) 255].

(* ====================================================================== *)
(** * Protocol constants *)

Definition PROTOCOL_VERSION : Z := 2.
Definition PKT_PUSH_DATA : Z := 0.
Definition PKT_PUSH_ACK : Z := 1.
Definition PKT_PULL_DATA : Z := 2.
Definition PKT_PULL_RESP : Z := 3.
Definition PKT_PULL_ACK : Z := 4.
Definition PKT_TX_ACK : Z := 5.

Definition GPS_REF_MAX_AGE : Z := 30.
Definition XERR_INIT_AVG : Z := 16.
Definition XERR_FILT_COEF : Z := 256.
Definition ACK_BUFF_SIZE : Z := 64.

(** [enum jit_error_e] of [jitqueue.h]; the forwarder names the first ten,
    every other value takes the [default] branches. *)
Inductive jit_error_e : Type :=
| JIT_ERROR_OK
| JIT_ERROR_TOO_LATE
| JIT_ERROR_TOO_EARLY
| JIT_ERROR_FULL
| JIT_ERROR_EMPTY
| JIT_ERROR_COLLISION_PACKET
| JIT_ERROR_COLLISION_BEACON
| JIT_ERROR_TX_FREQ
| JIT_ERROR_TX_POWER
| JIT_ERROR_GPS_UNLOCKED
| JIT_ERROR_INVALID.

Definition jit_error_eqb (a b : jit_error_e) : bool :=
  match a, b with
  | JIT_ERROR_OK, JIT_ERROR_OK
  | JIT_ERROR_TOO_LATE, JIT_ERROR_TOO_LATE
  | JIT_ERROR_TOO_EARLY, JIT_ERROR_TOO_EARLY
  | JIT_ERROR_FULL, JIT_ERROR_FULL
  | JIT_ERROR_EMPTY, JIT_ERROR_EMPTY
  | JIT_ERROR_COLLISION_PACKET, JIT_ERROR_COLLISION_PACKET
  | JIT_ERROR_COLLISION_BEACON, JIT_ERROR_COLLISION_BEACON
  | JIT_ERROR_TX_FREQ, JIT_ERROR_TX_FREQ
  | JIT_ERROR_TX_POWER, JIT_ERROR_TX_POWER
  | JIT_ERROR_GPS_UNLOCKED, JIT_ERROR_GPS_UNLOCKED
  | JIT_ERROR_INVALID, JIT_ERROR_INVALID => true
  | _, _ => false
  end.

Inductive jit_pkt_type_e : Type :=
| JIT_PKT_TYPE_DOWNLINK_CLASS_A
| JIT_PKT_TYPE_DOWNLINK_CLASS_B
| JIT_PKT_TYPE_DOWNLINK_CLASS_C
| JIT_PKT_TYPE_BEACON.

(* ====================================================================== *)
(** * Measurement counters

    The [meas_*] globals are [uint32_t] variables guarded by [mx_meas_up]
    and [mx_meas_dw]; each group is a store from the variable's name to its
    value. *)

Inductive meas_dw_var : Type :=
| meas_dw_pull_sent
| meas_dw_ack_rcv
| meas_dw_dgram_rcv
| meas_dw_network_byte
| meas_dw_payload_byte
| meas_nb_tx_ok
| meas_nb_tx_fail
| meas_nb_tx_requested
| meas_nb_tx_rejected_collision_packet
| meas_nb_tx_rejected_collision_beacon
| meas_nb_tx_rejected_too_late
| meas_nb_tx_rejected_too_early
| meas_nb_beacon_queued
| meas_nb_beacon_sent
| meas_nb_beacon_rejected.

Inductive meas_up_var : Type :=
| meas_nb_rx_rcv
| meas_nb_rx_ok
| meas_nb_rx_bad
| meas_nb_rx_nocrc
| meas_up_pkt_fwd
| meas_up_network_byte
| meas_up_payload_byte
| meas_up_dgram_sent
| meas_up_ack_rcv.

Class VarEq (V : Type) : Type := var_eq_dec : forall a b : V, {a = b} + {a <> b}.

#[export] Instance meas_dw_var_eq : VarEq meas_dw_var.
Proof. unfold VarEq. decide equality. Defined.

#[export] Instance meas_up_var_eq : VarEq meas_up_var.
Proof. unfold VarEq. decide equality. Defined.

Definition meas_dw := meas_dw_var -> Z.
Definition meas_up := meas_up_var -> Z.

(** [v += n] on a [uint32_t] counter. *)
Definition meas_add {V : Type} `{VarEq V} (v : V) (n : Z) (m : V -> Z) : V -> Z :=
  fun v' => if var_eq_dec v v' then uint32 (m v' + n) else m v'.

Definition meas_zero {V : Type} : V -> Z := fun _ => 0.

(* ====================================================================== *)
(** * [send_tx_ack] *)

(** What [send_tx_ack] leaves behind: the datagram handed to [send] on
    [sock_down] and the downstream counters. *)
Definition tx_ack_prefix (net_mac_h net_mac_l token_h token_l : Z) : list Z :=
  [PROTOCOL_VERSION; token_h; token_l; PKT_TX_ACK]
    ++ store_uint32 net_mac_h ++ store_uint32 net_mac_l.

(** A double quote, and a JSON name or string between double quotes. *)
Definition dquote : string := String "034"%char EmptyString.
Definition quoted (s : string) : string := (dquote ++ s ++ dquote)%string.

(** First [switch]: the key of the report. *)
Definition tx_ack_key (error : jit_error_e) : string :=
  match error with
  | JIT_ERROR_TX_POWER => (quoted "warn" ++ ":")%string
  | _ => (quoted "error" ++ ":")%string
  end.

(** Second [switch]: the name of the error or warning, with the counter it
    bumps. [JIT_ERROR_FULL] falls through to [JIT_ERROR_COLLISION_PACKET]. *)
Definition tx_ack_type (error : jit_error_e) (m : meas_dw) : string * meas_dw :=
  match error with
  | JIT_ERROR_FULL
  | JIT_ERROR_COLLISION_PACKET =>
      (quoted "COLLISION_PACKET", meas_add meas_nb_tx_rejected_collision_packet 1 m)
  | JIT_ERROR_TOO_LATE =>
      (quoted "TOO_LATE", meas_add meas_nb_tx_rejected_too_late 1 m)
  | JIT_ERROR_TOO_EARLY =>
      (quoted "TOO_EARLY", meas_add meas_nb_tx_rejected_too_early 1 m)
  | JIT_ERROR_COLLISION_BEACON =>
      (quoted "COLLISION_BEACON", meas_add meas_nb_tx_rejected_collision_beacon 1 m)
  | JIT_ERROR_TX_FREQ => (quoted "TX_FREQ", m)
  | JIT_ERROR_TX_POWER => (quoted "TX_POWER", m)
  | JIT_ERROR_GPS_UNLOCKED => (quoted "GPS_UNLOCKED", m)
  | _ => (quoted "UNKNOWN", m)
  end.

(** Third [switch]: the detail, only for the power warning. [snprintf]
    returns the length of the text, which is never zero here, so the
    [exit] of its [else] branch is not taken. *)
Definition tx_ack_value (error : jit_error_e) (error_value : Z) : string :=
  match error with
  | JIT_ERROR_TX_POWER => ("," ++ quoted "value" ++ ":" ++ fmt_d error_value)%string
  | _ => EmptyString
  end.

(** The JSON text after the 12-byte header; nothing when there is nothing
    to report. *)
Definition tx_ack_json (error : jit_error_e) (error_value : Z) (m : meas_dw)
  : string * meas_dw :=
  match error with
  | JIT_ERROR_OK => (EmptyString, m)
  | _ =>
      let '(ty, m') := tx_ack_type error m in
      (("{" ++ quoted "txpk_ack" ++ ":{" ++ tx_ack_key error ++ ty
            ++ tx_ack_value error error_value ++ "}}")%string, m')
  end.

(** Net MAC words of the gateway, set once at start-up. *)
Record net_mac : Type := { net_mac_h : Z; net_mac_l : Z }.

Definition send_tx_ack (mac : net_mac) (token_h token_l : Z)
           (error : jit_error_e) (error_value : Z) (m : meas_dw)
  : list Z * meas_dw :=
  let '(json, m') := tx_ack_json error error_value m in
  (tx_ack_prefix (net_mac_h mac) (net_mac_l mac) token_h token_l
     ++ bytes_of_string json, m').

(* ====================================================================== *)
(** * [thread_up]: waiting for the PUSH_ACK *)

(** What one [recv] on a socket with a receive timeout returns: [-1] with
    [errno] (a timeout is [EAGAIN]) or a datagram. *)
Inductive recv_result : Type :=
| RecvError (eagain : bool)
| RecvData (dgram : list Z).

(** [recv(sock, buf, size, 0)] on a datagram: the count is the datagram's
    length cut to [size], and only that many bytes of the buffer are
    overwritten. *)
Definition recv_into (size : nat) (dgram buf : list Z) : Z * list Z :=
  let got := firstn size dgram in
  (Z.of_nat (length got), got ++ skipn (length got) buf).

Definition byte_at (buf : list Z) (i : nat) : Z := nth i buf 0.

Inductive loop_ctl : Type := LoopContinue | LoopBreak.

(** Body of [for (i = 0; i < 2; ++i)] at the end of the upstream loop.
    [buff_ack] is the 32-byte receive buffer, never cleared. *)
Definition push_ack_body (token_h token_l : Z) (r : recv_result)
           (buff_ack : list Z) (m : meas_up) : loop_ctl * list Z * meas_up :=
  match r with
  | RecvError true => (LoopContinue, buff_ack, m)
  | RecvError false => (LoopBreak, buff_ack, m)
  | RecvData dgram =>
      let '(j, buff_ack') := recv_into 32 dgram buff_ack in
      if (j <? 4) || negb (byte_at buff_ack' 0 =? PROTOCOL_VERSION)
         || negb (byte_at buff_ack' 3 =? PKT_PUSH_ACK)
      then (LoopContinue, buff_ack', m)
      else if negb (byte_at buff_ack' 1 =? token_h)
              || negb (byte_at buff_ack' 2 =? token_l)
      then (LoopContinue, buff_ack', m)
      else (LoopBreak, buff_ack', meas_add meas_up_ack_rcv 1 m)
  end.

(** The loop itself: [n] iterations left, [rs] what the successive [recv]
    calls return. *)
Fixpoint push_ack_wait (n : nat) (token_h token_l : Z) (rs : list recv_result)
         (buff_ack : list Z) (m : meas_up) : list Z * meas_up :=
  match n, rs with
  | S n', r :: rs' =>
      match push_ack_body token_h token_l r buff_ack m with
      | (LoopContinue, buff_ack', m') =>
          push_ack_wait n' token_h token_l rs' buff_ack' m'
      | (LoopBreak, buff_ack', m') => (buff_ack', m')
      end
  | _, _ => (buff_ack, m)
  end.

(** A datagram that acknowledges the PUSH_DATA sent with the given token. *)
Definition is_push_ack_for (token_h token_l : Z) (dgram : list Z) : Prop :=
  (4 <= length dgram)%nat
  /\ byte_at dgram 0 = PROTOCOL_VERSION
  /\ byte_at dgram 3 = PKT_PUSH_ACK
  /\ byte_at dgram 1 = token_h
  /\ byte_at dgram 2 = token_l.

(* ====================================================================== *)
(** * [double] arithmetic

    The forwarder computes the XTAL correction, the beacon coordinates and
    the corrected beacon frequency in [double]. The operations it uses are
    gathered in an interface with two instances: IEEE binary64 (the kernel's
    primitive floats, what the compiled code computes) and exact rationals
    (the same expressions read as real-number formulas). *)

Class DoubleOps (D : Type) : Type := {
  d_of_Z : Z -> D;            (* conversion of an integer operand *)
  d_add : D -> D -> D;
  d_sub : D -> D -> D;
  d_mul : D -> D -> D;
  d_div : D -> D -> D;
  d_value : D -> option Q     (* exact value; none for NaN and infinities *)
}.

(** Exact value of a binary64 number. *)
Definition SF_value (f : spec_float) : option Q :=
  match f with
  | S754_zero _ => Some (inject_Z 0)
  | S754_finite s m e =>
      let n := if s then Z.neg m else Z.pos m in
      match e with
      | Z0 => Some (inject_Z n)
      | Z.pos p => Some (inject_Z (n * 2 ^ Z.pos p))
      | Z.neg p => Some (Qmake n (2 ^ p)%positive)
      end
  | S754_infinity _ => None
  | S754_nan => None
  end.

(** Conversion of an integer, rounded to nearest (ties to even) when it has
    more than 53 significant bits. *)
Definition float_of_Z (z : Z) : float :=
  SF2Prim (binary_normalize 53 1024 z 0 false).

#[export] Instance float_ops : DoubleOps float := {|
  d_of_Z := float_of_Z;
  d_add := PrimFloat.add;
  d_sub := PrimFloat.sub;
  d_mul := PrimFloat.mul;
  d_div := PrimFloat.div;
  d_value := fun x => SF_value (Prim2SF x)
|}.

#[export] Instance Q_ops : DoubleOps Q := {|
  d_of_Z := inject_Z;
  d_add := Qplus;
  d_sub := Qminus;
  d_mul := Qmult;
  d_div := Qdiv;
  d_value := fun x => Some x
|}.

(** Truncation toward zero, the rounding of a C conversion from a floating
    type to an integer type. *)
Definition Qtrunc (q : Q) : Z := Z.quot (Qnum q) (Z.pos (Qden q)).

(** [(T)x] for an integer type [T] of range [lo..hi]: the truncated value
    when [T] can represent it; otherwise the conversion is undefined in C
    and the model has no result. *)
Definition double_to_int {D : Type} `{DoubleOps D} (lo hi : Z) (x : D) : option Z :=
  match d_value x with
  | Some q =>
      let z := Qtrunc q in
      if (lo <=? z) && (z <=? hi) then Some z else None
  | None => None
  end.

Definition double_to_int32 {D : Type} `{DoubleOps D} : D -> option Z :=
  double_to_int (- 2 ^ 31) (2 ^ 31 - 1).
Definition double_to_uint32 {D : Type} `{DoubleOps D} : D -> option Z :=
  double_to_int 0 (2 ^ 32 - 1).

(** Nearest integer, halves away from zero ([round] of [math.h]): the
    reading of the word "round" in the specification. *)
Definition Qround_nearest (q : Q) : Z :=
  let n := Qnum q in
  let d := Z.pos (Qden q) in
  Z.sgn n * ((2 * Z.abs n + d) / (2 * d)).

(** A computation that may hit undefined behaviour or [exit]. *)
Definition bind {A B : Type} (x : option A) (f : A -> option B) : option B :=
  match x with
  | Some a => f a
  | None => None
  end.

Notation "x <- e ;; k" := (bind e (fun x => k))
  (at level 61, e at next level, right associativity).

(* ====================================================================== *)
(** * [thread_valid]: time reference validation and XTAL correction *)

(** Globals written by the thread ([gps_ref_valid], [xtal_correct_ok],
    [xtal_correct]) and its locals that survive an iteration ([init_cpt],
    [init_acc]). *)
Record valid_state (D : Type) : Type := {
  gps_ref_valid : bool;
  xtal_correct_ok : bool;
  xtal_correct : D;
  init_cpt : Z;
  init_acc : D
}.
Arguments gps_ref_valid {D} _.
Arguments xtal_correct_ok {D} _.
Arguments xtal_correct {D} _.
Arguments init_cpt {D} _.
Arguments init_acc {D} _.

(** State before the first iteration: the initialisers of the globals and
    of the locals ([gps_ref_valid] has static storage, so it starts false). *)
Definition valid_init {D : Type} `{DoubleOps D} : valid_state D :=
  {| gps_ref_valid := false; xtal_correct_ok := false; xtal_correct := d_of_Z 1;
     init_cpt := 0; init_acc := d_of_Z 0 |}.

(** The low-pass step, as the source writes it. *)
Definition xtal_filter {D : Type} `{DoubleOps D} (xtal_correct xtal_err : D) : D :=
  let x := d_div (d_of_Z 1) xtal_err in
  d_add (d_sub xtal_correct (d_div xtal_correct (d_of_Z XERR_FILT_COEF)))
        (d_div x (d_of_Z XERR_FILT_COEF)).

(** One iteration of the main loop after [wait_ms(1000)]. [gps_ref_age] is
    [(long)difftime(time(NULL), time_reference_gps.systime)] and [xtal_err]
    the [xtal_err] field of the time reference at that moment. *)
Definition thread_valid_step {D : Type} `{DoubleOps D}
           (gps_ref_age : Z) (xtal_err : D) (s : valid_state D) : valid_state D :=
  if (0 <=? gps_ref_age) && (gps_ref_age <=? GPS_REF_MAX_AGE) then
    (* time ref is ok *)
    if init_cpt s <? XERR_INIT_AVG then
      {| gps_ref_valid := true;
         xtal_correct_ok := xtal_correct_ok s;
         xtal_correct := xtal_correct s;
         init_cpt := uint32 (init_cpt s + 1);
         init_acc := d_add (init_acc s) xtal_err |}
    else if init_cpt s =? XERR_INIT_AVG then
      {| gps_ref_valid := true;
         xtal_correct_ok := true;
         xtal_correct := d_div (d_of_Z XERR_INIT_AVG) (init_acc s);
         init_cpt := uint32 (init_cpt s + 1);
         init_acc := init_acc s |}
    else
      {| gps_ref_valid := true;
         xtal_correct_ok := xtal_correct_ok s;
         xtal_correct := xtal_filter (xtal_correct s) xtal_err;
         init_cpt := init_cpt s;
         init_acc := init_acc s |}
  else
    (* time ref is too old, invalidate *)
    {| gps_ref_valid := false;
       xtal_correct_ok := false;
       xtal_correct := d_of_Z 1;
       init_cpt := 0;
       init_acc := d_of_Z 0 |}.

(** Successive iterations; each element is what one iteration reads. *)
Definition thread_valid_run {D : Type} `{DoubleOps D}
           (ticks : list (Z * D)) (s : valid_state D) : valid_state D :=
  fold_left (fun st t => thread_valid_step (fst t) (snd t) st) ticks s.

Definition age_ok (gps_ref_age : Z) : Prop := 0 <= gps_ref_age <= GPS_REF_MAX_AGE.

(* ====================================================================== *)
(** * Types and interfaces of the libraries the forwarder links against *)

(** [struct timespec]. *)
Record timespec : Type := { tv_sec : Z; tv_nsec : Z }.

(** [struct tref] of [loragw_gps.h]: the time reference taken at a PPS. *)
Record tref (D : Type) : Type := {
  tref_systime : Z;
  tref_count_us : Z;
  tref_utc : timespec;
  tref_gps : timespec;
  tref_xtal_err : D
}.
Arguments tref_systime {D} _.
Arguments tref_count_us {D} _.
Arguments tref_utc {D} _.
Arguments tref_gps {D} _.
Arguments tref_xtal_err {D} _.

(** [struct coord_s] of [loragw_gps.h]. *)
Record coord_s (D : Type) : Type := { lat : D; lon : D; alt : Z }.
Arguments lat {D} _.
Arguments lon {D} _.
Arguments alt {D} _.

(** [struct lgw_pkt_tx_s] of [loragw_hal.h], with the fields the forwarder
    writes. Enumerated fields hold the header's numeric constants. *)
Record lgw_pkt_tx_s : Type := {
  freq_hz : Z;
  tx_mode : Z;
  count_us : Z;
  rf_chain : Z;
  rf_power : Z;
  modulation : Z;
  bandwidth : Z;
  datarate : Z;
  coderate : Z;
  invert_pol : bool;
  f_dev : Z;
  preamble : Z;
  no_crc : bool;
  no_header : bool;
  size : Z;
  payload : list Z
}.

Definition set_freq_hz (v : Z) (p : lgw_pkt_tx_s) : lgw_pkt_tx_s :=
  {| freq_hz := v; tx_mode := tx_mode p; count_us := count_us p;
     rf_chain := rf_chain p; rf_power := rf_power p; modulation := modulation p;
     bandwidth := bandwidth p; datarate := datarate p; coderate := coderate p;
     invert_pol := invert_pol p; f_dev := f_dev p; preamble := preamble p;
     no_crc := no_crc p; no_header := no_header p; size := size p;
     payload := payload p |}.

Definition set_tx_mode (v : Z) (p : lgw_pkt_tx_s) : lgw_pkt_tx_s :=
  {| freq_hz := freq_hz p; tx_mode := v; count_us := count_us p;
     rf_chain := rf_chain p; rf_power := rf_power p; modulation := modulation p;
     bandwidth := bandwidth p; datarate := datarate p; coderate := coderate p;
     invert_pol := invert_pol p; f_dev := f_dev p; preamble := preamble p;
     no_crc := no_crc p; no_header := no_header p; size := size p;
     payload := payload p |}.

Definition set_count_us (v : Z) (p : lgw_pkt_tx_s) : lgw_pkt_tx_s :=
  {| freq_hz := freq_hz p; tx_mode := tx_mode p; count_us := v;
     rf_chain := rf_chain p; rf_power := rf_power p; modulation := modulation p;
     bandwidth := bandwidth p; datarate := datarate p; coderate := coderate p;
     invert_pol := invert_pol p; f_dev := f_dev p; preamble := preamble p;
     no_crc := no_crc p; no_header := no_header p; size := size p;
     payload := payload p |}.

Definition set_rf_power (v : Z) (p : lgw_pkt_tx_s) : lgw_pkt_tx_s :=
  {| freq_hz := freq_hz p; tx_mode := tx_mode p; count_us := count_us p;
     rf_chain := rf_chain p; rf_power := v; modulation := modulation p;
     bandwidth := bandwidth p; datarate := datarate p; coderate := coderate p;
     invert_pol := invert_pol p; f_dev := f_dev p; preamble := preamble p;
     no_crc := no_crc p; no_header := no_header p; size := size p;
     payload := payload p |}.

Definition set_payload (v : list Z) (p : lgw_pkt_tx_s) : lgw_pkt_tx_s :=
  {| freq_hz := freq_hz p; tx_mode := tx_mode p; count_us := count_us p;
     rf_chain := rf_chain p; rf_power := rf_power p; modulation := modulation p;
     bandwidth := bandwidth p; datarate := datarate p; coderate := coderate p;
     invert_pol := invert_pol p; f_dev := f_dev p; preamble := preamble p;
     no_crc := no_crc p; no_header := no_header p; size := size p;
     payload := v |}.

(** [memset(&txpkt, 0, sizeof txpkt)]. *)
Definition txpkt_zero : lgw_pkt_tx_s :=
  {| freq_hz := 0; tx_mode := 0; count_us := 0; rf_chain := 0; rf_power := 0;
     modulation := 0; bandwidth := 0; datarate := 0; coderate := 0;
     invert_pol := false; f_dev := 0; preamble := 0; no_crc := false;
     no_header := false; size := 0; payload := repeat 0 256 |}.

(** The numeric constants of [loragw_hal.h] that the forwarder names. *)
Class HalConsts : Type := {
  STAT_CRC_OK : Z; STAT_CRC_BAD : Z; STAT_NO_CRC : Z;
  MOD_LORA : Z; MOD_FSK : Z;
  BW_125KHZ : Z; BW_250KHZ : Z; BW_500KHZ : Z;
  DR_LORA_SF5 : Z; DR_LORA_SF6 : Z; DR_LORA_SF7 : Z; DR_LORA_SF8 : Z;
  DR_LORA_SF9 : Z; DR_LORA_SF10 : Z; DR_LORA_SF11 : Z; DR_LORA_SF12 : Z;
  CR_LORA_4_5 : Z; CR_LORA_4_6 : Z; CR_LORA_4_7 : Z; CR_LORA_4_8 : Z;
  IMMEDIATE : Z; TIMESTAMPED : Z; ON_GPS : Z;
  TX_EMITTING : Z; TX_SCHEDULED : Z;
  LGW_HAL_SUCCESS : Z; LGW_HAL_ERROR : Z
}.

(** The values these constants have in the SX1302 HAL the forwarder is
    built with; used to run the thread bodies on concrete packets. *)
Definition sx1302_hal : HalConsts := {|
  STAT_CRC_OK := 0x10; STAT_CRC_BAD := 0x11; STAT_NO_CRC := 0x01;
  MOD_LORA := 0x10; MOD_FSK := 0x20;
  BW_125KHZ := 0x04; BW_250KHZ := 0x05; BW_500KHZ := 0x06;
  DR_LORA_SF5 := 5; DR_LORA_SF6 := 6; DR_LORA_SF7 := 7; DR_LORA_SF8 := 8;
  DR_LORA_SF9 := 9; DR_LORA_SF10 := 10; DR_LORA_SF11 := 11; DR_LORA_SF12 := 12;
  CR_LORA_4_5 := 0x01; CR_LORA_4_6 := 0x02; CR_LORA_4_7 := 0x03; CR_LORA_4_8 := 0x04;
  IMMEDIATE := 0; TIMESTAMPED := 1; ON_GPS := 2;
  TX_EMITTING := 4; TX_SCHEDULED := 3;
  LGW_HAL_SUCCESS := 0; LGW_HAL_ERROR := -1
|}.

(** The JIT queue of [jitqueue.c], seen from the forwarder: the
    [num_beacon] field it reads and the three calls it makes. A call that
    takes the packet by pointer returns the packet as the queue left it. *)
Class JitQueue (J : Type) : Type := {
  JIT_NUM_BEACON_IN_QUEUE : Z;
  num_beacon : J -> Z;
  jit_enqueue : J -> Z -> lgw_pkt_tx_s -> jit_pkt_type_e
                -> jit_error_e * J * lgw_pkt_tx_s;
  jit_peek : J -> Z -> jit_error_e * Z;
  jit_dequeue : J -> Z -> jit_error_e * J * lgw_pkt_tx_s * jit_pkt_type_e
}.

(** The conversions of [loragw_gps.c]; no result stands for a return value
    other than [LGW_GPS_SUCCESS], which leaves the output untouched. *)
Class GpsLib (D : Type) : Type := {
  lgw_gps2cnt : tref D -> timespec -> option Z;
  lgw_cnt2utc : tref D -> Z -> option timespec;
  lgw_cnt2gps : tref D -> Z -> option timespec
}.

(** A queue to run examples with: a list of entries in arrival order,
    accepted while fewer than [cap] are held and refused with the answer
    [full] otherwise; [jit_peek] offers the oldest entry. *)
Definition list_jit (nb_beacon cap : Z) (full : jit_error_e)
  : JitQueue (list (lgw_pkt_tx_s * jit_pkt_type_e)) := {|
  JIT_NUM_BEACON_IN_QUEUE := nb_beacon;
  num_beacon := fun q =>
    Z.of_nat (length (filter (fun e => match snd e with
                                       | JIT_PKT_TYPE_BEACON => true
                                       | _ => false
                                       end) q));
  jit_enqueue := fun q _ p t =>
    if Z.of_nat (length q) <? cap then (JIT_ERROR_OK, q ++ [(p, t)], p)
    else (full, q, p);
  jit_peek := fun q _ =>
    match q with
    | [] => (JIT_ERROR_EMPTY, -1)
    | _ :: _ => (JIT_ERROR_OK, 0)
    end;
  jit_dequeue := fun q i =>
    match q with
    | e :: q' => (JIT_ERROR_OK, q', fst e, snd e)
    | [] => (JIT_ERROR_INVALID, q, txpkt_zero, JIT_PKT_TYPE_BEACON)
    end
|}.

(** A conversion to run examples with: one counter tick per microsecond of
    GPS time since the reference. *)
Definition linear_gps {D : Type} : GpsLib D := {|
  lgw_gps2cnt := fun r t =>
    Some (uint32 (tref_count_us r
                  + (tv_sec t - tv_sec (tref_gps r)) * 1000000
                  + (tv_nsec t - tv_nsec (tref_gps r)) / 1000));
  lgw_cnt2utc := fun r c =>
    Some {| tv_sec := tv_sec (tref_utc r) + uint32 (c - tref_count_us r) / 1000000;
            tv_nsec := 0 |};
  lgw_cnt2gps := fun r c =>
    Some {| tv_sec := tv_sec (tref_gps r) + uint32 (c - tref_count_us r) / 1000000;
            tv_nsec := 0 |}
|}.

(* ====================================================================== *)
(** * [thread_down]: the beacon packet and the beacon pre-allocation loop *)

(** ** [crc16] *)

Definition crc16_shift (x : Z) : Z :=
  if Z.land x 0x8000 =? 0 then uint16 (Z.shiftl x 1)
  else uint16 (Z.lxor (Z.shiftl x 1) 0x1021).

Definition crc16_byte (x b : Z) : Z :=
  Nat.iter 8 crc16_shift (uint16 (Z.lxor x (Z.shiftl b 8))).

Definition crc16 (data : list Z) : Z := fold_left crc16_byte data 0.

(** [buf[off..] = bs], inside the buffer. *)
Definition write_bytes (off : nat) (bs buf : list Z) : list Z :=
  firstn off buf ++ bs ++ skipn (off + length bs) buf.

(** The three low bytes of a coordinate field and the four of a time, least
    significant first, as the source masks and shifts them. *)
Definition le_bytes (n : nat) (v : Z) : list Z :=
  map (fun i => Z.land 255 (Z.shiftr v (8 * Z.of_nat i))) (seq 0 n).

(** ** Beacon parameters *)

Record beacon_conf : Type := {
  beacon_period : Z;
  beacon_freq_hz : Z;
  beacon_freq_nb : Z;
  beacon_freq_step : Z;
  beacon_datarate : Z;
  beacon_bw_hz : Z;
  beacon_power : Z;
  beacon_infodesc : Z
}.

Section BeaconPacket.
Context {D : Type} {ops : DoubleOps D} {hal : HalConsts}.

(** [(int32_t)((coord / full_scale) * (double)(1 << 23))], then the two
    saturation tests. *)
Definition beacon_coord_field (coord : D) (full_scale : Z) : option Z :=
  v <- double_to_int32 (d_mul (d_div coord (d_of_Z full_scale))
                              (d_of_Z (Z.shiftl 1 23))) ;;
  Some (if v >? int32 0x007FFFFF then int32 0x007FFFFF
        else if v <? int32 0xFF800000 then int32 0xFF800000
        else v).

Definition field_latitude (reference_coord : coord_s D) : option Z :=
  beacon_coord_field (lat reference_coord) 90.

Definition field_longitude (reference_coord : coord_s D) : option Z :=
  beacon_coord_field (lon reference_coord) 180.

(** Sizes of the two RFU fields, chosen by the beacon datarate. *)
Record beacon_layout : Type := {
  beacon_RFU1_size : nat;
  beacon_RFU2_size : nat
}.

(** The gateway specific part: info descriptor, latitude, longitude. *)
Definition beacon_gateway_fields (infodesc field_lat field_lon : Z) : list Z :=
  [uint8 infodesc] ++ le_bytes 3 field_lat ++ le_bytes 3 field_lon.

(** Set-up of [beacon_pkt] before the main loop. No result when the thread
    calls [exit(EXIT_FAILURE)] (unsupported bandwidth or datarate) or when a
    coordinate does not convert. The time and its CRC are filled in the
    loop; until then these six bytes are shown as zero. *)
Definition beacon_pkt_init (cfg : beacon_conf) (reference_coord : coord_s D)
  : option (lgw_pkt_tx_s * beacon_layout) :=
  bw <- (if beacon_bw_hz cfg =? 125000 then Some BW_125KHZ
         else if beacon_bw_hz cfg =? 500000 then Some BW_500KHZ
         else None) ;;
  dr <- (if beacon_datarate cfg =? 8 then Some (DR_LORA_SF8, 1%nat, 3%nat)
         else if beacon_datarate cfg =? 9 then Some (DR_LORA_SF9, 2%nat, 0%nat)
         else if beacon_datarate cfg =? 10 then Some (DR_LORA_SF10, 3%nat, 1%nat)
         else if beacon_datarate cfg =? 12 then Some (DR_LORA_SF12, 5%nat, 3%nat)
         else None) ;;
  let '(sf, rfu1, rfu2) := dr in
  flat <- field_latitude reference_coord ;;
  flon <- field_longitude reference_coord ;;
  let gw := beacon_gateway_fields (beacon_infodesc cfg) flat flon ++ repeat 0 rfu2 in
  let field_crc2 := crc16 gw in
  Some ({| freq_hz := 0;
           tx_mode := ON_GPS;
           count_us := 0;
           rf_chain := 0;
           rf_power := beacon_power cfg;
           modulation := MOD_LORA;
           bandwidth := bw;
           datarate := sf;
           coderate := CR_LORA_4_5;
           invert_pol := false;
           f_dev := 0;
           preamble := 10;
           no_crc := true;
           no_header := true;
           size := Z.of_nat (rfu1 + 4 + 2 + 7 + rfu2 + 2);
           payload := repeat 0 rfu1 ++ repeat 0 4 ++ repeat 0 2 ++ gw
                        ++ le_bytes 2 field_crc2 |},
        {| beacon_RFU1_size := rfu1; beacon_RFU2_size := rfu2 |}).

End BeaconPacket.

(** ** Pre-allocation of beacon slots *)

(** Variables of [thread_down] that the pre-allocation loop reads and
    writes, with the queue of chain 0 and the downstream counters. *)
Record beacon_vars (J : Type) : Type := {
  jit_queue0 : J;
  beacon_pkt : lgw_pkt_tx_s;
  beacon_loop : Z;
  retry : Z;
  last_beacon_gps_time : Z;     (* [tv_sec]; [tv_nsec] stays 0 *)
  beacon_meas : meas_dw
}.
Arguments jit_queue0 {J} _.
Arguments beacon_pkt {J} _.
Arguments beacon_loop {J} _.
Arguments retry {J} _.
Arguments last_beacon_gps_time {J} _.
Arguments beacon_meas {J} _.

(** What one iteration reads from the other threads and the concentrator:
    the GPS globals under [mx_timeref] and the instantaneous counter. *)
Record beacon_env (D : Type) : Type := {
  env_gps_ref_valid : bool;
  env_xtal_correct_ok : bool;
  env_time_reference_gps : tref D;
  env_instcnt : Z
}.
Arguments env_gps_ref_valid {D} _.
Arguments env_xtal_correct_ok {D} _.
Arguments env_time_reference_gps {D} _.
Arguments env_instcnt {D} _.

Section BeaconLoop.
Context {D : Type} {J : Type} {jq : JitQueue J} {gl : GpsLib D}.
Variable cfg : beacon_conf.
Variable layout : beacon_layout.

(** [next_beacon_gps_time.tv_sec]. [time_t] is the 64-bit type of the
    target; [retry * beacon_period] is a product of an [int] and a
    [uint32_t], computed in 32 unsigned bits. *)
Definition next_beacon_gps_time (ref_gps_sec last retry : Z) : Z :=
  let first :=
    if last =? 0 then
      let diff_beacon_time := Z.rem ref_gps_sec (beacon_period cfg) in
      ref_gps_sec + (beacon_period cfg - diff_beacon_time)
    else last + beacon_period cfg in
  first + uint32 (retry * beacon_period cfg).

Definition beacon_chan_of (next : Z) : Z :=
  if beacon_freq_nb cfg >? 1
  then uint8 (Z.rem (Z.quot next (beacon_period cfg)) (beacon_freq_nb cfg))
  else 0.

(** Body of [while (beacon_loop && (beacon_period != 0))]. *)
Definition beacon_body (e : beacon_env D) (v : beacon_vars J)
  : loop_ctl * beacon_vars J :=
  if env_gps_ref_valid e && env_xtal_correct_ok e then
    let next := next_beacon_gps_time
                  (tv_sec (tref_gps (env_time_reference_gps e)))
                  (last_beacon_gps_time v) (retry v) in
    let next_ts := {| tv_sec := next; tv_nsec := 0 |} in
    let cnt := match lgw_gps2cnt (env_time_reference_gps e) next_ts with
               | Some c => c
               | None => count_us (beacon_pkt v)
               end in
    let freq := uint32 (beacon_freq_hz cfg + beacon_chan_of next * beacon_freq_step cfg) in
    let rfu1 := beacon_RFU1_size layout in
    let pyld1 := write_bytes rfu1 (le_bytes 4 next) (payload (beacon_pkt v)) in
    let field_crc1 := crc16 (firstn (4 + rfu1) pyld1) in
    let pyld2 := write_bytes (rfu1 + 4) (le_bytes 2 field_crc1) pyld1 in
    let pkt := set_payload pyld2 (set_freq_hz freq (set_count_us cnt (beacon_pkt v))) in
    let '(jit_result, q', pkt') :=
      jit_enqueue (jit_queue0 v) (env_instcnt e) pkt JIT_PKT_TYPE_BEACON in
    match jit_result with
    | JIT_ERROR_OK =>
        (LoopContinue,
         {| jit_queue0 := q';
            beacon_pkt := pkt';
            beacon_loop := uint8 (beacon_loop v - 1);
            retry := 0;
            last_beacon_gps_time := next;
            beacon_meas := meas_add meas_nb_beacon_queued 1 (beacon_meas v) |})
    | _ =>
        (LoopContinue,
         {| jit_queue0 := q';
            beacon_pkt := pkt';
            beacon_loop := beacon_loop v;
            retry := retry v + 1;
            last_beacon_gps_time := last_beacon_gps_time v;
            beacon_meas :=
              match jit_result with
              | JIT_ERROR_COLLISION_BEACON => beacon_meas v
              | _ => meas_add meas_nb_beacon_rejected 1 (beacon_meas v)
              end |})
    end
  else (LoopBreak, v).

(** The loop; [envs] is what the successive iterations read. *)
Fixpoint beacon_while (envs : list (beacon_env D)) (v : beacon_vars J) : beacon_vars J :=
  match envs with
  | [] => v
  | e :: envs' =>
      if negb (beacon_loop v =? 0) && negb (beacon_period cfg =? 0) then
        match beacon_body e v with
        | (LoopContinue, v') => beacon_while envs' v'
        | (LoopBreak, v') => v'
        end
      else v
  end.

(** The two assignments before the loop, then the loop. *)
Definition beacon_prealloc (envs : list (beacon_env D)) (v : beacon_vars J) : beacon_vars J :=
  beacon_while envs
    {| jit_queue0 := jit_queue0 v;
       beacon_pkt := beacon_pkt v;
       beacon_loop := uint8 (JIT_NUM_BEACON_IN_QUEUE - num_beacon (jit_queue0 v));
       retry := 0;
       last_beacon_gps_time := last_beacon_gps_time v;
       beacon_meas := beacon_meas v |}.

End BeaconLoop.

(** Rounding down to a multiple of a period. *)
Definition align_down (t period : Z) : Z := period * (t / period).

(* ====================================================================== *)
(** * [thread_jit]: dispatching due packets to the concentrator *)

(** Calls into the HAL that change the radio, in program order. *)
Inductive radio_call : Type :=
| LgwSpectralScanAbort
| LgwSend (pkt : lgw_pkt_tx_s).

(** What the HAL answers during one pass over one chain: the counter, the
    return value and status of [lgw_status], and the return values of
    [lgw_spectral_scan_abort] and [lgw_send]. *)
Record jit_env : Type := {
  jit_instcnt : Z;
  jit_status_result : Z;
  jit_tx_status : Z;
  jit_scan_abort_result : Z;
  jit_send_result : Z
}.

Definition jit_pkt_type_is_beacon (t : jit_pkt_type_e) : bool :=
  match t with
  | JIT_PKT_TYPE_BEACON => true
  | _ => false
  end.

Section JitThread.
Context {D : Type} {ops : DoubleOps D} {J : Type} {jq : JitQueue J} {hal : HalConsts}.

(** [(uint32_t)(xtal_correct * (double)pkt.freq_hz)]. *)
Definition beacon_freq_correct (xtal_correct : D) (freq : Z) : option Z :=
  double_to_uint32 (d_mul xtal_correct (d_of_Z freq)).

(** Body of [for (i = 0; i < LGW_RF_CHAIN_NB; i++)] for the queue [q] of
    chain [i]. No result when the frequency conversion is undefined. *)
Definition thread_jit_chain (xtal_correct : D) (spectral_scan_enable : bool)
           (e : jit_env) (q : J) (m : meas_dw)
  : option (J * meas_dw * list radio_call) :=
  let '(jit_result, pkt_index) := jit_peek q (jit_instcnt e) in
  match jit_result with
  | JIT_ERROR_OK =>
      if pkt_index >? -1 then
        let '(jit_result, q', pkt, pkt_type) := jit_dequeue q pkt_index in
        match jit_result with
        | JIT_ERROR_OK =>
            pm <- (if jit_pkt_type_is_beacon pkt_type then
                     f <- beacon_freq_correct xtal_correct (freq_hz pkt) ;;
                     Some (set_freq_hz f pkt, meas_add meas_nb_beacon_sent 1 m)
                   else Some (pkt, m)) ;;
            let '(pkt, m) := pm in
            if negb (jit_status_result e =? LGW_HAL_ERROR)
               && (jit_tx_status e =? TX_EMITTING)
            then Some (q', m, [])
            else
              let calls :=
                (if spectral_scan_enable then [LgwSpectralScanAbort] else [])
                  ++ [LgwSend pkt] in
              if negb (jit_send_result e =? LGW_HAL_SUCCESS)
              then Some (q', meas_add meas_nb_tx_fail 1 m, calls)
              else Some (q', meas_add meas_nb_tx_ok 1 m, calls)
        | _ => Some (q', m, [])
        end
      else Some (q, m, [])
  | _ => Some (q, m, [])
  end.

End JitThread.

(* ====================================================================== *)
(** * [modify_os_time]: setting the system clock from GPS *)




Section OsTime.
Context {D : Type} {gl : GpsLib D}.




End OsTime.



(* ====================================================================== *)
(** * [thread_up]: serializing one received packet *)

(** How a step of a thread ends: normally, by [exit(EXIT_FAILURE)], or in a
    conversion C leaves undefined. *)
Inductive run (A : Type) : Type :=
| Done (a : A)
| ExitFailure
| Undefined.
Arguments Done {A} a.
Arguments ExitFailure {A}.
Arguments Undefined {A}.

Definition run_bind {A B : Type} (x : run A) (f : A -> run B) : run B :=
  match x with
  | Done a => f a
  | ExitFailure => ExitFailure
  | Undefined => Undefined
  end.

Notation "x <~ e ;; k" := (run_bind e (fun x => k))
  (at level 61, e at next level, right associativity).

(** [struct lgw_pkt_rx_s] of [loragw_hal.h], with the fields the forwarder
    reads. *)
Record lgw_pkt_rx_s (D : Type) : Type := {
  rx_freq_hz : Z;
  rx_if_chain : Z;
  rx_rf_chain : Z;
  rx_modem_id : Z;
  rx_status : Z;
  rx_count_us : Z;
  rx_modulation : Z;
  rx_bandwidth : Z;
  rx_datarate : Z;
  rx_coderate : Z;
  rx_rssic : D;
  rx_rssis : D;
  rx_snr : D;
  rx_freq_offset : Z;
  rx_size : Z;
  rx_payload : list Z;
  rx_ftime_received : bool;
  rx_ftime : Z
}.
Arguments rx_freq_hz {D} _.
Arguments rx_if_chain {D} _.
Arguments rx_rf_chain {D} _.
Arguments rx_modem_id {D} _.
Arguments rx_status {D} _.
Arguments rx_count_us {D} _.
Arguments rx_modulation {D} _.
Arguments rx_bandwidth {D} _.
Arguments rx_datarate {D} _.
Arguments rx_coderate {D} _.
Arguments rx_rssic {D} _.
Arguments rx_rssis {D} _.
Arguments rx_snr {D} _.
Arguments rx_freq_offset {D} _.
Arguments rx_size {D} _.
Arguments rx_payload {D} _.
Arguments rx_ftime_received {D} _.
Arguments rx_ftime {D} _.

(** The [snprintf] calls of the packet loop, by format and arguments. *)
Inductive up_format (D : Type) : Type :=
| fmt_jver (v : Z)
| fmt_tmst (v : Z)
| fmt_time (utc : timespec)
| fmt_tmms (ms : Z)
| fmt_ftime (v : Z)
| fmt_chan (if_chain rf_chain freq modem_id : Z)
| fmt_rssis (v : D)
| fmt_lsnr (v : D)
| fmt_foff (v : Z)
| fmt_fsk_datr (v : Z)
| fmt_rssi_size (rssic : D) (sz : Z).
Arguments fmt_jver {D} v.
Arguments fmt_tmst {D} v.
Arguments fmt_time {D} utc.
Arguments fmt_tmms {D} ms.
Arguments fmt_ftime {D} v.
Arguments fmt_chan {D} if_chain rf_chain freq modem_id.
Arguments fmt_rssis {D} v.
Arguments fmt_lsnr {D} v.
Arguments fmt_foff {D} v.
Arguments fmt_fsk_datr {D} v.
Arguments fmt_rssi_size {D} rssic sz.

(** [snprintf] of libc and [bin_to_b64] of [base64.c]: the value returned
    and the text written. *)
Class UpstreamLib (D : Type) : Type := {
  snprintf : up_format D -> Z * string;
  bin_to_b64 : list Z -> Z -> Z * string
}.

(** The three forwarding switches of the configuration. *)
Record fwd_conf : Type := {
  fwd_valid_pkt : bool;
  fwd_error_pkt : bool;
  fwd_nocrc_pkt : bool
}.

Section UpstreamPacket.
Context {D : Type} {ops : DoubleOps D} {hal : HalConsts}
        {gl : GpsLib D} {ul : UpstreamLib D}.

(** [j = snprintf(...); if (j > 0) buff_index += j; else exit(EXIT_FAILURE)]. *)
Definition put_fmt (f : up_format D) : run string :=
  let '(j, text) := snprintf f in
  if j >? 0 then Done text else ExitFailure.

(** The basic packet filtering [switch]: no text when the packet is
    skipped. *)
Definition rx_filter (fc : fwd_conf) (p : lgw_pkt_rx_s D) (m : meas_up)
  : bool * meas_up :=
  let m := meas_add meas_nb_rx_rcv 1 m in
  if rx_status p =? STAT_CRC_OK then
    (fwd_valid_pkt fc, meas_add meas_nb_rx_ok 1 m)
  else if rx_status p =? STAT_CRC_BAD then
    (fwd_error_pkt fc, meas_add meas_nb_rx_bad 1 m)
  else if rx_status p =? STAT_NO_CRC then
    (fwd_nocrc_pkt fc, meas_add meas_nb_rx_nocrc 1 m)
  else (false, m).

(** Packet RX time, when a GPS reference is usable. *)
Definition put_rx_time (local_ref : tref D) (p : lgw_pkt_rx_s D) : run string :=
  t1 <~ match lgw_cnt2utc local_ref (rx_count_us p) with
        | Some pkt_utc_time => put_fmt (fmt_time pkt_utc_time)
        | None => Done EmptyString
        end ;;
  t2 <~ match lgw_cnt2gps local_ref (rx_count_us p) with
        | Some pkt_gps_time =>
            match double_to_int 0 (2 ^ 64 - 1)
                    (d_add (d_mul (d_of_Z (tv_sec pkt_gps_time)) (d_of_Z 1000))
                           (d_div (d_of_Z (tv_nsec pkt_gps_time)) (d_of_Z 1000000)))
            with
            | Some pkt_gps_time_ms => put_fmt (fmt_tmms pkt_gps_time_ms)
            | None => Undefined
            end
        | None => Done EmptyString
        end ;;
  Done (t1 ++ t2)%string.

(** Packet status. *)
Definition put_rx_status (p : lgw_pkt_rx_s D) : run string :=
  if rx_status p =? STAT_CRC_OK then Done ("," ++ quoted "stat" ++ ":1")%string
  else if rx_status p =? STAT_CRC_BAD then Done ("," ++ quoted "stat" ++ ":-1")%string
  else if rx_status p =? STAT_NO_CRC then Done ("," ++ quoted "stat" ++ ":0")%string
  else ExitFailure.

(** LoRa datarate, bandwidth and coding rate. *)
Definition put_lora_datarate (p : lgw_pkt_rx_s D) : run string :=
  let datr := ("," ++ quoted "datr" ++ ":" ++ dquote)%string in
  if rx_datarate p =? DR_LORA_SF5 then Done (datr ++ "SF5")%string
  else if rx_datarate p =? DR_LORA_SF6 then Done (datr ++ "SF6")%string
  else if rx_datarate p =? DR_LORA_SF7 then Done (datr ++ "SF7")%string
  else if rx_datarate p =? DR_LORA_SF8 then Done (datr ++ "SF8")%string
  else if rx_datarate p =? DR_LORA_SF9 then Done (datr ++ "SF9")%string
  else if rx_datarate p =? DR_LORA_SF10 then Done (datr ++ "SF10")%string
  else if rx_datarate p =? DR_LORA_SF11 then Done (datr ++ "SF11")%string
  else if rx_datarate p =? DR_LORA_SF12 then Done (datr ++ "SF12")%string
  else ExitFailure.

Definition put_lora_bandwidth (p : lgw_pkt_rx_s D) : run string :=
  if rx_bandwidth p =? BW_125KHZ then Done ("BW125" ++ dquote)%string
  else if rx_bandwidth p =? BW_250KHZ then Done ("BW250" ++ dquote)%string
  else if rx_bandwidth p =? BW_500KHZ then Done ("BW500" ++ dquote)%string
  else ExitFailure.

Definition put_lora_coderate (p : lgw_pkt_rx_s D) : run string :=
  let codr := ("," ++ quoted "codr" ++ ":")%string in
  if rx_coderate p =? CR_LORA_4_5 then Done (codr ++ quoted "4/5")%string
  else if rx_coderate p =? CR_LORA_4_6 then Done (codr ++ quoted "4/6")%string
  else if rx_coderate p =? CR_LORA_4_7 then Done (codr ++ quoted "4/7")%string
  else if rx_coderate p =? CR_LORA_4_8 then Done (codr ++ quoted "4/8")%string
  else if rx_coderate p =? 0 then Done (codr ++ quoted "OFF")%string
  else ExitFailure.

(** Packet modulation and what depends on it. *)
Definition put_rx_modulation (p : lgw_pkt_rx_s D) : run string :=
  if rx_modulation p =? MOD_LORA then
    datr <~ put_lora_datarate p ;;
    bw <~ put_lora_bandwidth p ;;
    codr <~ put_lora_coderate p ;;
    rssis <~ put_fmt (fmt_rssis (rx_rssis p)) ;;
    lsnr <~ put_fmt (fmt_lsnr (rx_snr p)) ;;
    foff <~ put_fmt (fmt_foff (rx_freq_offset p)) ;;
    Done ("," ++ quoted "modu" ++ ":" ++ quoted "LORA"
              ++ datr ++ bw ++ codr ++ rssis ++ lsnr ++ foff)%string
  else if rx_modulation p =? MOD_FSK then
    datr <~ put_fmt (fmt_fsk_datr (rx_datarate p)) ;;
    Done ("," ++ quoted "modu" ++ ":" ++ quoted "FSK" ++ datr)%string
  else ExitFailure.

(** Body of [for (i = 0; i < nb_pkt; ++i)] for the packet [p]:
    [pkt_in_dgram] packets are already in the datagram. The result is the
    text added to the datagram, none for a packet that is skipped, and the
    upstream counters. The reception counters per channel kept for the debug
    trace are left out. *)
Definition serialize_rxpk (fc : fwd_conf) (ref_ok : bool) (local_ref : tref D)
           (pkt_in_dgram : Z) (p : lgw_pkt_rx_s D) (m : meas_up)
  : run (option string * meas_up) :=
  let '(forward, m) := rx_filter fc p m in
  if negb forward then Done (None, m)
  else
    let m := meas_add meas_up_payload_byte (rx_size p)
               (meas_add meas_up_pkt_fwd 1 m) in
    let start := if pkt_in_dgram =? 0 then "{"%string else ",{"%string in
    jver <~ put_fmt (fmt_jver 1) ;;
    tmst <~ put_fmt (fmt_tmst (rx_count_us p)) ;;
    time <~ (if ref_ok then put_rx_time local_ref p else Done EmptyString) ;;
    ftime <~ (if rx_ftime_received p then put_fmt (fmt_ftime (rx_ftime p))
              else Done EmptyString) ;;
    chan <~ put_fmt (fmt_chan (rx_if_chain p) (rx_rf_chain p) (rx_freq_hz p)
                              (rx_modem_id p)) ;;
    stat <~ put_rx_status p ;;
    modu <~ put_rx_modulation p ;;
    rssi <~ put_fmt (fmt_rssi_size (rx_rssic p) (rx_size p)) ;;
    data <~ (let '(j, text) := bin_to_b64 (rx_payload p) (rx_size p) in
             if j >=? 0 then Done text else ExitFailure) ;;
    Done (Some (start ++ jver ++ tmst ++ time ++ ftime ++ chan ++ stat ++ modu
                      ++ rssi ++ "," ++ quoted "data" ++ ":" ++ dquote ++ data
                      ++ dquote ++ "}")%string, m).

(** The packet passes the CRC filter of the configuration. *)
Definition rx_forwardable (fc : fwd_conf) (p : lgw_pkt_rx_s D) : bool :=
  fst (rx_filter fc p meas_zero).

(** The radio fields hold values the serializer has a case for. *)
Definition rx_fields_known (p : lgw_pkt_rx_s D) : bool :=
  ((rx_modulation p =? MOD_LORA)
   && ((rx_datarate p =? DR_LORA_SF5) || (rx_datarate p =? DR_LORA_SF6)
       || (rx_datarate p =? DR_LORA_SF7) || (rx_datarate p =? DR_LORA_SF8)
       || (rx_datarate p =? DR_LORA_SF9) || (rx_datarate p =? DR_LORA_SF10)
       || (rx_datarate p =? DR_LORA_SF11) || (rx_datarate p =? DR_LORA_SF12))
   && ((rx_bandwidth p =? BW_125KHZ) || (rx_bandwidth p =? BW_250KHZ)
       || (rx_bandwidth p =? BW_500KHZ))
   && ((rx_coderate p =? CR_LORA_4_5) || (rx_coderate p =? CR_LORA_4_6)
       || (rx_coderate p =? CR_LORA_4_7) || (rx_coderate p =? CR_LORA_4_8)
       || (rx_coderate p =? 0)))
  || (negb (rx_modulation p =? MOD_LORA) && (rx_modulation p =? MOD_FSK)).

End UpstreamPacket.

(** A formatter to run examples with: integer arguments in decimal,
    floating ones cut to an integer (where C prints rounded decimals). *)
Definition json_field (k v : string) : string := ("," ++ quoted k ++ ":" ++ v)%string.

Definition snprintf_ret (s : string) : Z * string := (Z.of_nat (String.length s), s).

Definition plain_num {D : Type} {ops : DoubleOps D} (x : D) : string :=
  match double_to_int32 x with
  | Some z => fmt_d z
  | None => "nan"
  end.

Definition plain_upstream_lib {D : Type} {ops : DoubleOps D} : UpstreamLib D :=
  {| snprintf := fun f =>
       match f with
       | fmt_jver v => snprintf_ret (quoted "jver" ++ ":" ++ fmt_d v)
       | fmt_tmst v => snprintf_ret (json_field "tmst" (fmt_d v))
       | fmt_time utc => snprintf_ret (json_field "time" (quoted (fmt_d (tv_sec utc))))
       | fmt_tmms ms => snprintf_ret (json_field "tmms" (fmt_d ms))
       | fmt_ftime v => snprintf_ret (json_field "ftime" (fmt_d v))
       | fmt_chan c r f mid =>
           snprintf_ret (json_field "chan" (fmt_d c) ++ json_field "rfch" (fmt_d r)
                           ++ json_field "freq" (fmt_d f) ++ json_field "mid" (fmt_d mid))
       | fmt_rssis v => snprintf_ret (json_field "rssis" (plain_num v))
       | fmt_lsnr v => snprintf_ret (json_field "lsnr" (plain_num v))
       | fmt_foff v => snprintf_ret (json_field "foff" (fmt_d v))
       | fmt_fsk_datr v => snprintf_ret (json_field "datr" (fmt_d v))
       | fmt_rssi_size r sz =>
           snprintf_ret (json_field "rssi" (plain_num r) ++ json_field "size" (fmt_d sz))
       end;
     bin_to_b64 := fun pl sz =>
       if sz <=? 255 then (0, EmptyString) else (-1, EmptyString) |}.

(* ====================================================================== *)
(** * [thread_down]: handling one datagram of the downstream socket *)

(** ** JSON values and parson's accessors *)

Unset Elimination Schemes.
Inductive JSON_Value (D : Type) : Type :=
| JSONNull
| JSONString (s : string)
| JSONNumber (n : D)
| JSONObject (members : list (string * JSON_Value D))
| JSONArray (items : list (JSON_Value D))
| JSONBoolean (b : bool).
Set Elimination Schemes.
Arguments JSONNull {D}.
Arguments JSONString {D} s.
Arguments JSONNumber {D} n.
Arguments JSONObject {D} members.
Arguments JSONArray {D} items.
Arguments JSONBoolean {D} b.

Definition JSON_Object (D : Type) : Type := list (string * JSON_Value D).

Section Parson.
Context {D : Type} {ops : DoubleOps D}.

Definition json_value_get_object (v : JSON_Value D) : option (JSON_Object D) :=
  match v with
  | JSONObject members => Some members
  | _ => None
  end.

Fixpoint json_object_get_value (o : JSON_Object D) (name : string)
  : option (JSON_Value D) :=
  match o with
  | [] => None
  | (k, v) :: o' => if String.eqb k name then Some v else json_object_get_value o' name
  end.

Definition json_object_get_object (o : JSON_Object D) (name : string)
  : option (JSON_Object D) :=
  match json_object_get_value o name with
  | Some v => json_value_get_object v
  | None => None
  end.

Definition json_object_get_string (o : JSON_Object D) (name : string) : option string :=
  match json_object_get_value o name with
  | Some (JSONString s) => Some s
  | _ => None
  end.

(** 1 for true, 0 for false, -1 for a value that is not a boolean. *)
Definition json_value_get_boolean (v : JSON_Value D) : Z :=
  match v with
  | JSONBoolean true => 1
  | JSONBoolean false => 0
  | _ => -1
  end.

Definition json_object_get_boolean (o : JSON_Object D) (name : string) : Z :=
  match json_object_get_value o name with
  | Some v => json_value_get_boolean v
  | None => -1
  end.

(** 0 for a value that is not a number. *)
Definition json_value_get_number (v : JSON_Value D) : D :=
  match v with
  | JSONNumber n => n
  | _ => d_of_Z 0
  end.

End Parson.

(** The parser, [sscanf] on the format [SF%2hdBW%3hd] (a result when both
    numbers were read) and [b64_to_bin] (the value returned and the bytes
    written at the start of the payload). *)
Class ParseLib (D : Type) : Type := {
  json_parse_string_with_comments : list Z -> option (JSON_Value D);
  sscanf_SF_BW : string -> option (Z * Z);
  b64_to_bin : string -> Z -> Z * list Z
}.

(** ** TX gain table *)

(** [struct lgw_tx_gain_lut_s]: the [rf_power] of the 16 entries and the
    number of entries in use. *)
Record lgw_tx_gain_lut_s : Type := {
  lut_rf_power : list Z;
  lut_size : Z
}.

(** The search loop of [get_tx_gain_lut_index], from [pow_index] on, over
    the entries not yet visited. *)
Fixpoint lut_search (rf_power : Z) (entries : list Z) (pow_index : Z)
         (current_best_index current_best_match : Z) : Z * Z :=
  match entries with
  | [] => (current_best_index, current_best_match)
  | p :: entries' =>
      let diff := rf_power - p in
      if diff <? 0 then
        lut_search rf_power entries' (pow_index + 1)
                   current_best_index current_best_match
      else if (current_best_index =? -1) || (diff <? current_best_match) then
        lut_search rf_power entries' (pow_index + 1) pow_index (uint8 diff)
      else
        lut_search rf_power entries' (pow_index + 1)
                   current_best_index current_best_match
  end.

(** [get_tx_gain_lut_index] on the table of the chain: the value returned
    and [*lut_index]. *)
Definition get_tx_gain_lut_index (lut : lgw_tx_gain_lut_s) (rf_power : Z) : Z * Z :=
  let '(current_best_index, _) :=
    lut_search rf_power (firstn (Z.to_nat (lut_size lut)) (lut_rf_power lut))
               0 (-1) 0xFF in
  if current_best_index >? -1 then (0, uint8 current_best_index)
  else (-1, 0).

(** The entries of a table that are in use. *)
Definition lut_in_use (lut : lgw_tx_gain_lut_s) : list Z :=
  firstn (Z.to_nat (lut_size lut)) (lut_rf_power lut).

(** [p] is the closest power of [l] not above [rf_power]. *)
Definition closest_lower (rf_power : Z) (l : list Z) (p : Z) : Prop :=
  In p l /\ p <= rf_power /\ forall p', In p' l -> p' <= rf_power -> p' <= p.

(** ** The thread's configuration, state and surroundings *)

(** Globals set at start-up from the configuration files. *)
Record down_conf : Type := {
  gps_enabled : bool;
  antenna_gain : Z;
  tx_enable : list bool;
  tx_freq_min : list Z;
  tx_freq_max : list Z;
  txlut : list lgw_tx_gain_lut_s;
  gateway_mac : net_mac
}.

(** Locals of [thread_down] that live across datagrams, the JIT queues of
    the RF chains and the downstream counters. *)
Record down_state (J : Type) : Type := {
  token_h : Z;
  token_l : Z;
  req_ack : bool;
  autoquit_cnt : Z;
  jit_queue : list J;
  down_meas : meas_dw
}.
Arguments token_h {J} _.
Arguments token_l {J} _.
Arguments req_ack {J} _.
Arguments autoquit_cnt {J} _.
Arguments jit_queue {J} _.
Arguments down_meas {J} _.

(** What the handling of one datagram reads from the other threads and the
    concentrator. *)
Record down_env (D : Type) : Type := {
  down_gps_ref_valid : bool;
  down_time_reference_gps : tref D;
  down_instcnt : Z
}.
Arguments down_gps_ref_valid {D} _.
Arguments down_time_reference_gps {D} _.
Arguments down_instcnt {D} _.

Definition set_jit_queue {J : Type} (q : list J) (s : down_state J) : down_state J :=
  {| token_h := token_h s; token_l := token_l s; req_ack := req_ack s;
     autoquit_cnt := autoquit_cnt s; jit_queue := q; down_meas := down_meas s |}.

Definition set_down_meas {J : Type} (m : meas_dw) (s : down_state J) : down_state J :=
  {| token_h := token_h s; token_l := token_l s; req_ack := req_ack s;
     autoquit_cnt := autoquit_cnt s; jit_queue := jit_queue s; down_meas := m |}.

(** [a[i] = x] inside the array. *)
Fixpoint list_set {A : Type} (i : nat) (x : A) (l : list A) : list A :=
  match l, i with
  | [], _ => []
  | _ :: l', O => x :: l'
  | y :: l', S i' => y :: list_set i' x l'
  end.

(** The bytes of a C string: up to the first NUL. *)
Fixpoint c_string (bytes : list Z) : list Z :=
  match bytes with
  | [] => []
  | b :: bytes' => if b =? 0 then [] else b :: c_string bytes'
  end.

(** The three ways the handling of a PULL_RESP goes on: with a value, with
    the transmission aborted (the loop continues), or undefined. *)
Definition parse_bind {A B : Type} (x : run (option A)) (f : A -> run (option B))
  : run (option B) :=
  match x with
  | Done (Some a) => f a
  | Done None => Done None
  | ExitFailure => ExitFailure
  | Undefined => Undefined
  end.

Notation "x <~~ e ;; k" := (parse_bind e (fun x => k))
  (at level 61, e at next level, right associativity).

Definition tx_aborted {A : Type} : run (option A) := Done None.
Definition parsed {A : Type} (a : A) : run (option A) := Done (Some a).

Section ThreadDown.
Context {D : Type} {ops : DoubleOps D} {J : Type} {jq : JitQueue J}
        {hal : HalConsts} {gl : GpsLib D} {pl : ParseLib D}.
Variable cfg : down_conf.

(** [(T)x] inside the handling of a PULL_RESP. *)
Definition cast_number (lo hi : Z) (x : D) : run (option Z) :=
  match double_to_int lo hi x with
  | Some z => parsed z
  | None => Undefined
  end.

(** [(bool)json_value_get_boolean(val)]: anything but false is true. *)
Definition json_flag (v : JSON_Value D) : bool := negb (json_value_get_boolean v =? 0).

(** How the "imme", "tmst", "tmms" part ends when the packet goes on. *)
Record tx_time : Type := {
  tt_txpkt : lgw_pkt_tx_s;
  tt_sent_immediate : bool;
  tt_downlink_type : jit_pkt_type_e
}.

(** Outcome of that part: go on, or leave the loop body with an
    acknowledgement carrying an error. *)
Inductive tx_time_result : Type :=
| TxTimeSet (t : tx_time)
| TxTimeRejected (error : jit_error_e).

(** Parse "immediate" tag, or target timestamp, or GPS time. *)
Definition parse_tx_time (e : down_env D) (txpk_obj : JSON_Object D)
           (txpkt : lgw_pkt_tx_s) : run (option tx_time_result) :=
  if json_object_get_boolean txpk_obj "imme" =? 1 then
    parsed (TxTimeSet {| tt_txpkt := txpkt; tt_sent_immediate := true;
                         tt_downlink_type := JIT_PKT_TYPE_DOWNLINK_CLASS_C |})
  else
    match json_object_get_value txpk_obj "tmst" with
    | Some val =>
        cnt <~~ cast_number 0 (2 ^ 32 - 1) (json_value_get_number val) ;;
        parsed (TxTimeSet {| tt_txpkt := set_count_us cnt txpkt;
                             tt_sent_immediate := false;
                             tt_downlink_type := JIT_PKT_TYPE_DOWNLINK_CLASS_A |})
    | None =>
        match json_object_get_value txpk_obj "tmms" with
        | None => tx_aborted
        | Some val =>
            if gps_enabled cfg then
              if down_gps_ref_valid e then
                let local_ref := down_time_reference_gps e in
                x2 <~~ cast_number 0 (2 ^ 64 - 1) (json_value_get_number val) ;;
                (* modf: integer part x4, fractional part x3 *)
                let ms := d_div (d_of_Z x2) (d_of_Z 1000) in
                sec <~~ cast_number (- 2 ^ 63) (2 ^ 63 - 1) ms ;;
                let x3 := d_sub ms (d_of_Z sec) in
                nsec <~~ cast_number (- 2 ^ 63) (2 ^ 63 - 1)
                           (d_mul x3 (d_of_Z 1000000000)) ;;
                match lgw_gps2cnt local_ref {| tv_sec := sec; tv_nsec := nsec |} with
                | None => tx_aborted
                | Some cnt =>
                    parsed (TxTimeSet
                              {| tt_txpkt := set_count_us cnt txpkt;
                                 tt_sent_immediate := false;
                                 tt_downlink_type := JIT_PKT_TYPE_DOWNLINK_CLASS_B |})
                end
              else parsed (TxTimeRejected JIT_ERROR_GPS_UNLOCKED)
            else parsed (TxTimeRejected JIT_ERROR_GPS_UNLOCKED)
        end
    end.

(** Preamble length: optional, with a minimum and a default. *)
Definition parse_preamble (txpk_obj : JSON_Object D) (min std : Z) : run (option Z) :=
  match json_object_get_value txpk_obj "prea" with
  | Some val =>
      i <~~ cast_number (- 2 ^ 31) (2 ^ 31 - 1) (json_value_get_number val) ;;
      parsed (if i >=? min then uint16 i else min)
  | None => parsed std
  end.

(** Modulation and what depends on it: modulation, bandwidth, datarate,
    coderate, polarity, deviation, preamble. *)
Record tx_modulation : Type := {
  tm_modulation : Z;
  tm_bandwidth : Z;
  tm_datarate : Z;
  tm_coderate : Z;
  tm_invert_pol : bool;
  tm_f_dev : Z;
  tm_preamble : Z
}.

Definition string_in (s : string) (l : list string) : bool :=
  existsb (String.eqb s) l.

Definition parse_modulation (txpk_obj : JSON_Object D) (txpkt : lgw_pkt_tx_s)
  : run (option tx_modulation) :=
  match json_object_get_string txpk_obj "modu" with
  | None => tx_aborted
  | Some str =>
      if String.eqb str "LORA" then
        match json_object_get_string txpk_obj "datr" with
        | None => tx_aborted
        | Some str =>
            match sscanf_SF_BW str with
            | None => tx_aborted
            | Some (x0, x1) =>
                sf <~~ (if x0 =? 5 then parsed DR_LORA_SF5
                        else if x0 =? 6 then parsed DR_LORA_SF6
                        else if x0 =? 7 then parsed DR_LORA_SF7
                        else if x0 =? 8 then parsed DR_LORA_SF8
                        else if x0 =? 9 then parsed DR_LORA_SF9
                        else if x0 =? 10 then parsed DR_LORA_SF10
                        else if x0 =? 11 then parsed DR_LORA_SF11
                        else if x0 =? 12 then parsed DR_LORA_SF12
                        else tx_aborted) ;;
                bw <~~ (if x1 =? 125 then parsed BW_125KHZ
                        else if x1 =? 250 then parsed BW_250KHZ
                        else if x1 =? 500 then parsed BW_500KHZ
                        else tx_aborted) ;;
                match json_object_get_string txpk_obj "codr" with
                | None => tx_aborted
                | Some str =>
                    cr <~~ (if String.eqb str "4/5" then parsed CR_LORA_4_5
                            else if string_in str ["4/6"; "2/3"]%string
                                 then parsed CR_LORA_4_6
                            else if String.eqb str "4/7" then parsed CR_LORA_4_7
                            else if string_in str ["4/8"; "1/2"]%string
                                 then parsed CR_LORA_4_8
                            else tx_aborted) ;;
                    let ipol := match json_object_get_value txpk_obj "ipol" with
                                | Some val => json_flag val
                                | None => invert_pol txpkt
                                end in
                    prea <~~ parse_preamble txpk_obj 6 8 ;;
                    parsed {| tm_modulation := MOD_LORA; tm_bandwidth := bw;
                              tm_datarate := sf; tm_coderate := cr;
                              tm_invert_pol := ipol; tm_f_dev := f_dev txpkt;
                              tm_preamble := prea |}
                end
            end
        end
      else if String.eqb str "FSK" then
        match json_object_get_value txpk_obj "datr" with
        | None => tx_aborted
        | Some val =>
            dr <~~ cast_number 0 (2 ^ 32 - 1) (json_value_get_number val) ;;
            match json_object_get_value txpk_obj "fdev" with
            | None => tx_aborted
            | Some val =>
                fdev <~~ cast_number 0 255
                           (d_div (json_value_get_number val) (d_of_Z 1000)) ;;
                prea <~~ parse_preamble txpk_obj 3 5 ;;
                parsed {| tm_modulation := MOD_FSK; tm_bandwidth := bandwidth txpkt;
                          tm_datarate := dr; tm_coderate := coderate txpkt;
                          tm_invert_pol := invert_pol txpkt; tm_f_dev := fdev;
                          tm_preamble := prea |}
            end
        end
      else tx_aborted
  end.

(** The fields of "txpk" after the time, up to the payload, and the choice
    of the TX mode. *)
Definition parse_txpk_fields (txpk_obj : JSON_Object D) (t : tx_time)
  : run (option lgw_pkt_tx_s) :=
  let txpkt := tt_txpkt t in
  let ncrc := match json_object_get_value txpk_obj "ncrc" with
              | Some val => json_flag val
              | None => no_crc txpkt
              end in
  let nhdr := match json_object_get_value txpk_obj "nhdr" with
              | Some val => json_flag val
              | None => no_header txpkt
              end in
  match json_object_get_value txpk_obj "freq" with
  | None => tx_aborted
  | Some val =>
      freq <~~ cast_number 0 (2 ^ 32 - 1)
                 (d_mul (d_of_Z 1000000) (json_value_get_number val)) ;;
      match json_object_get_value txpk_obj "rfch" with
      | None => tx_aborted
      | Some val =>
          rfch <~~ cast_number 0 255 (json_value_get_number val) ;;
          match nth_error (tx_enable cfg) (Z.to_nat rfch) with
          | None => Undefined
          | Some false => tx_aborted
          | Some true =>
              powe <~~ match json_object_get_value txpk_obj "powe" with
                       | Some val =>
                           p <~~ cast_number (- 128) 127 (json_value_get_number val) ;;
                           parsed (int8 (p - antenna_gain cfg))
                       | None => parsed (rf_power txpkt)
                       end ;;
              tm <~~ parse_modulation txpk_obj txpkt ;;
              match json_object_get_value txpk_obj "size" with
              | None => tx_aborted
              | Some val =>
                  sz <~~ cast_number 0 65535 (json_value_get_number val) ;;
                  match json_object_get_string txpk_obj "data" with
                  | None => tx_aborted
                  | Some str =>
                      let '(_, bytes) := b64_to_bin str 256 in
                      parsed
                        {| freq_hz := freq;
                           tx_mode := if tt_sent_immediate t then IMMEDIATE
                                      else TIMESTAMPED;
                           count_us := count_us txpkt;
                           rf_chain := rfch;
                           rf_power := powe;
                           modulation := tm_modulation tm;
                           bandwidth := tm_bandwidth tm;
                           datarate := tm_datarate tm;
                           coderate := tm_coderate tm;
                           invert_pol := tm_invert_pol tm;
                           f_dev := tm_f_dev tm;
                           preamble := tm_preamble tm;
                           no_crc := ncrc;
                           no_header := nhdr;
                           size := sz;
                           payload := write_bytes 0 bytes (payload txpkt) |}
                  end
              end
          end
      end
  end.

(** The power check: the packet with the power that will be used, the
    warning and its value. *)
Definition check_tx_power (lut : lgw_tx_gain_lut_s) (txpkt : lgw_pkt_tx_s)
  : lgw_pkt_tx_s * jit_error_e * Z :=
  let '(i, tx_lut_idx) := get_tx_gain_lut_index lut (rf_power txpkt) in
  let lut_power := nth (Z.to_nat tx_lut_idx) (lut_rf_power lut) 0 in
  if (i <? 0) || negb (lut_power =? rf_power txpkt)
  then (set_rf_power lut_power txpkt, JIT_ERROR_TX_POWER, lut_power)
  else (txpkt, JIT_ERROR_OK, 0).

(** From "record measurement data" to the acknowledgement: the checks of
    frequency and power, the insertion in the JIT queue of the chain, and
    the TX_ACK. [msg_len] is the length of the datagram received. *)
Definition thread_down_enqueue (e : down_env D) (msg_len : Z) (ack_h ack_l : Z)
           (txpkt : lgw_pkt_tx_s) (downlink_type : jit_pkt_type_e)
           (st : down_state J) : run (down_state J * list (list Z)) :=
  let chain := Z.to_nat (rf_chain txpkt) in
  let m := meas_add meas_dw_payload_byte (size txpkt)
             (meas_add meas_dw_network_byte msg_len
                (meas_add meas_dw_dgram_rcv 1 (down_meas st))) in
  match nth_error (tx_freq_min cfg) chain, nth_error (tx_freq_max cfg) chain with
  | Some fmin, Some fmax =>
      if (freq_hz txpkt <? fmin) || (freq_hz txpkt >? fmax) then
        let '(dgram, m) :=
          send_tx_ack (gateway_mac cfg) ack_h ack_l JIT_ERROR_TX_FREQ 0 m in
        Done (set_down_meas m st, [dgram])
      else
        match nth_error (txlut cfg) chain, nth_error (jit_queue st) chain with
        | Some lut, Some q =>
            let '(txpkt, warning_result, warning_value) := check_tx_power lut txpkt in
            let '(jit_result, q', _) :=
              jit_enqueue q (down_instcnt e) txpkt downlink_type in
            let jit_result := match jit_result with
                              | JIT_ERROR_OK => warning_result
                              | _ => jit_result
                              end in
            let m := meas_add meas_nb_tx_requested 1 m in
            let '(dgram, m) :=
              send_tx_ack (gateway_mac cfg) ack_h ack_l jit_result warning_value m in
            Done (set_down_meas m (set_jit_queue (list_set chain q' (jit_queue st)) st),
                  [dgram])
        | _, _ => Undefined
        end
  | _, _ => Undefined
  end.

(** Handling of a PULL_RESP whose JSON text parsed to [root_val]. *)
Definition thread_down_pull_resp (e : down_env D) (msg_len ack_h ack_l : Z)
           (root_val : JSON_Value D) (st : down_state J)
  : run (down_state J * list (list Z)) :=
  match match json_value_get_object root_val with
        | Some o => json_object_get_object o "txpk"
        | None => None
        end with
  | None => Done (st, [])
  | Some txpk_obj =>
      match parse_tx_time e txpk_obj txpkt_zero with
      | Done (Some (TxTimeRejected error)) =>
          let '(dgram, m) :=
            send_tx_ack (gateway_mac cfg) ack_h ack_l error 0 (down_meas st) in
          Done (set_down_meas m st, [dgram])
      | Done (Some (TxTimeSet t)) =>
          match parse_txpk_fields txpk_obj t with
          | Done (Some txpkt) =>
              thread_down_enqueue e msg_len ack_h ack_l txpkt (tt_downlink_type t) st
          | Done None => Done (st, [])
          | ExitFailure => ExitFailure
          | Undefined => Undefined
          end
      | Done None => Done (st, [])
      | ExitFailure => ExitFailure
      | Undefined => Undefined
      end
  end.

(** The part of the receive loop after the beacon pre-allocation: what the
    thread does with the outcome [r] of [recv] on [sock_down]. The result is
    the new state and the datagrams sent on [sock_down]. *)
Definition thread_down_handle (e : down_env D) (r : recv_result) (st : down_state J)
  : run (down_state J * list (list Z)) :=
  match r with
  | RecvError _ => Done (st, [])
  | RecvData dgram =>
      let buff_down := firstn 999 dgram in
      let msg_len := Z.of_nat (length buff_down) in
      if (msg_len <? 4)
         || negb (byte_at buff_down 0 =? PROTOCOL_VERSION)
         || (negb (byte_at buff_down 3 =? PKT_PULL_RESP)
             && negb (byte_at buff_down 3 =? PKT_PULL_ACK))
      then Done (st, [])
      else if byte_at buff_down 3 =? PKT_PULL_ACK then
        if (byte_at buff_down 1 =? token_h st) && (byte_at buff_down 2 =? token_l st)
        then
          if req_ack st then Done (st, [])
          else Done ({| token_h := token_h st; token_l := token_l st;
                        req_ack := true; autoquit_cnt := 0;
                        jit_queue := jit_queue st;
                        down_meas := meas_add meas_dw_ack_rcv 1 (down_meas st) |}, [])
        else Done (st, [])
      else
        match json_parse_string_with_comments (c_string (skipn 4 buff_down)) with
        | None => Done (st, [])
        | Some root_val =>
            thread_down_pull_resp e msg_len (byte_at buff_down 1)
                                  (byte_at buff_down 2) root_val st
        end
  end.

End ThreadDown.

(* ====================================================================== *)
(** * Inputs for the examples *)

Definition ex_beacon_conf : beacon_conf :=
  {| beacon_period := 128; beacon_freq_hz := 869525000; beacon_freq_nb := 1;
     beacon_freq_step := 0; beacon_datarate := 9; beacon_bw_hz := 125000;
     beacon_power := 14; beacon_infodesc := 0 |}.

Definition ex_beacon_layout : beacon_layout :=
  {| beacon_RFU1_size := 2; beacon_RFU2_size := 0 |}.

Definition ex_jit : JitQueue (list (lgw_pkt_tx_s * jit_pkt_type_e)) :=
  list_jit 3 8 JIT_ERROR_FULL.

(** A reference taken at GPS second 1 280 000 000, counter 5 000 000. *)
Definition ex_tref : tref float :=
  {| tref_systime := 1595964782;
     tref_count_us := 5000000;
     tref_utc := {| tv_sec := 1595964782; tv_nsec := 0 |};
     tref_gps := {| tv_sec := 1280000000; tv_nsec := 0 |};
     tref_xtal_err := 1%float |}.

Definition ex_beacon_env : beacon_env float :=
  {| env_gps_ref_valid := true; env_xtal_correct_ok := true;
     env_time_reference_gps := ex_tref; env_instcnt := 5200000 |}.

Definition ex_beacon_pkt : lgw_pkt_tx_s :=
  {| freq_hz := 0; tx_mode := 2; count_us := 0; rf_chain := 0; rf_power := 14;
     modulation := 0x10; bandwidth := 0x04; datarate := 9; coderate := 1;
     invert_pol := false; f_dev := 0; preamble := 10; no_crc := true;
     no_header := true; size := 17;
     payload := [0; 0; 0; 0; 0; 0; 0; 0; 0; 98; 125; 69; 205; 171; 1; 126; 143] |}.

Definition ex_beacon_vars : beacon_vars (list (lgw_pkt_tx_s * jit_pkt_type_e)) :=
  {| jit_queue0 := []; beacon_pkt := ex_beacon_pkt; beacon_loop := 3; retry := 0;
     last_beacon_gps_time := 0; beacon_meas := meas_zero |}.

(** A beacon waiting in the queue, a crystal 2^-23 (0.12 ppm) fast, and a
    radio that is free and accepts the packet. *)
Definition ex_jit_queue : list (lgw_pkt_tx_s * jit_pkt_type_e) :=
  [(set_freq_hz 869525000 ex_beacon_pkt, JIT_PKT_TYPE_BEACON)].

Definition ex_xtal_correct : float := 0x1.000002p+0%float.

Definition ex_jit_env : jit_env :=
  {| jit_instcnt := 132000000; jit_status_result := 0; jit_tx_status := 2;
     jit_scan_abort_result := 0; jit_send_result := 0 |}.


(** Forward every packet, as the defaults of the source do. *)
Definition ex_fwd_conf : fwd_conf :=
  {| fwd_valid_pkt := true; fwd_error_pkt := true; fwd_nocrc_pkt := true |}.

(** A received packet with a good CRC: SF7, 125 kHz, 4/5. *)
Definition ex_rx_pkt (modu : Z) : lgw_pkt_rx_s float :=
  {| rx_freq_hz := 868100000; rx_if_chain := 0; rx_rf_chain := 1; rx_modem_id := 3;
     rx_status := 0x10; rx_count_us := 7000000; rx_modulation := modu;
     rx_bandwidth := 0x04; rx_datarate := 7; rx_coderate := 1;
     rx_rssic := (-97)%float; rx_rssis := (-98)%float; rx_snr := 9%float;
     rx_freq_offset := -120; rx_size := 4; rx_payload := [0x40; 1; 2; 3];
     rx_ftime_received := false; rx_ftime := 0 |}.

(** A chain whose gain table supports 7, 10 and 14 dBm (the other entries
    of the 16 are unused), open from 863 to 870 MHz, and a downlink
    descriptor for it. *)
Definition ex_lut : lgw_tx_gain_lut_s :=
  {| lut_rf_power := [7; 10; 14] ++ repeat 0 13; lut_size := 3 |}.

Definition ex_down_conf : down_conf :=
  {| gps_enabled := true; antenna_gain := 0;
     tx_enable := [true; false];
     tx_freq_min := [863000000; 863000000];
     tx_freq_max := [870000000; 870000000];
     txlut := [ex_lut; ex_lut];
     gateway_mac := {| net_mac_h := 0x01020304; net_mac_l := 0x05060708 |} |}.

Definition ex_txpkt (powe : Z) : lgw_pkt_tx_s :=
  {| freq_hz := 869525000; tx_mode := 1; count_us := 9000000; rf_chain := 0;
     rf_power := powe; modulation := 0x10; bandwidth := 0x04; datarate := 9;
     coderate := 1; invert_pol := true; f_dev := 0; preamble := 8;
     no_crc := false; no_header := false; size := 4;
     payload := [1; 2; 3; 4] ++ repeat 0 252 |}.

Definition ex_down_env : down_env float :=
  {| down_gps_ref_valid := false; down_time_reference_gps := ex_tref;
     down_instcnt := 5200000 |}.

Definition ex_down_state : down_state (list (lgw_pkt_tx_s * jit_pkt_type_e)) :=
  {| token_h := 0x11; token_l := 0x22; req_ack := true; autoquit_cnt := 0;
     jit_queue := [[]; []]; down_meas := meas_zero |}.

(** A queue that has no room left. *)
Definition ex_jit_full : JitQueue (list (lgw_pkt_tx_s * jit_pkt_type_e)) :=
  list_jit 3 0 JIT_ERROR_FULL.

(** A parser, a scanner and a decoder that answer with a given document,
    a given pair of numbers and given bytes, whatever the text. *)
Definition fixed_parse_lib {D : Type} (root_val : option (JSON_Value D))
           (sf_bw : option (Z * Z)) (bytes : list Z) : ParseLib D :=
  {| json_parse_string_with_comments := fun _ => root_val;
     sscanf_SF_BW := fun _ => sf_bw;
     b64_to_bin := fun _ _ => (Z.of_nat (length bytes), bytes) |}.

(** A Class B request: "tmms" without "imme" and "tmst". *)
Definition ex_class_b_json : JSON_Value float :=
  JSONObject
    [("txpk"%string,
      JSONObject [("tmms"%string, JSONNumber 1280000128000%float);
                  ("freq"%string, JSONNumber 869.5%float);
                  ("rfch"%string, JSONNumber 0%float);
                  ("powe"%string, JSONNumber 14%float);
                  ("modu"%string, JSONString "LORA");
                  ("datr"%string, JSONString "SF9BW125");
                  ("codr"%string, JSONString "4/5");
                  ("size"%string, JSONNumber 4%float);
                  ("data"%string, JSONString "AQIDBA==")])].

(** A PULL_RESP datagram with token 0xAB 0xCD. *)
Definition ex_pull_resp : list Z :=
  [2; 0xAB; 0xCD; 3] ++ bytes_of_string "{...}".

(** A Class A request at 12 dBm on chain 0. *)
Definition ex_class_a_json : JSON_Value float :=
  JSONObject
    [("txpk"%string,
      JSONObject [("imme"%string, JSONBoolean false);
                  ("tmst"%string, JSONNumber 9000000%float);
                  ("freq"%string, JSONNumber 869.5%float);
                  ("rfch"%string, JSONNumber 0%float);
                  ("powe"%string, JSONNumber 12%float);
                  ("modu"%string, JSONString "LORA");
                  ("datr"%string, JSONString "SF9BW125");
                  ("codr"%string, JSONString "4/5");
                  ("ipol"%string, JSONBoolean true);
                  ("size"%string, JSONNumber 4%float);
                  ("data"%string, JSONString "AQIDBA==")])].


(* ====================================================================== *)
(** * Invariants and checks used in the statements below *)

(** What [thread_valid] keeps true of its variables: the sample count never
    exceeds [XERR_INIT_AVG + 1], the correction is marked usable exactly
    when the count has reached that value, and it is 1.0 until then. *)
Definition valid_inv {D : Type} `{DoubleOps D} (s : valid_state D) : Prop :=
  0 <= init_cpt s <= XERR_INIT_AVG + 1
  /\ (xtal_correct_ok s = true <-> init_cpt s = XERR_INIT_AVG + 1)
  /\ (xtal_correct_ok s = true -> gps_ref_valid s = true)
  /\ (xtal_correct_ok s = false -> xtal_correct s = d_of_Z 1).

(** The integers [start], [start + 1], ... ([n] of them). *)
Fixpoint zrange (n : nat) (start : Z) : list Z :=
  match n with
  | O => []
  | S n' => start :: zrange n' (start + 1)
  end.

(* ====================================================================== *)
(** * [main]: the gateway MAC words *)

(** [htonl] on the little-endian host the forwarder runs on: the byte swap
    of a 32-bit word. *)
Definition htonl (x : Z) : Z :=
  Z.lor (Z.lor (Z.shiftr (Z.land x 0xff000000) 24) (Z.shiftr (Z.land x 0x00ff0000) 8))
        (Z.lor (Z.shiftl (Z.land x 0x0000ff00) 8) (Z.shiftl (Z.land x 0x000000ff) 24)).

(** "process some of the configuration variables": [net_mac_h] and
    [net_mac_l] from the 64-bit gateway ID [lgwm]. *)
Definition main_net_mac (lgwm : Z) : net_mac :=
  {| net_mac_h := htonl (uint32 (Z.land 0xFFFFFFFF (Z.shiftr lgwm 32)));
     net_mac_l := htonl (uint32 (Z.land 0xFFFFFFFF lgwm)) |}.

(** The eight bytes of a 64-bit value, most significant first. *)
Definition be_bytes (n : nat) (v : Z) : list Z := rev (le_bytes n v).

(* ====================================================================== *)
(** * [thread_up]: one pass of the main loop *)

(** [TX_BUFF_SIZE], with [NB_PKT_MAX] = 255 and [STATUS_SIZE] = 200. *)
Definition NB_PKT_MAX : Z := 255.
Definition STATUS_SIZE : Z := 200.
Definition TX_BUFF_SIZE : Z := 540 * NB_PKT_MAX + 30 + STATUS_SIZE.

(** The 12-byte header of a datagram sent by the gateway. *)
Definition dgram_header (mac : net_mac) (token_h token_l pkt_type : Z) : list Z :=
  [PROTOCOL_VERSION; token_h; token_l; pkt_type]
    ++ store_uint32 (net_mac_h mac) ++ store_uint32 (net_mac_l mac).

(** What a pass leaves behind: the datagram handed to [send] on [sock_up]
    (none when the pass ends before), [report_ready], the acknowledgement
    buffer and the upstream counters. *)
Record up_result : Type := {
  up_sent : option (list Z);
  up_report_ready : bool;
  up_buff_ack : list Z;
  up_meas : meas_up
}.

(** [buff_up[buff_index] = c; ++buff_index] with the JSON text written so
    far in [text], which starts at offset 12 of [buff_up]: outside the
    buffer the store is undefined. *)
Definition put_char (c : string) (text : string) : run string :=
  if 12 + Z.of_nat (String.length text) <? TX_BUFF_SIZE
  then Done (text ++ c)%string
  else Undefined.

Section UpstreamLoop.
Context {D : Type} {ops : DoubleOps D} {hal : HalConsts}
        {gl : GpsLib D} {ul : UpstreamLib D}.

(** [for (i = 0; i < nb_pkt; ++i)]: the packets in turn, each adding its
    text and one to [pkt_in_dgram] unless it is skipped. *)
Fixpoint serialize_rxpks (fc : fwd_conf) (ref_ok : bool) (local_ref : tref D)
         (pkts : list (lgw_pkt_rx_s D)) (pkt_in_dgram : Z) (text : string)
         (m : meas_up) : run (Z * string * meas_up) :=
  match pkts with
  | [] => Done (pkt_in_dgram, text, m)
  | p :: pkts' =>
      r <~ serialize_rxpk fc ref_ok local_ref pkt_in_dgram p m ;;
      match r with
      | (None, m') => serialize_rxpks fc ref_ok local_ref pkts' pkt_in_dgram text m'
      | (Some s, m') =>
          serialize_rxpks fc ref_ok local_ref pkts' (uint32 (pkt_in_dgram + 1))
                          (text ++ s) m'
      end
  end.

(** From the end of the packet array to [send] and the wait for the
    acknowledgement. *)
Definition thread_up_send (mac : net_mac) (send_report : bool) (status_report : string)
           (token_h token_l : Z) (acks : list recv_result) (buff_ack : list Z)
           (report_ready : bool) (text : string) (m : meas_up) : run up_result :=
  text <~ (if send_report then
             (* j = snprintf(..., "%s", status_report) *)
             if Z.of_nat (String.length status_report) >? 0
             then Done (text ++ status_report)%string
             else ExitFailure
           else Done text) ;;
  text <~ put_char "}" text ;;
  (* the string terminator *)
  if 12 + Z.of_nat (String.length text) <? TX_BUFF_SIZE then
    let buff_index := 12 + Z.of_nat (String.length text) in
    let dgram := dgram_header mac token_h token_l PKT_PUSH_DATA
                   ++ bytes_of_string text in
    let m := meas_add meas_up_network_byte buff_index
               (meas_add meas_up_dgram_sent 1 m) in
    let '(buff_ack', m) := push_ack_wait 2 token_h token_l acks buff_ack m in
    Done {| up_sent := Some dgram;
            up_report_ready := if send_report then false else report_ready;
            up_buff_ack := buff_ack';
            up_meas := m |}
  else Undefined.

(** One pass of [while (!exit_sig && !quit_sig)]. [fetch] is what
    [lgw_receive] returns (nothing for [LGW_HAL_ERROR]), [rand_h] and
    [rand_l] the two values of [rand()], [acks] what the [recv] calls of the
    acknowledgement wait return. [local_ref] is read only when [ref_ok] is
    set in the same pass. *)
Definition thread_up_pass (mac : net_mac) (fc : fwd_conf)
           (gps_enabled gps_ref_valid : bool) (time_reference_gps : tref D)
           (fetch : option (list (lgw_pkt_rx_s D)))
           (report_ready : bool) (status_report : string)
           (rand_h rand_l : Z) (acks : list recv_result) (buff_ack : list Z)
           (m : meas_up) : run up_result :=
  match fetch with
  | None => ExitFailure
  | Some pkts =>
      let nb_pkt := Z.of_nat (length pkts) in
      let send_report := report_ready in
      let idle := {| up_sent := None; up_report_ready := report_ready;
                     up_buff_ack := buff_ack; up_meas := m |} in
      if (nb_pkt =? 0) && negb send_report then Done idle
      else
        let ref_ok := if (nb_pkt >? 0) && gps_enabled then gps_ref_valid else false in
        let token_h := uint8 rand_h in
        let token_l := uint8 rand_l in
        let start := ("{" ++ quoted "rxpk" ++ ":[")%string in
        r <~ serialize_rxpks fc ref_ok time_reference_gps pkts 0 start m ;;
        let '(pkt_in_dgram, text, m) := r in
        if pkt_in_dgram =? 0 then
          if send_report then
            (* buff_index -= 8 *)
            let text := substring 0 (String.length text - 8) text in
            thread_up_send mac send_report status_report token_h token_l
                           acks buff_ack report_ready text m
          else
            Done {| up_sent := None; up_report_ready := report_ready;
                    up_buff_ack := buff_ack; up_meas := m |}
        else
          text <~ put_char "]" text ;;
          text <~ (if send_report then put_char "," text else Done text) ;;
          thread_up_send mac send_report status_report token_h token_l
                         acks buff_ack report_ready text m
  end.

End UpstreamLoop.

(* ====================================================================== *)
(** * [thread_down]: the keep-alive loop *)

(** A datagram that acknowledges the PULL_DATA sent with the given token. *)
Definition is_pull_ack_for (token_h token_l : Z) (dgram : list Z) : Prop :=
  (4 <= length dgram)%nat
  /\ byte_at dgram 0 = PROTOCOL_VERSION
  /\ byte_at dgram 3 = PKT_PULL_ACK
  /\ byte_at dgram 1 = token_h
  /\ byte_at dgram 2 = token_l.

(** Head of a pass of the outer loop: the auto-quit test, a fresh token and
    the PULL_DATA. No result when the thread sets [exit_sig] and leaves the
    loop. [rand_h] and [rand_l] are the two values of [rand()]. *)
Definition thread_down_pull {J : Type} (autoquit_threshold : Z) (mac : net_mac)
           (rand_h rand_l : Z) (st : down_state J) : option (down_state J * list Z) :=
  if (autoquit_threshold >? 0) && (autoquit_cnt st >=? autoquit_threshold) then None
  else
    let tok_h := uint8 rand_h in
    let tok_l := uint8 rand_l in
    Some ({| token_h := tok_h; token_l := tok_l; req_ack := false;
             autoquit_cnt := uint32 (autoquit_cnt st + 1);
             jit_queue := jit_queue st;
             down_meas := meas_add meas_dw_pull_sent 1 (down_meas st) |},
          dgram_header mac tok_h tok_l PKT_PULL_DATA).

(** The variables of [thread_down] that live across the passes of the
    inner loop. *)
Record down_loop (J : Type) : Type := {
  dl_state : down_state J;
  dl_beacon_pkt : lgw_pkt_tx_s;
  dl_last_beacon_gps_time : Z
}.
Arguments dl_state {J} _.
Arguments dl_beacon_pkt {J} _.
Arguments dl_last_beacon_gps_time {J} _.

(** What one pass of the inner loop reads: the outcome of [recv], the GPS
    state seen by the successive iterations of the beacon pre-allocation,
    and the GPS state and counter seen by the handling of the datagram. *)
Record down_input (D : Type) : Type := {
  in_recv : recv_result;
  in_beacon_envs : list (beacon_env D);
  in_env : down_env D
}.
Arguments in_recv {D} _.
Arguments in_beacon_envs {D} _.
Arguments in_env {D} _.

Section DownLoop.
Context {D : Type} {ops : DoubleOps D} {J : Type} {jq : JitQueue J}
        {hal : HalConsts} {gl : GpsLib D} {pl : ParseLib D}.
Variable bcfg : beacon_conf.
Variable layout : beacon_layout.
Variable cfg : down_conf.

(** One pass of the inner loop: [recv], the beacon pre-allocation on the
    queue of chain 0, then the handling of what [recv] returned. *)
Definition thread_down_inner (i : down_input D) (s : down_loop J)
  : run (down_loop J * list (list Z)) :=
  match jit_queue (dl_state s) with
  | [] => Undefined
  | q0 :: qs =>
      let bv := beacon_prealloc bcfg layout (in_beacon_envs i)
                  {| jit_queue0 := q0;
                     beacon_pkt := dl_beacon_pkt s;
                     beacon_loop := 0;
                     retry := 0;
                     last_beacon_gps_time := dl_last_beacon_gps_time s;
                     beacon_meas := down_meas (dl_state s) |} in
      let st1 := set_down_meas (beacon_meas bv)
                   (set_jit_queue (jit_queue0 bv :: qs) (dl_state s)) in
      r <~ thread_down_handle cfg (in_env i) (in_recv i) st1 ;;
      Done ({| dl_state := fst r;
               dl_beacon_pkt := beacon_pkt bv;
               dl_last_beacon_gps_time := last_beacon_gps_time bv |},
            snd r)
  end.

(** The inner loop: one input for each pass made before the keep-alive
    interval is over. *)
Fixpoint thread_down_listen (inputs : list (down_input D)) (s : down_loop J)
  : run (down_loop J * list (list Z)) :=
  match inputs with
  | [] => Done (s, [])
  | i :: inputs' =>
      r <~ thread_down_inner i s ;;
      r' <~ thread_down_listen inputs' (fst r) ;;
      Done (fst r', snd r ++ snd r')
  end.

(** The outer loop: for each pass the two values of [rand()] and the
    inputs of its inner loop. The result is the state, the datagrams sent
    on [sock_down] and whether the thread has set [exit_sig]. *)
Fixpoint thread_down_run (autoquit_threshold : Z)
         (passes : list (Z * Z * list (down_input D))) (s : down_loop J)
  : run (down_loop J * list (list Z) * bool) :=
  match passes with
  | [] => Done (s, [], false)
  | (rand_h, rand_l, inputs) :: passes' =>
      match thread_down_pull autoquit_threshold (gateway_mac cfg) rand_h rand_l
                             (dl_state s) with
      | None => Done (s, [], true)
      | Some (st, pull) =>
          r <~ thread_down_listen inputs
                 {| dl_state := st;
                    dl_beacon_pkt := dl_beacon_pkt s;
                    dl_last_beacon_gps_time := dl_last_beacon_gps_time s |} ;;
          r' <~ thread_down_run autoquit_threshold passes' (fst r) ;;
          Done (fst (fst r'), pull :: snd r ++ snd (fst r'), snd r')
      end
  end.

End DownLoop.

(** No datagram received in a pass acknowledges the PULL_DATA of that
    pass. *)
Definition pass_unacked {D : Type} (pass : Z * Z * list (down_input D)) : Prop :=
  let '(rand_h, rand_l, inputs) := pass in
  Forall (fun i => forall dgram, in_recv i = RecvData dgram ->
                                 ~ is_pull_ack_for (uint8 rand_h) (uint8 rand_l) dgram)
         inputs.

(* ====================================================================== *)
(** * [thread_gps]: the serial buffer *)

(** The values of [enum gps_msg] that the thread tells apart; any other
    message type is [GPS_MSG_OTHER]. *)
Inductive gps_msg : Type :=
| GPS_UNKNOWN
| GPS_INVALID
| GPS_INCOMPLETE
| NMEA_RMC
| UBX_NAV_TIMEGPS
| GPS_MSG_OTHER.

(** The parsers of [loragw_gps.c] and the constants of its header.
    [lgw_parse_ubx] is given the bytes from [rd_idx] to [wr_idx] and
    returns the message type and the frame size it writes; [lgw_parse_nmea]
    is given the frame. *)
Class GpsParser : Type := {
  LGW_GPS_MIN_MSG_SIZE : Z;
  LGW_GPS_UBX_SYNC_CHAR : Z;
  LGW_GPS_NMEA_SYNC_CHAR : Z;
  lgw_parse_ubx : list Z -> gps_msg * Z;
  lgw_parse_nmea : list Z -> gps_msg
}.

(** Calls that the scan makes for a decoded frame. *)
Inductive gps_call : Type :=
| GpsProcessSync
| GpsProcessCoords.

(** [sizeof serial_buff]. *)
Definition SERIAL_BUFF_SIZE : Z := 128.

(** [serial_buff] and [wr_idx]. *)
Record gps_buffer : Type := {
  serial_buff : list Z;
  wr_idx : Z
}.

(** [memchr(s, c, n)] on the bytes [s]: the offset of the first [c]. *)
Fixpoint memchr (s : list Z) (c : Z) : option Z :=
  match s with
  | [] => None
  | b :: s' => if b =? c then Some 0
               else match memchr s' c with
                    | Some k => Some (k + 1)
                    | None => None
                    end
  end.

(** [memcpy(buf + dst, buf + src, n)] inside one buffer: undefined when
    [n] is not a size (the subtraction that computes it wrapped), when a
    region leaves the buffer, or when the regions overlap. *)
Definition memcpy_within (dst src n : Z) (buf : list Z) : option (list Z) :=
  if (n <? 0) || (dst <? 0) || (src <? 0)
     || (dst + n >? Z.of_nat (length buf)) || (src + n >? Z.of_nat (length buf))
  then None
  else if (n >? 0) && (Z.abs (src - dst) <? n) then None
  else Some (write_bytes (Z.to_nat dst)
               (firstn (Z.to_nat n) (skipn (Z.to_nat src) buf)) buf).

Section GpsThread.
Context {gp : GpsParser}.

(** What the body of [while (rd_idx < wr_idx)] finds at [rd_idx]: the
    frame size (0 when no frame is removed) and the call made. *)
Definition gps_scan_at (buf : list Z) (wr rd : Z) : Z * list gps_call :=
  let avail := firstn (Z.to_nat (wr - rd)) (skipn (Z.to_nat rd) buf) in
  if nth (Z.to_nat rd) buf 0 =? LGW_GPS_UBX_SYNC_CHAR then
    let '(latest_msg, frame_size) := lgw_parse_ubx avail in
    if frame_size >? 0 then
      match latest_msg with
      | GPS_INCOMPLETE => (0, [])
      | GPS_INVALID => (0, [])
      | UBX_NAV_TIMEGPS => (frame_size, [GpsProcessSync])
      | _ => (frame_size, [])
      end
    else (frame_size, [])
  else if nth (Z.to_nat rd) buf 0 =? LGW_GPS_NMEA_SYNC_CHAR then
    match memchr avail 0x0a with
    | Some k =>
        let frame_size := k + 1 in
        match lgw_parse_nmea (firstn (Z.to_nat frame_size) avail) with
        | GPS_INVALID => (0, [])
        | GPS_UNKNOWN => (0, [])
        | NMEA_RMC => (frame_size, [GpsProcessCoords])
        | _ => (frame_size, [])
        end
    | None => (0, [])
    end
  else (0, []).

(** [while (rd_idx < wr_idx)]. Each pass moves [rd_idx] forward, so
    [wr_idx] passes are enough; [fuel] counts them down. The result is
    [frame_end_idx] and the calls made. *)
Fixpoint gps_scan (fuel : nat) (buf : list Z) (wr rd frame_end : Z)
  : Z * list gps_call :=
  match fuel with
  | O => (frame_end, [])
  | S fuel' =>
      if rd <? wr then
        let '(frame_size, calls) := gps_scan_at buf wr rd in
        let '(frame_end', calls') :=
          if frame_size >? 0
          then gps_scan fuel' buf wr (rd + frame_size) (rd + frame_size)
          else gps_scan fuel' buf wr (rd + 1) frame_end in
        (frame_end', calls ++ calls')
      else (frame_end, [])
  end.

(** One pass of the main loop. [chars] is what [read] stored at
    [serial_buff + wr_idx], nothing when it returned -1; [nb_char] is the
    number of these bytes. No result when the pass is undefined: a store or
    a copy outside [serial_buff], or a [memcpy] on overlapping regions. *)
Definition thread_gps_pass (chars : option (list Z)) (s : gps_buffer)
  : option (gps_buffer * list gps_call) :=
  let nb_char := match chars with
                 | Some cs => Z.of_nat (length cs)
                 | None => -1
                 end in
  if nb_char <=? 0 then Some (s, [])
  else if wr_idx s + nb_char >? SERIAL_BUFF_SIZE then None
  else
    let buf := write_bytes (Z.to_nat (wr_idx s))
                 (match chars with Some cs => cs | None => [] end)
                 (serial_buff s) in
    let wr := wr_idx s + nb_char in
    let '(frame_end_idx, calls) := gps_scan (Z.to_nat wr) buf wr 0 0 in
    r <- (if negb (frame_end_idx =? 0) then
            buf' <- memcpy_within 0 frame_end_idx (wr - frame_end_idx) buf ;;
            Some (buf', wr - frame_end_idx)
          else Some (buf, wr)) ;;
    let '(buf, wr) := r in
    (* prevent buffer overflow *)
    r <- (if SERIAL_BUFF_SIZE - wr <? LGW_GPS_MIN_MSG_SIZE then
            buf' <- memcpy_within 0 LGW_GPS_MIN_MSG_SIZE
                      (wr - LGW_GPS_MIN_MSG_SIZE) buf ;;
            Some (buf', wr - LGW_GPS_MIN_MSG_SIZE)
          else Some (buf, wr)) ;;
    let '(buf, wr) := r in
    Some ({| serial_buff := buf; wr_idx := wr |}, calls).

(** Successive passes, from the buffer cleared by [memset]. *)
Fixpoint thread_gps_run (reads : list (option (list Z))) (s : gps_buffer)
  : option (gps_buffer * list gps_call) :=
  match reads with
  | [] => Some (s, [])
  | chars :: reads' =>
      r <- thread_gps_pass chars s ;;
      r' <- thread_gps_run reads' (fst r) ;;
      Some (fst r', snd r ++ snd r')
  end.

Definition gps_buffer_init : gps_buffer :=
  {| serial_buff := repeat 0 (Z.to_nat SERIAL_BUFF_SIZE); wr_idx := 0 |}.

End GpsThread.

(* ====================================================================== *)
(** * [thread_spectral_scan] *)

(** The fields of [spectral_scan_params] that the thread reads. *)
Record spectral_scan_t : Type := {
  ss_freq_hz_start : Z;
  ss_nb_chan : Z;
  ss_nb_scan : Z;
  ss_pace_s : Z
}.

(** [lgw_spectral_scan_status_t]. *)
Inductive lgw_spectral_scan_status_t : Type :=
| LGW_SPECTRAL_SCAN_STATUS_NONE
| LGW_SPECTRAL_SCAN_STATUS_ON_GOING
| LGW_SPECTRAL_SCAN_STATUS_ABORTED
| LGW_SPECTRAL_SCAN_STATUS_COMPLETED
| LGW_SPECTRAL_SCAN_STATUS_UNKNOWN.

(** Locals of the thread that live across passes. *)
Record scan_state : Type := {
  scan_freq_hz : Z;
  scan_tx_status : Z
}.

(** What the HAL answers during one pass: for each RF chain the return
    value of [lgw_status] and the status it stored, if it stored one; the
    return value of [lgw_spectral_scan_start]; the status with which the
    wait for completion ends; the return value of
    [lgw_spectral_scan_get_results]. *)
Record scan_env : Type := {
  se_chain_status : list (Z * option Z);
  se_start_result : Z;
  se_final_status : lgw_spectral_scan_status_t;
  se_results_result : Z
}.

(** Calls into the HAL that act on the radio, in program order. *)
Inductive scan_call : Type :=
| LgwSpectralScanStart (freq_hz nb_scan : Z)
| LgwSpectralScanGetResults.

Section SpectralScan.
Context {D : Type} {ops : DoubleOps D} {hal : HalConsts}.

(** [(uint32_t)(freq_hz_start + nb_chan * 200E3)]. *)
Definition scan_freq_hz_stop (p : spectral_scan_t) : option Z :=
  double_to_uint32 (d_add (d_of_Z (ss_freq_hz_start p))
                          (d_mul (d_of_Z (ss_nb_chan p)) (d_of_Z 200000))).

(** "Check if there is a downlink programmed": the value of [tx_status]
    after the loop over the chains. *)
Fixpoint scan_check_chains (enable : list bool) (answers : list (Z * option Z))
         (tx_status : Z) : Z :=
  match enable, answers with
  | en :: enable', (x, stored) :: answers' =>
      if en then
        let tx_status := match stored with
                         | Some st => st
                         | None => tx_status
                         end in
        if negb (x =? LGW_HAL_SUCCESS) then scan_check_chains enable' answers' tx_status
        else if (tx_status =? TX_SCHEDULED) || (tx_status =? TX_EMITTING)
        then tx_status
        else scan_check_chains enable' answers' tx_status
      else scan_check_chains enable' answers' tx_status
  | _, _ => tx_status
  end.

(** One pass of the main loop after the pacing wait. [stop] is
    [freq_hz_stop]. *)
Definition spectral_scan_pass (enable : list bool) (p : spectral_scan_t) (stop : Z)
           (e : scan_env) (s : scan_state) : scan_state * list scan_call :=
  let tx_status := scan_check_chains enable (se_chain_status e) (scan_tx_status s) in
  let same := {| scan_freq_hz := scan_freq_hz s; scan_tx_status := tx_status |} in
  if negb (tx_status =? TX_SCHEDULED) && negb (tx_status =? TX_EMITTING) then
    let start := [LgwSpectralScanStart (scan_freq_hz s) (ss_nb_scan p)] in
    if negb (se_start_result e =? 0) then (same, start)
    else
      match se_final_status e with
      | LGW_SPECTRAL_SCAN_STATUS_COMPLETED =>
          if negb (se_results_result e =? 0)
          then (same, start ++ [LgwSpectralScanGetResults])
          else
            let freq_hz := uint32 (scan_freq_hz s + 200000) in
            let freq_hz := if freq_hz >=? stop then ss_freq_hz_start p else freq_hz in
            ({| scan_freq_hz := freq_hz; scan_tx_status := tx_status |},
             start ++ [LgwSpectralScanGetResults])
      | _ => (same, start)
      end
  else (same, []).

(** Successive passes. *)
Fixpoint spectral_scan_run (enable : list bool) (p : spectral_scan_t) (stop : Z)
         (es : list scan_env) (s : scan_state) : scan_state * list scan_call :=
  match es with
  | [] => (s, [])
  | e :: es' =>
      let '(s1, calls) := spectral_scan_pass enable p stop e s in
      let '(s2, calls') := spectral_scan_run enable p stop es' s1 in
      (s2, calls ++ calls')
  end.

End SpectralScan.

(** A scan status that says a downlink is programmed. *)
Definition tx_busy {hal : HalConsts} (st : Z) : Prop :=
  st = TX_SCHEDULED \/ st = TX_EMITTING.

(* ====================================================================== *)
(** * [thread_jit]: whole passes, and the statistics pass of [main] *)

Section JitLoop.
Context {D : Type} {ops : DoubleOps D} {J : Type} {jq : JitQueue J} {hal : HalConsts}.

(** [for (i = 0; i < LGW_RF_CHAIN_NB; i++)]: the queues of the chains in
    turn, each with the value of [xtal_correct] and the answers of the HAL
    at that moment. *)
Fixpoint thread_jit_pass (scan : bool) (es : list (D * jit_env)) (qs : list J)
         (m : meas_dw) : option (list J * meas_dw * list radio_call) :=
  match qs, es with
  | q :: qs', (xtal, e) :: es' =>
      r <- thread_jit_chain xtal scan e q m ;;
      let '(q', m', calls) := r in
      r' <- thread_jit_pass scan es' qs' m' ;;
      let '(qs'', m'', calls') := r' in
      Some (q' :: qs'', m'', calls ++ calls')
  | _, _ => Some (qs, m, [])
  end.

(** Successive passes of [while (!exit_sig && !quit_sig)]. *)
Fixpoint thread_jit_run (scan : bool) (passes : list (list (D * jit_env)))
         (qs : list J) (m : meas_dw) : option (list J * meas_dw * list radio_call) :=
  match passes with
  | [] => Some (qs, m, [])
  | es :: passes' =>
      r <- thread_jit_pass scan es qs m ;;
      let '(qs', m', calls) := r in
      r' <- thread_jit_run scan passes' qs' m' ;;
      let '(qs'', m'', calls') := r' in
      Some (qs'', m'', calls ++ calls')
  end.

End JitLoop.

(** The packets handed to [lgw_send] among the calls made. *)
Definition is_lgw_send (c : radio_call) : bool :=
  match c with
  | LgwSend _ => true
  | LgwSpectralScanAbort => false
  end.

(** The downstream counters whose copy [main] accumulates over the
    reports ([cp_x += meas_x]); the others are copied ([cp_x = meas_x]). *)
Definition dw_accumulated (v : meas_dw_var) : bool :=
  match v with
  | meas_nb_tx_requested
  | meas_nb_tx_rejected_collision_packet
  | meas_nb_tx_rejected_collision_beacon
  | meas_nb_tx_rejected_too_late
  | meas_nb_tx_rejected_too_early
  | meas_nb_beacon_queued
  | meas_nb_beacon_sent
  | meas_nb_beacon_rejected => true
  | _ => false
  end.

(** The copies [cp_*] of [main], named after the counter they copy, and
    the counters. *)
Record stats : Type := {
  cp_up : meas_up;
  cp_dw : meas_dw;
  st_meas_up : meas_up;
  st_meas_dw : meas_dw
}.

(** "access upstream statistics, copy and reset them" and the same for
    the downstream ones. *)
Definition stats_collect (s : stats) : stats :=
  {| cp_up := st_meas_up s;
     cp_dw := fun v => if dw_accumulated v
                       then uint32 (cp_dw s v + st_meas_dw s v)
                       else st_meas_dw s v;
     st_meas_up := meas_zero;
     st_meas_dw := meas_zero |}.

(** "RF packets sent to concentrator: %u": [cp_nb_tx_ok + cp_nb_tx_fail]
    in unsigned arithmetic. *)
Definition report_rf_packets_sent (s : stats) : Z :=
  uint32 (cp_dw s meas_nb_tx_ok + cp_dw s meas_nb_tx_fail).

(* ====================================================================== *)
(** * Further inputs to run the loops on *)

(** The MAC words of the downstream example, a packet received with a bad
    CRC, and a (shortened) status report. *)
Definition ex_down_mac : net_mac := gateway_mac ex_down_conf.

Definition ex_rx_bad_crc : lgw_pkt_rx_s float :=
  {| rx_freq_hz := 868100000; rx_if_chain := 0; rx_rf_chain := 1; rx_modem_id := 3;
     rx_status := 0x11; rx_count_us := 7000000; rx_modulation := 0x10;
     rx_bandwidth := 0x04; rx_datarate := 7; rx_coderate := 1;
     rx_rssic := (-97)%float; rx_rssis := (-98)%float; rx_snr := 9%float;
     rx_freq_offset := -120; rx_size := 4; rx_payload := [0x40; 1; 2; 3];
     rx_ftime_received := false; rx_ftime := 0 |}.

Definition ex_status_report : string :=
  (quoted "stat" ++ ":{" ++ quoted "rxnb" ++ ":1," ++ quoted "rxok" ++ ":0}")%string.

(** Inputs of the inner loop of [thread_down] with the GPS reference not
    valid: a [recv] that times out, and one that returns the PULL_ACK for
    the token 0x11 0x22; and the loop variables at start-up. *)
Definition ex_down_timeout : down_input float :=
  {| in_recv := RecvError true; in_beacon_envs := []; in_env := ex_down_env |}.

Definition ex_down_pull_ack : down_input float :=
  {| in_recv := RecvData [2; 0x11; 0x22; 4]; in_beacon_envs := [];
     in_env := ex_down_env |}.

Definition ex_down_loop : down_loop (list (lgw_pkt_tx_s * jit_pkt_type_e)) :=
  {| dl_state := ex_down_state; dl_beacon_pkt := ex_beacon_pkt;
     dl_last_beacon_gps_time := 0 |}.

(** The copies and counters of [main] before the first report. *)
Definition ex_stats : stats :=
  {| cp_up := meas_zero; cp_dw := meas_zero;
     st_meas_up := meas_zero; st_meas_dw := meas_zero |}.

(** A spectral scan of five channels from 867.1 MHz, and a pass in which
    the radio is free and the scan completes. *)
Definition ex_scan_params : spectral_scan_t :=
  {| ss_freq_hz_start := 867100000; ss_nb_chan := 5; ss_nb_scan := 2000;
     ss_pace_s := 10 |}.

Definition ex_scan_env : scan_env :=
  {| se_chain_status := [(0, Some 2); (0, Some 2)]; se_start_result := 0;
     se_final_status := LGW_SPECTRAL_SCAN_STATUS_COMPLETED;
     se_results_result := 0 |}.

(** Parsers that find no frame, with the constants of the SX1302 HAL: a
    minimum message of 8 bytes, the UBX sync character 0xB5 and the NMEA
    one, a dollar sign. *)
Definition ex_gps_parser : GpsParser :=
  {| LGW_GPS_MIN_MSG_SIZE := 8;
     LGW_GPS_UBX_SYNC_CHAR := 0xB5;
     LGW_GPS_NMEA_SYNC_CHAR := 0x24;
     lgw_parse_ubx := fun _ => (GPS_INCOMPLETE, 0);
     lgw_parse_nmea := fun _ => GPS_UNKNOWN |}.

(* ====================================================================== *)
(** * Properties *)

Section Counters.
Context {V : Type} `{VarEq V}.

Lemma meas_add_same (v : V) n m : meas_add v n m v = uint32 (m v + n).
Proof. unfold meas_add. destruct (var_eq_dec v v); congruence. Qed.

Lemma meas_add_other (v v' : V) n m : v <> v' -> meas_add v n m v' = m v'.
Proof. unfold meas_add. destruct (var_eq_dec v v'); congruence. Qed.

End Counters.

(** C10. A rejection with [JIT_ERROR_FULL] is acknowledged exactly like a
    packet collision: the TX_ACK echoes the token and carries the error
    string COLLISION_PACKET, the same datagram as for
    [JIT_ERROR_COLLISION_PACKET], and the only counter that moves is
    [meas_nb_tx_rejected_collision_packet], by one. *)
Theorem send_tx_ack_full_is_collision_packet :
  forall mac token_h token_l error_value m,
    let r := send_tx_ack mac token_h token_l JIT_ERROR_FULL error_value m in
    fst r = tx_ack_prefix (net_mac_h mac) (net_mac_l mac) token_h token_l
              ++ bytes_of_string ("{" ++ quoted "txpk_ack" ++ ":{" ++ quoted "error" ++ ":"
                                      ++ quoted "COLLISION_PACKET" ++ "}}")
    /\ r = send_tx_ack mac token_h token_l JIT_ERROR_COLLISION_PACKET error_value m
    /\ snd r meas_nb_tx_rejected_collision_packet
       = uint32 (m meas_nb_tx_rejected_collision_packet + 1)
    /\ (forall v, v <> meas_nb_tx_rejected_collision_packet -> snd r v = m v).
Proof.
  intros. subst r. unfold send_tx_ack, tx_ack_json, tx_ack_type. cbn [fst snd].
  split; [reflexivity | split; [reflexivity | split]].
  - apply meas_add_same.
  - intros v Hv. apply meas_add_other. congruence.
Qed.

Lemma string_length_append (a b : string) :
  String.length (a ++ b) = (String.length a + String.length b)%nat.
Proof. induction a as [|c a IH]; cbn; [reflexivity | now rewrite IH]. Qed.

Lemma bytes_of_string_length (s : string) :
  length (bytes_of_string s) = String.length s.
Proof.
  unfold bytes_of_string. rewrite length_map.
  induction s as [|c s IH]; cbn; [reflexivity | now rewrite IH].
Qed.

Lemma fmt_d_int8_length v : - 128 <= v <= 127 -> (String.length (fmt_d v) <= 4)%nat.
Proof.
  intros Hv.
  assert (Hall : forallb (fun k => (String.length (fmt_d (- 128 + Z.of_nat k)) <=? 4)%nat)
                         (seq 0 256) = true) by (vm_compute; reflexivity).
  rewrite forallb_forall in Hall.
  specialize (Hall (Z.to_nat (v + 128))).
  replace (- 128 + Z.of_nat (Z.to_nat (v + 128))) with v in Hall by lia.
  apply Nat.leb_le. apply Hall. apply in_seq. lia.
Qed.

(** The acknowledgement fits the 64-byte buffer of the source, terminator
    included, for every error and every value a power can take, so writing
    it as a list loses nothing. *)
Lemma send_tx_ack_fits_buffer mac token_h token_l error error_value m :
  - 128 <= error_value <= 127 ->
  Z.of_nat (length (fst (send_tx_ack mac token_h token_l error error_value m)))
  < ACK_BUFF_SIZE.
Proof.
  intros Hv. unfold send_tx_ack, ACK_BUFF_SIZE.
  destruct error; cbn [tx_ack_json tx_ack_type tx_ack_key tx_ack_value fst];
    rewrite length_app, bytes_of_string_length; cbn [tx_ack_prefix store_uint32 length app];
    try (cbn; lia).
  unfold quoted, dquote. cbn [String.append String.length].
  rewrite string_length_append. cbn [String.length].
  pose proof (fmt_d_int8_length error_value Hv). lia.
Qed.

Example fmt_d_examples :
  fmt_d 10 = "10"%string /\ fmt_d 0 = "0"%string /\ fmt_d (- 128) = "-128"%string.
Proof. repeat split. Qed.

(* ---------------------------------------------------------------------- *)
(** ** Upstream acknowledgements *)

Lemma recv_into_count size dgram buf :
  fst (recv_into size dgram buf) = Z.of_nat (Nat.min size (length dgram)).
Proof. unfold recv_into. cbn [fst]. now rewrite length_firstn. Qed.

Lemma recv_into_byte size dgram buf i :
  (i < size)%nat -> (i < length dgram)%nat ->
  byte_at (snd (recv_into size dgram buf)) i = byte_at dgram i.
Proof.
  intros Hs Hd. unfold recv_into, byte_at. cbn [snd].
  rewrite app_nth1 by (rewrite length_firstn; lia).
  revert i size Hs Hd. induction dgram as [|x d IH]; intros i size Hs Hd.
  - simpl in Hd. lia.
  - destruct size as [|size]; [lia|]. destruct i as [|i]; [reflexivity|].
    simpl. apply IH; simpl in Hd; lia.
Qed.

Lemma push_ack_body_spec token_h token_l r buff_ack m :
  let m' := snd (push_ack_body token_h token_l r buff_ack m) in
  (exists dgram, r = RecvData dgram /\ is_push_ack_for token_h token_l dgram
                 /\ m' = meas_add meas_up_ack_rcv 1 m
                 /\ fst (fst (push_ack_body token_h token_l r buff_ack m)) = LoopBreak)
  \/ ((forall dgram, r = RecvData dgram -> ~ is_push_ack_for token_h token_l dgram)
      /\ m' = m).
Proof.
  destruct r as [[|]|dgram]; cbn -[recv_into].
  - right. split; [intros d Hd; discriminate | reflexivity].
  - right. split; [intros d Hd; discriminate | reflexivity].
  - pose proof (recv_into_count 32 dgram buff_ack) as Hj.
    pose proof (recv_into_byte 32 dgram buff_ack) as Hb.
    destruct (recv_into 32 dgram buff_ack) as [j buf'] eqn:E. cbn [fst snd] in *.
    destruct (j <? 4) eqn:Hlen; cbn [orb].
    { right. split; [|reflexivity]. intros d Hd [Hl _]. inversion Hd; subst d.
      apply Z.ltb_lt in Hlen. lia. }
    apply Z.ltb_ge in Hlen.
    assert (Hl : (4 <= length dgram)%nat) by lia.
    rewrite !Hb by lia.
    destruct (byte_at dgram 0 =? PROTOCOL_VERSION) eqn:H0; cbn [negb orb].
    2:{ right. split; [|reflexivity]. intros d Hd (_ & Hv & _). inversion Hd; subst d.
        apply Z.eqb_neq in H0. contradiction. }
    destruct (byte_at dgram 3 =? PKT_PUSH_ACK) eqn:H3; cbn [negb orb].
    2:{ right. split; [|reflexivity]. intros d Hd (_ & _ & Hv & _). inversion Hd; subst d.
        apply Z.eqb_neq in H3. contradiction. }
    destruct (byte_at dgram 1 =? token_h) eqn:H1; cbn [negb orb].
    2:{ right. split; [|reflexivity]. intros d Hd (_ & _ & _ & Hv & _). inversion Hd; subst d.
        apply Z.eqb_neq in H1. contradiction. }
    destruct (byte_at dgram 2 =? token_l) eqn:H2; cbn [negb orb].
    2:{ right. split; [|reflexivity]. intros d Hd (_ & _ & _ & _ & Hv). inversion Hd; subst d.
        apply Z.eqb_neq in H2. contradiction. }
    left. exists dgram. apply Z.eqb_eq in H0, H1, H2, H3.
    repeat split; assumption.
Qed.

(** C5. During the PUSH_ACK wait, a received datagram bumps
    [meas_up_ack_rcv] exactly when it is at least 4 bytes long, of protocol
    version 2, of type PUSH_ACK and carries the token of the PUSH_DATA just
    sent; a datagram failing any check, a timeout and a socket error leave
    every upstream counter as it was. Over the whole wait the counter moves
    by at most one, and only if one of the datagrams received passed the
    checks. *)
Theorem push_ack_counted_only_for_matching_token :
  forall token_h token_l,
    (forall r buff_ack m,
        let m' := snd (push_ack_body token_h token_l r buff_ack m) in
        (forall dgram, r = RecvData dgram ->
                       is_push_ack_for token_h token_l dgram ->
                       m' meas_up_ack_rcv = uint32 (m meas_up_ack_rcv + 1)
                       /\ forall v, v <> meas_up_ack_rcv -> m' v = m v)
        /\ ((forall dgram, r = RecvData dgram ->
                           ~ is_push_ack_for token_h token_l dgram) ->
            m' = m))
    /\ (forall rs buff_ack m,
           let m' := snd (push_ack_wait 2 token_h token_l rs buff_ack m) in
           m' = m
           \/ (m' = meas_add meas_up_ack_rcv 1 m
               /\ exists dgram, In (RecvData dgram) (firstn 2 rs)
                                /\ is_push_ack_for token_h token_l dgram)).
Proof.
  intros token_h token_l. split.
  - intros r buff_ack m m'.
    destruct (push_ack_body_spec token_h token_l r buff_ack m)
      as [(d & Hr & Hv & Hm & _) | (Hn & Hm)]; fold m' in Hm.
    + split.
      * intros d' Hr' _. rewrite Hm. split.
        -- apply meas_add_same.
        -- intros v Hv'. apply meas_add_other. congruence.
      * intros Hno. exfalso. exact (Hno d Hr Hv).
    + split.
      * intros d Hr Hv. exfalso. exact (Hn d Hr Hv).
      * intros _. exact Hm.
  - intros rs buff_ack m.
    destruct rs as [|r1 rs]; [left; reflexivity|].
    cbn [push_ack_wait firstn].
    pose proof (push_ack_body_spec token_h token_l r1 buff_ack m) as H1.
    destruct (push_ack_body token_h token_l r1 buff_ack m) as [[c1 b1] m1].
    cbn [fst snd] in H1.
    destruct H1 as [(d & Hr & Hv & Hm & Hc) | (Hn & Hm)]; subst.
    + cbn [snd]. right. split; [reflexivity|]. exists d. split; [left; reflexivity | exact Hv].
    + destruct c1; [|left; reflexivity].
      destruct rs as [|r2 rs]; [left; reflexivity|].
      pose proof (push_ack_body_spec token_h token_l r2 b1 m) as H2.
      destruct (push_ack_body token_h token_l r2 b1 m) as [[c2 b2] m2].
      cbn [fst snd] in H2.
      cbn zeta.
      replace (snd _) with m2 by (destruct c2; reflexivity).
      destruct H2 as [(d & Hr & Hv & Hm & Hc) | (Hn2 & Hm)]; subst.
      * right. split; [reflexivity|]. exists d.
        split; [right; left; reflexivity | exact Hv].
      * left. reflexivity.
Qed.

(** The theorem on two datagrams: a PUSH_ACK with a foreign token, then the
    one with the token sent (0x12 0x34). *)
Lemma push_ack_counted_only_for_matching_token_witness :
  snd (push_ack_wait 2 0x12 0x34
         [RecvData [2; 0x12; 0x35; 1]; RecvData [2; 0x12; 0x34; 1]]
         (repeat 0 32) meas_zero) meas_up_ack_rcv = 1
  /\ snd (push_ack_body 0x12 0x34 (RecvData [2; 0x12; 0x35; 1]) (repeat 0 32) meas_zero)
     = meas_zero.
Proof.
  destruct (push_ack_counted_only_for_matching_token 0x12 0x34) as [Hbody _].
  split; [reflexivity|].
  destruct (Hbody (RecvData [2; 0x12; 0x35; 1]) (repeat 0 32) meas_zero) as [_ Hno].
  apply Hno. intros dgram Hd (_ & _ & _ & _ & Htok). inversion Hd; subst dgram.
  cbn in Htok. discriminate.
Defined.

(* ---------------------------------------------------------------------- *)
(** ** Conversions from [double] to integers *)

Lemma Zrem_neg_bound n d : n <= 0 -> 0 < d -> - d < Z.rem n d <= 0.
Proof.
  intros Hn Hd. rewrite <- (Z.opp_involutive n), Z.rem_opp_l by lia.
  pose proof (Z.rem_bound_pos (- n) d ltac:(lia) Hd). lia.
Qed.

Lemma Zquot_nonpos n d : n <= 0 -> 0 < d -> Z.quot n d <= 0.
Proof.
  intros Hn Hd. rewrite <- (Z.opp_involutive n), Z.quot_opp_l by lia.
  pose proof (Z.quot_pos (- n) d ltac:(lia) Hd). lia.
Qed.

Lemma Zquot_bounds n d a b :
  0 < d -> a <= 0 <= b -> a * d <= n <= b * d -> a <= Z.quot n d <= b.
Proof.
  intros Hd Hab Hn.
  pose proof (Z.quot_rem' n d) as Hqr.
  destruct (Z_le_gt_dec 0 n) as [Hpos|Hneg].
  - pose proof (Z.rem_bound_pos n d Hpos Hd) as Hr.
    pose proof (Z.quot_pos n d Hpos Hd) as Hq. nia.
  - assert (Hn0 : n <= 0) by lia.
    pose proof (Zrem_neg_bound n d Hn0 Hd) as Hr.
    pose proof (Zquot_nonpos n d Hn0 Hd) as Hq.
    nia.
Qed.

(** Truncation drops less than one unit, toward zero. *)
Lemma Qtrunc_spec q :
  let t := Qtrunc q in
  (0 <= Qnum q -> 0 <= t /\ (inject_Z t <= q)%Q /\ (q < inject_Z (t + 1))%Q)
  /\ (Qnum q <= 0 -> t <= 0 /\ (q <= inject_Z t)%Q /\ (inject_Z (t - 1) < q)%Q).
Proof.
  destruct q as [n d]. unfold Qtrunc, Qle, Qlt, inject_Z. cbn [Qnum Qden].
  pose proof (Z.quot_rem' n (Z.pos d)) as Hqr.
  assert (Hd : 0 < Z.pos d) by lia.
  split; intros Hn.
  - pose proof (Z.rem_bound_pos n (Z.pos d) Hn Hd) as Hr.
    pose proof (Z.quot_pos n (Z.pos d) Hn Hd) as Hq.
    repeat split; nia.
  - pose proof (Zrem_neg_bound n (Z.pos d) Hn Hd) as Hr.
    pose proof (Zquot_nonpos n (Z.pos d) Hn Hd) as Hq.
    repeat split; nia.
Qed.

Lemma Qtrunc_bounds q a b :
  a <= 0 <= b -> (inject_Z a <= q)%Q -> (q <= inject_Z b)%Q -> a <= Qtrunc q <= b.
Proof.
  destruct q as [n d]. unfold Qtrunc, Qle, inject_Z. cbn [Qnum Qden].
  intros Hab Ha Hb. apply Zquot_bounds; lia.
Qed.

Lemma double_to_int_range {D : Type} `{DoubleOps D} lo hi (x : D) z :
  double_to_int lo hi x = Some z -> lo <= z <= hi.
Proof.
  unfold double_to_int. destruct (d_value x) as [q|]; [|discriminate].
  destruct ((lo <=? Qtrunc q) && (Qtrunc q <=? hi)) eqn:E; [|discriminate].
  intros Hz. inversion Hz; subst z.
  apply andb_prop in E. destruct E as [E1 E2].
  apply Z.leb_le in E1, E2. lia.
Qed.

Lemma double_to_int_value {D : Type} `{DoubleOps D} lo hi (x : D) z :
  double_to_int lo hi x = Some z ->
  exists q, d_value x = Some q /\ z = Qtrunc q.
Proof.
  unfold double_to_int. destruct (d_value x) as [q|]; [|discriminate].
  destruct ((lo <=? Qtrunc q) && (Qtrunc q <=? hi)); [|discriminate].
  intros Hz. inversion Hz. exists q. split; reflexivity.
Qed.

(* ---------------------------------------------------------------------- *)
(** ** XTAL tracker *)

Section ValidThread.
Context {D : Type} `{DoubleOps D}.

Lemma age_ok_test age : age_ok age -> (0 <=? age) && (age <=? GPS_REF_MAX_AGE) = true.
Proof.
  intros [H0 H1]. apply andb_true_intro. split; apply Z.leb_le; assumption.
Qed.

Lemma age_bad_test age : ~ age_ok age -> (0 <=? age) && (age <=? GPS_REF_MAX_AGE) = false.
Proof.
  intros Hn. apply not_true_is_false. intros Ht.
  apply andb_prop in Ht. destruct Ht as [H0 H1].
  apply Z.leb_le in H0, H1. apply Hn. split; assumption.
Qed.

(** While fewer than [XERR_INIT_AVG] samples are in, valid iterations only
    add to the accumulator. *)
Lemma thread_valid_accumulates (ticks : list (Z * D)) :
  forall s,
    Forall (fun t => age_ok (fst t)) ticks ->
    0 <= init_cpt s ->
    init_cpt s + Z.of_nat (length ticks) <= XERR_INIT_AVG ->
    let s' := thread_valid_run ticks s in
    init_cpt s' = init_cpt s + Z.of_nat (length ticks)
    /\ init_acc s' = fold_left d_add (map snd ticks) (init_acc s)
    /\ xtal_correct s' = xtal_correct s
    /\ xtal_correct_ok s' = xtal_correct_ok s.
Proof.
  unfold thread_valid_run, XERR_INIT_AVG.
  induction ticks as [|[age err] ticks IH]; intros s Hok Hc Hlen.
  - cbn. repeat split; lia.
  - inversion Hok as [|? ? Hage Hrest]; subst. cbn [fst] in Hage.
    cbn [fold_left map length fst snd] in *.
    set (s1 := thread_valid_step age err s).
    assert (Hs1 : init_cpt s1 = init_cpt s + 1
                  /\ init_acc s1 = d_add (init_acc s) err
                  /\ xtal_correct s1 = xtal_correct s
                  /\ xtal_correct_ok s1 = xtal_correct_ok s).
    { subst s1. unfold thread_valid_step. rewrite (age_ok_test _ Hage).
      unfold XERR_INIT_AVG.
      destruct (init_cpt s <? 16) eqn:Hlt; [|apply Z.ltb_ge in Hlt; lia].
      cbn. repeat split. unfold uint32, wrap_unsigned.
      apply Z.mod_small. lia. }
    destruct Hs1 as (Hc1 & Ha1 & Hx1 & Ho1).
    destruct (IH s1 Hrest) as (Hc' & Ha' & Hx' & Ho'); [lia | lia |].
    rewrite Hc', Ha', Hx', Ho', Hc1, Ha1, Hx1, Ho1.
    repeat split. lia.
Qed.

End ValidThread.

(** C7. The XTAL tracker, for either arithmetic. An iteration that finds
    the reference age negative or above 30 s resets [xtal_correct] to 1.0,
    marks it invalid and clears the count and the accumulator. From a
    cleared state, 16 iterations with a usable reference add their samples
    to the accumulator and leave the correction alone; the next such
    iteration sets [xtal_correct] to 16 divided by that sum and marks it
    valid. Every later iteration with a usable reference replaces
    [xtal_correct] by [xtal_correct - xtal_correct/256 + (1/xtal_err)/256],
    which in exact arithmetic is
    [xtal_correct * (1 - 1/256) + (1/xtal_err) * (1/256)]. *)
Theorem xtal_tracker_average_then_filter :
  forall (D : Type) (ops : DoubleOps D),
    (forall age err (s : valid_state D),
        ~ age_ok age ->
        thread_valid_step age err s
        = {| gps_ref_valid := false; xtal_correct_ok := false;
             xtal_correct := d_of_Z 1; init_cpt := 0; init_acc := d_of_Z 0 |})
    /\ (forall (ticks : list (Z * D)) age err (s : valid_state D),
           init_cpt s = 0 -> init_acc s = d_of_Z 0 ->
           length ticks = 16%nat ->
           Forall (fun t => age_ok (fst t)) ticks ->
           age_ok age ->
           let sum := fold_left d_add (map snd ticks) (d_of_Z 0) in
           let s16 := thread_valid_run ticks s in
           let s17 := thread_valid_step age err s16 in
           xtal_correct s16 = xtal_correct s
           /\ xtal_correct_ok s16 = xtal_correct_ok s
           /\ init_acc s16 = sum
           /\ xtal_correct s17 = d_div (d_of_Z 16) sum
           /\ xtal_correct_ok s17 = true
           /\ gps_ref_valid s17 = true
           /\ init_cpt s17 = 17)
    /\ (forall age err (s : valid_state D),
           age_ok age -> XERR_INIT_AVG < init_cpt s ->
           thread_valid_step age err s
           = {| gps_ref_valid := true; xtal_correct_ok := xtal_correct_ok s;
                xtal_correct :=
                  d_add (d_sub (xtal_correct s) (d_div (xtal_correct s) (d_of_Z 256)))
                        (d_div (d_div (d_of_Z 1) err) (d_of_Z 256));
                init_cpt := init_cpt s; init_acc := init_acc s |})
    /\ (forall xc err : Q,
           (xtal_filter xc err == xc * (1 - 1 / 256) + (1 / err) * (1 / 256))%Q).
Proof.
  intros D ops. split; [|split; [|split]].
  - intros age err s Hbad. unfold thread_valid_step.
    rewrite (age_bad_test _ Hbad). reflexivity.
  - intros ticks age err s Hc Ha Hlen Hok Hage sum s16 s17.
    destruct (thread_valid_accumulates ticks s Hok) as (Hc16 & Ha16 & Hx16 & Ho16).
    + lia.
    + rewrite Hc, Hlen. unfold XERR_INIT_AVG. lia.
    + fold s16 in Hc16, Ha16, Hx16, Ho16.
      rewrite Hc, Hlen in Hc16. rewrite Ha in Ha16. fold sum in Ha16.
      split; [exact Hx16|]. split; [exact Ho16|]. split; [exact Ha16|].
      subst s17. unfold thread_valid_step. rewrite (age_ok_test _ Hage).
      rewrite Hc16, Ha16. cbn. repeat split.
  - intros age err s Hage Hcpt. unfold thread_valid_step.
    rewrite (age_ok_test _ Hage).
    destruct (init_cpt s <? XERR_INIT_AVG) eqn:Hlt; [apply Z.ltb_lt in Hlt; lia|].
    destruct (init_cpt s =? XERR_INIT_AVG) eqn:Heq; [apply Z.eqb_eq in Heq; lia|].
    reflexivity.
  - intros xc err. unfold xtal_filter. cbn [d_add d_sub d_div d_of_Z Q_ops].
    unfold XERR_FILT_COEF, Qdiv.
    change (inject_Z 256) with 256%Q. change (inject_Z 1) with 1%Q. ring.
Qed.

(** The theorem on binary64: a stale reference resets the tracker, and a
    tracking iteration applies the filter. *)
Lemma xtal_tracker_average_then_filter_witness :
  xtal_correct (thread_valid_step 31 0x1.000008p+0%float
                  {| gps_ref_valid := true; xtal_correct_ok := true;
                     xtal_correct := 0x1.fffffp-1%float; init_cpt := 17;
                     init_acc := 16%float |}) = 1%float
  /\ xtal_correct (thread_valid_step 5 0x1.000008p+0%float
                     {| gps_ref_valid := true; xtal_correct_ok := true;
                        xtal_correct := 0x1.fffffp-1%float; init_cpt := 17;
                        init_acc := 16%float |})
     = (0x1.fffffp-1 - 0x1.fffffp-1 / 256 + 1 / 0x1.000008p+0 / 256)%float.
Proof.
  destruct (xtal_tracker_average_then_filter float float_ops)
    as (Hreset & _ & Htrack & _).
  split.
  - rewrite Hreset; [reflexivity | unfold age_ok, GPS_REF_MAX_AGE; lia].
  - rewrite Htrack; [reflexivity | unfold age_ok, GPS_REF_MAX_AGE; lia
                    | unfold XERR_INIT_AVG; cbn; lia].
Defined.

(** The binary64 instance on a run: 16 samples, the averaging iteration,
    one tracking iteration, then a stale reference. *)
Example xtal_tracker_run_binary64 :
  let samples := repeat (0, 0x1.000008p+0%float) 16 in
  let s17 := thread_valid_step 1 1.5%float (thread_valid_run samples valid_init) in
  let s18 := thread_valid_step 2 0x1.000008p+0%float s17 in
  let s19 := thread_valid_step 31 0x1.000008p+0%float s18 in
  xtal_correct_ok (thread_valid_run samples valid_init) = false
  /\ xtal_correct_ok s17 = true
  /\ xtal_correct s17
     = (16 / (fold_left PrimFloat.add (repeat 0x1.000008p+0 16) 0))%float
  /\ double_to_int32 (d_mul (xtal_correct s18) (d_of_Z 1000000000))
     = Some 999999523
  /\ xtal_correct_ok s19 = false
  /\ xtal_correct s19 = 1%float
  /\ init_cpt s19 = 0.
Proof. vm_compute. repeat split. Qed.

(* ---------------------------------------------------------------------- *)
(** ** Beacon coordinates *)

Lemma beacon_coord_field_range {D : Type} `{DoubleOps D} (x : D) fs v :
  beacon_coord_field x fs = Some v -> - 8388608 <= v <= 8388607.
Proof.
  unfold beacon_coord_field, bind.
  destruct (double_to_int32 _) as [t|]; [|discriminate].
  change (int32 0x007FFFFF) with 8388607. change (int32 0xFF800000) with (- 8388608).
  destruct (t >? 8388607) eqn:Hhi.
  - intros Hv. inversion Hv. lia.
  - destruct (t <? - 8388608) eqn:Hlo; intros Hv; inversion Hv; subst.
    + lia.
    + apply Z.ltb_ge in Hlo.
      pose proof (Zgt_cases v 8388607) as Hc. rewrite Hhi in Hc. lia.
Qed.

(** The two saturation tests clamp the converted value. *)
Lemma beacon_coord_field_clamp {D : Type} `{DoubleOps D} (x : D) fs v :
  beacon_coord_field x fs = Some v ->
  exists t,
    double_to_int32 (d_mul (d_div x (d_of_Z fs)) (d_of_Z (2 ^ 23))) = Some t
    /\ v = Z.max (int32 0xFF800000) (Z.min (int32 0x007FFFFF) t).
Proof.
  unfold beacon_coord_field, bind. change (Z.shiftl 1 23) with (2 ^ 23).
  destruct (double_to_int32 _) as [t|]; [|discriminate].
  change (int32 0x007FFFFF) with 8388607. change (int32 0xFF800000) with (- 8388608).
  intros Hv. exists t. split; [reflexivity|].
  destruct (t >? 8388607) eqn:Hhi.
  - pose proof (Zgt_cases t 8388607) as Hc. rewrite Hhi in Hc. inversion Hv. lia.
  - pose proof (Zgt_cases t 8388607) as Hc. rewrite Hhi in Hc.
    destruct (t <? - 8388608) eqn:Hlo; inversion Hv.
    + apply Z.ltb_lt in Hlo. lia.
    + apply Z.ltb_ge in Hlo. lia.
Qed.

(** The three bytes stored for a field, least significant first. *)
Lemma le_bytes_3 v :
  le_bytes 3 v = [v mod 256; v / 256 mod 256; v / 65536 mod 256].
Proof.
  unfold le_bytes. cbn [seq map Z.of_nat Pos.of_succ_nat Pos.succ Z.mul Pos.mul Pos.add].
  rewrite !(Z.land_comm 255).
  change 255 with (Z.ones 8). rewrite !Z.land_ones by lia.
  rewrite Z.shiftr_0_r, !Z.shiftr_div_pow2 by lia. reflexivity.
Qed.

(** Where the set-up of the beacon stores the two coordinate fields. *)
Lemma beacon_pkt_init_coord_bytes {D : Type} {ops : DoubleOps D} {hal : HalConsts}
      (cfg : beacon_conf) (rc : coord_s D) pkt layout :
  beacon_pkt_init cfg rc = Some (pkt, layout) ->
  exists flat flon,
    field_latitude rc = Some flat /\ field_longitude rc = Some flon
    /\ firstn 6 (skipn (beacon_RFU1_size layout + 7) (payload pkt))
       = le_bytes 3 flat ++ le_bytes 3 flon.
Proof.
  intros H. unfold beacon_pkt_init, bind in H.
  destruct (if beacon_bw_hz cfg =? 125000 then Some BW_125KHZ
            else if beacon_bw_hz cfg =? 500000 then Some BW_500KHZ else None)
    as [bw|]; [|discriminate].
  destruct (field_latitude rc) as [flat|] eqn:Hlat.
  2:{ destruct (if beacon_datarate cfg =? 8 then _ else _) as [[[sf r1] r2]|];
        discriminate. }
  destruct (field_longitude rc) as [flon|] eqn:Hlon.
  2:{ destruct (if beacon_datarate cfg =? 8 then _ else _) as [[[sf r1] r2]|];
        discriminate. }
  exists flat, flon. split; [reflexivity|]. split; [reflexivity|].
  rewrite !le_bytes_3. unfold beacon_gateway_fields in H. rewrite !le_bytes_3 in H.
  destruct (beacon_datarate cfg =? 8);
    [|destruct (beacon_datarate cfg =? 9);
      [|destruct (beacon_datarate cfg =? 10);
        [|destruct (beacon_datarate cfg =? 12); [|discriminate]]]];
    cbv beta iota zeta in H;
    remember (crc16 _) as c eqn:Ec in H; clear Ec;
    injection H as Hp Hl; subst pkt layout;
    cbn [payload beacon_RFU1_size repeat app skipn firstn Nat.add]; reflexivity.
Qed.

(** In exact arithmetic, for a coordinate [x] and the full scale [fs] (90
    or 180 degrees), with [|x| < 256 fs] so that the conversion to
    [int32_t] is defined: at [fs] and above the field is 0x007FFFFF, at
    [-fs] and below it is 0xFF800000, and in between it is the fraction
    [x / fs * 2^23] cut toward zero. *)
Lemma beacon_coord_field_exact (x : Q) (fs : positive) :
  (- inject_Z (256 * Z.pos fs) < x)%Q -> (x < inject_Z (256 * Z.pos fs))%Q ->
  exists v,
    beacon_coord_field x (Z.pos fs) = Some v
    /\ ((inject_Z (Z.pos fs) <= x)%Q -> v = 8388607)
    /\ ((x <= - inject_Z (Z.pos fs))%Q -> v = - 8388608)
    /\ ((0 <= x)%Q -> (x < inject_Z (Z.pos fs))%Q ->
        (inject_Z v <= x / inject_Z (Z.pos fs) * inject_Z (2 ^ 23))%Q
        /\ (x / inject_Z (Z.pos fs) * inject_Z (2 ^ 23) < inject_Z (v + 1))%Q)
    /\ ((x <= 0)%Q -> (- inject_Z (Z.pos fs) < x)%Q ->
        (inject_Z (v - 1) < x / inject_Z (Z.pos fs) * inject_Z (2 ^ 23))%Q
        /\ (x / inject_Z (Z.pos fs) * inject_Z (2 ^ 23) <= inject_Z v)%Q).
Proof.
  intros Hlo Hhi.
  set (q := (x / inject_Z (Z.pos fs) * inject_Z (2 ^ 23))%Q).
  assert (Hq : ((inject_Z (- 2 ^ 31) < q)%Q /\ (q < inject_Z (2 ^ 31))%Q)
               /\ ((inject_Z (Z.pos fs) <= x)%Q -> (inject_Z 8388608 <= q)%Q)
               /\ ((x <= - inject_Z (Z.pos fs))%Q -> (q <= inject_Z (- 8388608))%Q)
               /\ ((x < inject_Z (Z.pos fs))%Q -> (q < inject_Z 8388608)%Q)
               /\ ((- inject_Z (Z.pos fs) < x)%Q -> (inject_Z (- 8388608) < q)%Q)
               /\ ((0 <= x)%Q -> 0 <= Qnum q)
               /\ ((x <= 0)%Q -> Qnum q <= 0)).
  { subst q. destruct x as [n d].
    unfold Qle, Qlt, Qdiv, Qmult, Qinv, Qopp, inject_Z in *.
    cbn [Qnum Qden] in *. repeat split; intros; nia. }
  destruct Hq as ((Hq1 & Hq2) & Htop & Hbot & Hlt & Hgt & Hnn & Hnp).
  pose proof (Qtrunc_spec q) as [Hpos Hneg]. cbn zeta in Hpos, Hneg.
  assert (Hsign : 0 <= Qnum q \/ Qnum q <= 0) by lia.
  assert (Ht : - 2 ^ 31 <= Qtrunc q <= 2 ^ 31 - 1).
  { destruct Hsign as [Hn|Hn].
    - destruct (Hpos Hn) as (H0 & Hle & _).
      pose proof (Qle_lt_trans _ _ _ Hle Hq2) as Hb.
      unfold Qlt, inject_Z in Hb. cbn [Qnum Qden] in Hb. lia.
    - destruct (Hneg Hn) as (H0 & Hle & _).
      pose proof (Qlt_le_trans _ _ _ Hq1 Hle) as Hb.
      unfold Qlt, inject_Z in Hb. cbn [Qnum Qden] in Hb. lia. }
  unfold beacon_coord_field, bind, double_to_int32, double_to_int.
  cbn [d_value d_mul d_div d_of_Z Q_ops].
  change (Z.shiftl 1 23) with (2 ^ 23). fold q.
  replace ((- 2 ^ 31 <=? Qtrunc q) && (Qtrunc q <=? 2 ^ 31 - 1)) with true
    by (symmetry; apply andb_true_intro; split; apply Z.leb_le; lia).
  change (int32 0x007FFFFF) with 8388607. change (int32 0xFF800000) with (- 8388608).
  eexists. split; [reflexivity|].
  assert (Hzq : forall a b : Z, (inject_Z a <= inject_Z b)%Q -> a <= b).
  { intros a b Hab. unfold Qle, inject_Z in Hab. cbn [Qnum Qden] in Hab. lia. }
  assert (Hzl : forall a b : Z, (inject_Z a < inject_Z b)%Q -> a < b).
  { intros a b Hab. unfold Qlt, inject_Z in Hab. cbn [Qnum Qden] in Hab. lia. }
  split; [|split; [|split]].
  - (* at and above the full scale *)
    intros Hx. specialize (Htop Hx).
    assert (Hn : 0 <= Qnum q).
    { unfold Qle, inject_Z in Htop. cbn [Qnum Qden] in Htop. lia. }
    destruct (Hpos Hn) as (_ & _ & Hlt1).
    pose proof (Hzl _ _ (Qle_lt_trans _ _ _ Htop Hlt1)) as Hb.
    destruct (Qtrunc q >? 8388607) eqn:E; [reflexivity|].
    pose proof (Zgt_cases (Qtrunc q) 8388607) as Hc. rewrite E in Hc. lia.
  - (* at and below minus the full scale *)
    intros Hx. specialize (Hbot Hx).
    assert (Hn : Qnum q <= 0).
    { unfold Qle, inject_Z in Hbot. cbn [Qnum Qden] in Hbot. lia. }
    destruct (Hneg Hn) as (_ & _ & Hlt1).
    pose proof (Hzl _ _ (Qlt_le_trans _ _ _ Hlt1 Hbot)) as Hb.
    destruct (Qtrunc q >? 8388607) eqn:E.
    { pose proof (Zgt_cases (Qtrunc q) 8388607) as Hc. rewrite E in Hc. lia. }
    destruct (Qtrunc q <? - 8388608) eqn:E2; [reflexivity|].
    apply Z.ltb_ge in E2. lia.
  - intros Hx0 Hx. destruct (Hpos (Hnn Hx0)) as (H0 & Hle & Hlt1).
    pose proof (Hzl _ _ (Qle_lt_trans _ _ _ Hle (Hlt Hx))) as Hb.
    destruct (Qtrunc q >? 8388607) eqn:E.
    { pose proof (Zgt_cases (Qtrunc q) 8388607) as Hc. rewrite E in Hc. lia. }
    destruct (Qtrunc q <? - 8388608) eqn:E2; [apply Z.ltb_lt in E2; lia|].
    split; assumption.
  - intros Hx0 Hx. destruct (Hneg (Hnp Hx0)) as (H0 & Hle & Hlt1).
    pose proof (Hzl _ _ (Qlt_le_trans _ _ _ (Hgt Hx) Hle)) as Hb.
    destruct (Qtrunc q >? 8388607) eqn:E.
    { pose proof (Zgt_cases (Qtrunc q) 8388607) as Hc. rewrite E in Hc. lia. }
    destruct (Qtrunc q <? - 8388608) eqn:E2; [apply Z.ltb_lt in E2; lia|].
    split; assumption.
Qed.

(** C2. The beacon's latitude and longitude. In the payload that the
    set-up of the beacon builds, the three bytes after the info descriptor
    are the latitude field and the next three the longitude field, least
    significant byte first, each field being the value of
    [(int32_t)((coord / full) * 2^23)] (full scale 90 for the latitude,
    180 for the longitude) saturated to the range
    [0xFF800000 .. 0x007FFFFF] (as [int32_t]: -8388608 .. 8388607). In
    exact arithmetic, with the conversion defined, a coordinate at or above
    the full scale gives 0x007FFFFF, one at or below minus the full scale
    gives 0xFF800000, and one in between gives the fraction
    [coord / full * 2^23] cut toward zero. On binary64, a reference
    latitude of exactly 90° is sent as 0x007FFFFF (bytes FF FF 7F) and a
    reference longitude of exactly -180° as 0xFF800000, the 24-bit value
    0x800000 (bytes 00 00 80). *)
Theorem beacon_lat_lon_saturated_24bit :
  (forall (D : Type) (ops : DoubleOps D) (hal : HalConsts)
          (cfg : beacon_conf) (rc : coord_s D) pkt layout,
      beacon_pkt_init cfg rc = Some (pkt, layout) ->
      exists tlat tlon,
        double_to_int32 (d_mul (d_div (lat rc) (d_of_Z 90)) (d_of_Z (2 ^ 23)))
        = Some tlat
        /\ double_to_int32 (d_mul (d_div (lon rc) (d_of_Z 180)) (d_of_Z (2 ^ 23)))
           = Some tlon
        /\ let flat := Z.max (int32 0xFF800000) (Z.min (int32 0x007FFFFF) tlat) in
           let flon := Z.max (int32 0xFF800000) (Z.min (int32 0x007FFFFF) tlon) in
           field_latitude rc = Some flat
           /\ field_longitude rc = Some flon
           /\ firstn 6 (skipn (beacon_RFU1_size layout + 7) (payload pkt))
              = [flat mod 256; flat / 256 mod 256; flat / 65536 mod 256;
                 flon mod 256; flon / 256 mod 256; flon / 65536 mod 256])
  /\ (forall rc : coord_s Q,
         (- (23040) < lat rc)%Q -> (lat rc < 23040)%Q ->
         exists v,
           field_latitude rc = Some v
           /\ ((90 <= lat rc)%Q -> v = 0x007FFFFF)
           /\ ((lat rc <= - (90))%Q -> v = int32 0xFF800000)
           /\ ((0 <= lat rc)%Q -> (lat rc < 90)%Q ->
               (inject_Z v <= lat rc / 90 * inject_Z (2 ^ 23))%Q
               /\ (lat rc / 90 * inject_Z (2 ^ 23) < inject_Z (v + 1))%Q)
           /\ ((lat rc <= 0)%Q -> (- (90) < lat rc)%Q ->
               (inject_Z (v - 1) < lat rc / 90 * inject_Z (2 ^ 23))%Q
               /\ (lat rc / 90 * inject_Z (2 ^ 23) <= inject_Z v)%Q))
  /\ (forall rc : coord_s Q,
         (- (46080) < lon rc)%Q -> (lon rc < 46080)%Q ->
         exists v,
           field_longitude rc = Some v
           /\ ((180 <= lon rc)%Q -> v = 0x007FFFFF)
           /\ ((lon rc <= - (180))%Q -> v = int32 0xFF800000)
           /\ ((0 <= lon rc)%Q -> (lon rc < 180)%Q ->
               (inject_Z v <= lon rc / 180 * inject_Z (2 ^ 23))%Q
               /\ (lon rc / 180 * inject_Z (2 ^ 23) < inject_Z (v + 1))%Q)
           /\ ((lon rc <= 0)%Q -> (- (180) < lon rc)%Q ->
               (inject_Z (v - 1) < lon rc / 180 * inject_Z (2 ^ 23))%Q
               /\ (lon rc / 180 * inject_Z (2 ^ 23) <= inject_Z v)%Q))
  /\ (forall (hal : HalConsts) (cfg : beacon_conf) lo al pkt layout,
         beacon_pkt_init cfg {| lat := 90%float; lon := lo; alt := al |}
         = Some (pkt, layout) ->
         field_latitude {| lat := 90%float; lon := lo; alt := al |} = Some 0x007FFFFF
         /\ firstn 3 (skipn (beacon_RFU1_size layout + 7) (payload pkt))
            = [0xFF; 0xFF; 0x7F])
  /\ (forall (hal : HalConsts) (cfg : beacon_conf) la al pkt layout,
         beacon_pkt_init cfg {| lat := la; lon := (-180)%float; alt := al |}
         = Some (pkt, layout) ->
         field_longitude {| lat := la; lon := (-180)%float; alt := al |}
         = Some (int32 0xFF800000)
         /\ firstn 3 (skipn (beacon_RFU1_size layout + 10) (payload pkt))
            = [0x00; 0x00; 0x80])
  /\ int32 0xFF800000 = - 8388608
  /\ uint32 (int32 0xFF800000) = 0xFF800000
  /\ int32 0xFF800000 mod 2 ^ 24 = 0x800000.
Proof.
  split; [|split; [|split; [|split; [|split; [|split; [|split]]]]]].
  - intros D ops hal cfg rc pkt layout Hinit.
    destruct (beacon_pkt_init_coord_bytes cfg rc pkt layout Hinit)
      as (flat & flon & Hlat & Hlon & Hbytes).
    destruct (beacon_coord_field_clamp _ _ _ Hlat) as (tlat & Htlat & Hflat).
    destruct (beacon_coord_field_clamp _ _ _ Hlon) as (tlon & Htlon & Hflon).
    exists tlat, tlon. split; [exact Htlat|]. split; [exact Htlon|].
    cbv zeta. rewrite <- Hflat, <- Hflon.
    split; [exact Hlat|]. split; [exact Hlon|].
    rewrite Hbytes, !le_bytes_3. reflexivity.
  - intros rc Hlo Hhi. exact (beacon_coord_field_exact (lat rc) 90 Hlo Hhi).
  - intros rc Hlo Hhi. exact (beacon_coord_field_exact (lon rc) 180 Hlo Hhi).
  - intros hal cfg lo al pkt layout Hinit.
    assert (Hf : field_latitude {| lat := 90%float; lon := lo; alt := al |}
                 = Some 0x007FFFFF) by (vm_compute; reflexivity).
    split; [exact Hf|].
    destruct (beacon_pkt_init_coord_bytes cfg _ pkt layout Hinit)
      as (flat & flon & Hlat & _ & Hbytes).
    rewrite Hf in Hlat. injection Hlat as Hlat. subst flat.
    apply (f_equal (firstn 3)) in Hbytes. rewrite firstn_firstn in Hbytes.
    rewrite le_bytes_3 in Hbytes. exact Hbytes.
  - intros hal cfg la al pkt layout Hinit.
    assert (Hf : field_longitude {| lat := la; lon := (-180)%float; alt := al |}
                 = Some (int32 0xFF800000)) by (vm_compute; reflexivity).
    split; [exact Hf|].
    destruct (beacon_pkt_init_coord_bytes cfg _ pkt layout Hinit)
      as (flat & flon & _ & Hlon & Hbytes).
    rewrite Hf in Hlon. injection Hlon as Hlon. subst flon.
    assert (Hlast : firstn 3 (skipn 3 (le_bytes 3 flat ++ le_bytes 3 (int32 0xFF800000)))
                    = [0x00; 0x00; 0x80]).
    { rewrite !le_bytes_3. reflexivity. }
    rewrite <- Hbytes, skipn_firstn_comm in Hlast. cbn [Nat.sub] in Hlast.
    rewrite skipn_skipn, firstn_firstn in Hlast.
    replace (3 + (beacon_RFU1_size layout + 7))%nat
      with (beacon_RFU1_size layout + 10)%nat in Hlast by lia.
    exact Hlast.
  - reflexivity.
  - reflexivity.
  - reflexivity.
Qed.

(** The theorem on the configuration of the examples (SF9, 125 kHz) with
    the reference coordinates 90 N, 180 W in binary64. *)
Lemma beacon_lat_lon_saturated_24bit_witness :
  exists pkt layout,
    beacon_pkt_init (ops := float_ops) (hal := sx1302_hal) ex_beacon_conf
      {| lat := 90%float; lon := (-180)%float; alt := 0 |} = Some (pkt, layout)
    /\ firstn 3 (skipn (beacon_RFU1_size layout + 7) (payload pkt))
       = [0xFF; 0xFF; 0x7F]
    /\ firstn 3 (skipn (beacon_RFU1_size layout + 10) (payload pkt))
       = [0x00; 0x00; 0x80].
Proof.
  destruct beacon_lat_lon_saturated_24bit as (_ & _ & _ & Hlat & Hlon & _).
  eexists _, _. split; [vm_compute; reflexivity|]. split.
  - exact (proj2 (Hlat sx1302_hal ex_beacon_conf (-180)%float 0 _ _
                    ltac:(vm_compute; reflexivity))).
  - exact (proj2 (Hlon sx1302_hal ex_beacon_conf 90%float 0 _ _
                    ltac:(vm_compute; reflexivity))).
Defined.

(* ---------------------------------------------------------------------- *)
(** ** Beacon pre-allocation *)

(** CRC-16/XMODEM check value: the CRC of the ASCII digits 1 to 9. *)
Example crc16_check_value :
  crc16 [0x31; 0x32; 0x33; 0x34; 0x35; 0x36; 0x37; 0x38; 0x39] = 0x31C3.
Proof. reflexivity. Qed.

Section BeaconSchedule.
Context {D : Type} {J : Type} {jq : JitQueue J} {gl : GpsLib D}.
Variable cfg : beacon_conf.
Variable layout : beacon_layout.

(** With a non-negative reference time [Z.rem] is the remainder of the
    floor division, so the first slot is the reference rounded down plus one
    period; without wrap-around the retries add whole periods. *)
Lemma next_beacon_gps_time_formula ref_gps_sec last rt :
  0 < beacon_period cfg -> 0 <= ref_gps_sec ->
  0 <= rt -> rt * beacon_period cfg < 2 ^ 32 ->
  next_beacon_gps_time cfg ref_gps_sec last rt
  = (if last =? 0 then align_down ref_gps_sec (beacon_period cfg) else last)
    + beacon_period cfg * (1 + rt).
Proof.
  intros Hp Hg Hr Hw. unfold next_beacon_gps_time, align_down.
  assert (Hu : uint32 (rt * beacon_period cfg) = rt * beacon_period cfg).
  { unfold uint32, wrap_unsigned. apply Z.mod_small. nia. }
  rewrite Hu. destruct (last =? 0).
  - rewrite Z.rem_mod_nonneg by lia.
    pose proof (Z.div_mod ref_gps_sec (beacon_period cfg) ltac:(lia)). lia.
  - lia.
Qed.

End BeaconSchedule.

(** C6. One iteration of the beacon pre-allocation loop with the GPS
    reference valid and the XTAL correction locked, no wrap-around in
    [retry * beacon_period] and a non-negative reference time. The beacon
    offered to the queue of chain 0 is timed for
    [next_gps = (last_beacon_gps_time if nonzero, else the reference GPS
    time rounded down to a multiple of beacon_period)
    + beacon_period * (1 + retry)]: its counter is the conversion of
    [next_gps] and its payload carries [next_gps]. If the queue accepts it,
    [last_beacon_gps_time] becomes [next_gps], [retry] returns to 0 and no
    rejection is counted; on [JIT_ERROR_COLLISION_BEACON] [retry] grows by
    one and no rejection is counted; on any other answer
    [meas_nb_beacon_rejected] and [retry] both grow by one. *)
Theorem beacon_prealloc_iteration :
  forall (D J : Type) (jq : JitQueue J) (gl : GpsLib D)
         (cfg : beacon_conf) (layout : beacon_layout)
         (e : beacon_env D) (v : beacon_vars J),
    0 < beacon_period cfg ->
    0 <= tv_sec (tref_gps (env_time_reference_gps e)) ->
    0 <= retry v ->
    retry v * beacon_period cfg < 2 ^ 32 ->
    env_gps_ref_valid e = true ->
    env_xtal_correct_ok e = true ->
    let now_gps := tv_sec (tref_gps (env_time_reference_gps e)) in
    let next_gps :=
      (if last_beacon_gps_time v =? 0
       then align_down now_gps (beacon_period cfg)
       else last_beacon_gps_time v)
      + beacon_period cfg * (1 + retry v) in
    let v' := snd (beacon_body cfg layout e v) in
    exists pkt,
      count_us pkt
      = match lgw_gps2cnt (env_time_reference_gps e)
                          {| tv_sec := next_gps; tv_nsec := 0 |} with
        | Some c => c
        | None => count_us (beacon_pkt v)
        end
      /\ payload pkt
         = write_bytes (beacon_RFU1_size layout + 4)
             (le_bytes 2 (crc16 (firstn (4 + beacon_RFU1_size layout)
                                   (write_bytes (beacon_RFU1_size layout)
                                      (le_bytes 4 next_gps) (payload (beacon_pkt v))))))
             (write_bytes (beacon_RFU1_size layout) (le_bytes 4 next_gps)
                (payload (beacon_pkt v)))
      /\ fst (beacon_body cfg layout e v) = LoopContinue
      /\ forall jit_result q' pkt',
          jit_enqueue (jit_queue0 v) (env_instcnt e) pkt JIT_PKT_TYPE_BEACON
          = (jit_result, q', pkt') ->
          jit_queue0 v' = q'
          /\ match jit_result with
             | JIT_ERROR_OK =>
                 last_beacon_gps_time v' = next_gps
                 /\ retry v' = 0
                 /\ beacon_loop v' = uint8 (beacon_loop v - 1)
                 /\ beacon_meas v' meas_nb_beacon_queued
                    = uint32 (beacon_meas v meas_nb_beacon_queued + 1)
                 /\ beacon_meas v' meas_nb_beacon_rejected
                    = beacon_meas v meas_nb_beacon_rejected
             | JIT_ERROR_COLLISION_BEACON =>
                 last_beacon_gps_time v' = last_beacon_gps_time v
                 /\ retry v' = retry v + 1
                 /\ beacon_loop v' = beacon_loop v
                 /\ beacon_meas v' = beacon_meas v
             | _ =>
                 last_beacon_gps_time v' = last_beacon_gps_time v
                 /\ retry v' = retry v + 1
                 /\ beacon_loop v' = beacon_loop v
                 /\ beacon_meas v' meas_nb_beacon_rejected
                    = uint32 (beacon_meas v meas_nb_beacon_rejected + 1)
                 /\ forall x, x <> meas_nb_beacon_rejected ->
                              beacon_meas v' x = beacon_meas v x
             end.
Proof.
  intros D J jq gl cfg layout e v Hp Hg Hr Hw Hv Hx now_gps next_gps v'.
  pose proof (next_beacon_gps_time_formula cfg now_gps (last_beacon_gps_time v)
                (retry v) Hp Hg Hr Hw) as Hnext.
  fold next_gps in Hnext.
  subst v'. unfold beacon_body. rewrite Hv, Hx. cbn [andb].
  fold now_gps. rewrite Hnext.
  match goal with
  | |- context [jit_enqueue _ _ ?p _] => exists p
  end.
  split; [reflexivity|]. split; [reflexivity|]. split.
  - destruct (jit_enqueue _ _ _ _) as [[r q'] p']. destruct r; reflexivity.
  - intros jit_result q' pkt' Henq. rewrite Henq.
    destruct jit_result; cbn [snd jit_queue0 last_beacon_gps_time retry
                                  beacon_loop beacon_meas];
      repeat match goal with
             | |- _ /\ _ => split
             | |- forall _, _ => intro
             end;
      try reflexivity;
      try (rewrite meas_add_same; reflexivity);
      try (rewrite meas_add_other by congruence; reflexivity).
Qed.

(** The theorem at a reference of GPS second 1 280 000 000 with a period of
    128 s and an empty queue: the first beacon is timed for 1 280 000 128. *)
Lemma beacon_prealloc_iteration_witness :
  last_beacon_gps_time
    (snd (beacon_body (jq := ex_jit) (gl := linear_gps)
            ex_beacon_conf ex_beacon_layout ex_beacon_env ex_beacon_vars))
  = 1280000128
  /\ retry
       (snd (beacon_body (jq := ex_jit) (gl := linear_gps)
               ex_beacon_conf ex_beacon_layout ex_beacon_env ex_beacon_vars))
     = 0.
Proof.
  destruct (beacon_prealloc_iteration float _ ex_jit linear_gps
              ex_beacon_conf ex_beacon_layout ex_beacon_env ex_beacon_vars)
    as (pkt & _ & _ & _ & Hres);
    [cbn; lia | cbn; lia | cbn; lia | cbn; lia | reflexivity | reflexivity |].
  destruct (Hres JIT_ERROR_OK [(pkt, JIT_PKT_TYPE_BEACON)] pkt eq_refl)
    as (_ & Hl & Hr & _).
  split; [exact Hl | exact Hr].
Defined.

(** The same loop run to the end on that input: three beacons queued, one
    period apart. *)
Example beacon_prealloc_run :
  let v := beacon_prealloc (jq := ex_jit) (gl := linear_gps)
             ex_beacon_conf ex_beacon_layout
             (repeat ex_beacon_env 5) ex_beacon_vars in
  map (fun en => (count_us (fst en), firstn 4 (skipn 2 (payload (fst en)))))
      (jit_queue0 v)
  = [(133000000, le_bytes 4 1280000128);
     (261000000, le_bytes 4 1280000256);
     (389000000, le_bytes 4 1280000384)]
  /\ beacon_loop v = 0
  /\ last_beacon_gps_time v = 1280000384
  /\ beacon_meas v meas_nb_beacon_queued = 3.
Proof. vm_compute. repeat split. Qed.

(* ---------------------------------------------------------------------- *)
(** ** Beacon frequency correction in the dispatcher *)

Section JitDispatch.
Context {D : Type} {ops : DoubleOps D} {J : Type} {jq : JitQueue J} {hal : HalConsts}.

(** What a pass hands to [lgw_send] is the packet it just dequeued, with
    the corrected frequency when that packet is a beacon. *)
Lemma thread_jit_chain_sends xtal_correct scan e q m q' m' calls pkt :
  thread_jit_chain xtal_correct scan e q m = Some (q', m', calls) ->
  In (LgwSend pkt) calls ->
  exists idx pkt0 ty,
    jit_peek q (jit_instcnt e) = (JIT_ERROR_OK, idx)
    /\ jit_dequeue q idx = (JIT_ERROR_OK, q', pkt0, ty)
    /\ (if jit_pkt_type_is_beacon ty
        then exists f, beacon_freq_correct xtal_correct (freq_hz pkt0) = Some f
                       /\ pkt = set_freq_hz f pkt0
        else pkt = pkt0).
Proof.
  unfold thread_jit_chain.
  destruct (jit_peek q (jit_instcnt e)) as [r idx] eqn:Hpeek.
  destruct r; try (intros Hs Hin; inversion Hs; subst; contradiction).
  destruct (idx >? -1); [|intros Hs Hin; inversion Hs; subst; contradiction].
  destruct (jit_dequeue q idx) as [[[r q1] pkt0] ty] eqn:Hdeq.
  destruct r; try (intros Hs Hin; inversion Hs; subst; contradiction).
  intros Hs Hin. exists idx, pkt0, ty.
  assert (Hq : q1 = q' /\
               (if jit_pkt_type_is_beacon ty
                then exists f, beacon_freq_correct xtal_correct (freq_hz pkt0) = Some f
                               /\ pkt = set_freq_hz f pkt0
                else pkt = pkt0)).
  { destruct (jit_pkt_type_is_beacon ty).
    - destruct (beacon_freq_correct xtal_correct (freq_hz pkt0)) as [f|];
        [|discriminate].
      cbn [bind] in Hs.
      destruct (negb (jit_status_result e =? LGW_HAL_ERROR)
                && (jit_tx_status e =? TX_EMITTING));
        [inversion Hs; subst; contradiction|].
      assert (Hc : q1 = q' /\
                   calls = (if scan then [LgwSpectralScanAbort] else [])
                             ++ [LgwSend (set_freq_hz f pkt0)]).
      { destruct (negb (jit_send_result e =? LGW_HAL_SUCCESS));
          inversion Hs; split; reflexivity. }
      destruct Hc as [Hq1 Hc]. subst calls. split; [exact Hq1|].
      exists f. split; [reflexivity|].
      destruct scan; cbn in Hin;
        repeat (destruct Hin as [Hin|Hin]; try discriminate; try contradiction);
        inversion Hin; reflexivity.
    - cbn [bind] in Hs.
      destruct (negb (jit_status_result e =? LGW_HAL_ERROR)
                && (jit_tx_status e =? TX_EMITTING));
        [inversion Hs; subst; contradiction|].
      assert (Hc : q1 = q' /\
                   calls = (if scan then [LgwSpectralScanAbort] else [])
                             ++ [LgwSend pkt0]).
      { destruct (negb (jit_send_result e =? LGW_HAL_SUCCESS));
          inversion Hs; split; reflexivity. }
      destruct Hc as [Hq1 Hc]. subst calls. split; [exact Hq1|].
      destruct scan; cbn in Hin;
        repeat (destruct Hin as [Hin|Hin]; try discriminate; try contradiction);
        inversion Hin; reflexivity. }
  destruct Hq as [Hq1 Hp]. subst q1.
  split; [reflexivity|]. split; [exact Hdeq | exact Hp].
Qed.

End JitDispatch.

(** The dispatcher on the example: a beacon at 869 525 000 Hz is due, the
    crystal correction is [1 + 2^-23]. *)
Lemma ex_thread_jit_chain :
  thread_jit_chain (jq := ex_jit) (hal := sx1302_hal)
    ex_xtal_correct false ex_jit_env ex_jit_queue meas_zero
  = Some ([], meas_add meas_nb_tx_ok 1 (meas_add meas_nb_beacon_sent 1 meas_zero),
          [LgwSend (set_freq_hz 869525103 (set_freq_hz 869525000 ex_beacon_pkt))]).
Proof. cbv -[meas_add meas_zero]. reflexivity. Qed.

(** C8, as stated, fails: with a beacon at 869 525 000 Hz in the queue and
    [xtal_correct = 1 + 2^-23] the product is 869 525 103.655..., whose
    nearest integer is 869 525 104, and the dispatcher hands 869 525 103 to
    the radio. *)
Lemma beacon_freq_not_rounded_to_nearest :
  exists q' m' pkt product,
    thread_jit_chain (jq := ex_jit) (hal := sx1302_hal)
      ex_xtal_correct false ex_jit_env ex_jit_queue meas_zero
    = Some (q', m', [LgwSend pkt])
    /\ d_value (d_mul ex_xtal_correct (d_of_Z 869525000)) = Some product
    /\ Qround_nearest product = 869525104
    /\ freq_hz pkt = 869525103
    /\ freq_hz pkt <> Qround_nearest product.
Proof.
  eexists _, _, _, _.
  split; [exact ex_thread_jit_chain|].
  split; [vm_compute; reflexivity|].
  split; [vm_compute; reflexivity|].
  split; [reflexivity|].
  vm_compute. discriminate.
Qed.

(** C8, amended. Whenever the dispatcher hands a dequeued beacon to the
    radio, its frequency is the [double] product
    [xtal_correct * (double)freq_hz] converted to [uint32_t], that is
    truncated toward zero: for a non-negative product [x] the frequency [f]
    satisfies [f <= x < f + 1]. A packet of another class is handed over with
    its frequency unchanged. *)
Theorem beacon_freq_truncated_product :
  forall (D : Type) (ops : DoubleOps D) (J : Type) (jq : JitQueue J) (hal : HalConsts)
         xtal_correct scan e (q : J) m q' m' calls pkt,
    thread_jit_chain xtal_correct scan e q m = Some (q', m', calls) ->
    In (LgwSend pkt) calls ->
    exists idx pkt0 ty,
      jit_peek q (jit_instcnt e) = (JIT_ERROR_OK, idx)
      /\ jit_dequeue q idx = (JIT_ERROR_OK, q', pkt0, ty)
      /\ (ty = JIT_PKT_TYPE_BEACON ->
          exists x,
            d_value (d_mul xtal_correct (d_of_Z (freq_hz pkt0))) = Some x
            /\ pkt = set_freq_hz (Qtrunc x) pkt0
            /\ freq_hz pkt = Qtrunc x
            /\ 0 <= freq_hz pkt < 2 ^ 32
            /\ (0 <= Qnum x ->
                (inject_Z (freq_hz pkt) <= x)%Q /\ (x < inject_Z (freq_hz pkt + 1))%Q))
      /\ (ty <> JIT_PKT_TYPE_BEACON -> pkt = pkt0).
Proof.
  intros D ops J jq hal xtal_correct scan e q m q' m' calls pkt Hs Hin.
  destruct (thread_jit_chain_sends _ _ _ _ _ _ _ _ _ Hs Hin)
    as (idx & pkt0 & ty & Hpeek & Hdeq & Hpkt).
  exists idx, pkt0, ty. split; [exact Hpeek|]. split; [exact Hdeq|]. split.
  - intros Hty. subst ty. cbn [jit_pkt_type_is_beacon] in Hpkt.
    destruct Hpkt as (f & Hf & Hp). unfold beacon_freq_correct, double_to_uint32 in Hf.
    destruct (double_to_int_value _ _ _ _ Hf) as (x & Hx & Hfx).
    pose proof (double_to_int_range _ _ _ _ Hf) as Hrange.
    exists x. subst f pkt. cbn [freq_hz set_freq_hz].
    split; [exact Hx|]. split; [reflexivity|]. split; [reflexivity|].
    split; [lia|].
    intros Hn. destruct (Qtrunc_spec x) as [Hpos _].
    destruct (Hpos Hn) as (_ & Hle & Hlt). split; assumption.
  - intros Hty. destruct ty; cbn [jit_pkt_type_is_beacon] in Hpkt;
      try exact Hpkt. contradiction.
Qed.

(** The amended statement on the counterexample's input. *)
Lemma beacon_freq_truncated_product_witness :
  exists pkt x,
    d_value (d_mul ex_xtal_correct (d_of_Z 869525000)) = Some x
    /\ freq_hz pkt = 869525103
    /\ freq_hz pkt = Qtrunc x.
Proof.
  destruct (beacon_freq_truncated_product float _ _ ex_jit sx1302_hal
              ex_xtal_correct false ex_jit_env ex_jit_queue meas_zero
              [] (meas_add meas_nb_tx_ok 1 (meas_add meas_nb_beacon_sent 1 meas_zero))
              [LgwSend (set_freq_hz 869525103 (set_freq_hz 869525000 ex_beacon_pkt))]
              (set_freq_hz 869525103 (set_freq_hz 869525000 ex_beacon_pkt))
              ex_thread_jit_chain (or_introl eq_refl))
    as (idx & pkt0 & ty & Hpeek & Hdeq & Hb & _).
  inversion Hpeek; subst idx. inversion Hdeq; subst pkt0 ty.
  destruct (Hb eq_refl) as (x & Hx & _ & Hf & _).
  exists (set_freq_hz 869525103 (set_freq_hz 869525000 ex_beacon_pkt)), x.
  split; [exact Hx|]. split; [reflexivity | exact Hf].
Defined.

(* ---------------------------------------------------------------------- *)
(** ** System clock discipline *)

Section OsTimeFacts.
Context {D : Type} {gl : GpsLib D}.







End OsTimeFacts.




(* ---------------------------------------------------------------------- *)
(** ** Upstream packets: forwarded, skipped, or fatal *)

Section UpstreamFacts.
Context {D : Type} {ops : DoubleOps D} {hal : HalConsts}
        {gl : GpsLib D} {ul : UpstreamLib D}.

Hypothesis snprintf_ok : forall f : up_format D, 0 < fst (snprintf f).

Lemma put_fmt_done f : put_fmt f = Done (snd (snprintf f)).
Proof.
  unfold put_fmt. pose proof (snprintf_ok f) as Hj.
  destruct (snprintf f) as [j text]. cbn [fst snd] in *.
  destruct (j >? 0) eqn:E; [reflexivity|].
  pose proof (Zgt_cases j 0) as Hc. rewrite E in Hc. lia.
Qed.

Lemma put_rx_time_cases local_ref (p : lgw_pkt_rx_s D) :
  (exists s, put_rx_time local_ref p = Done s) \/ put_rx_time local_ref p = Undefined.
Proof.
  unfold put_rx_time.
  destruct (lgw_cnt2utc local_ref (rx_count_us p)) as [u|];
    [rewrite put_fmt_done|]; cbn [run_bind];
    (destruct (lgw_cnt2gps local_ref (rx_count_us p)) as [g|];
     [destruct (double_to_int _ _ _) as [ms|];
      [rewrite put_fmt_done; cbn [run_bind]; left; eexists; reflexivity
      |right; reflexivity]
     |left; eexists; reflexivity]).
Qed.

Lemma rx_filter_forwardable fc (p : lgw_pkt_rx_s D) m : fst (rx_filter fc p m) = rx_forwardable fc p.
Proof.
  unfold rx_forwardable, rx_filter.
  destruct (rx_status p =? STAT_CRC_OK); [reflexivity|].
  destruct (rx_status p =? STAT_CRC_BAD); [reflexivity|].
  destruct (rx_status p =? STAT_NO_CRC); reflexivity.
Qed.

(** A status outside the three known ones never passes the filter. *)
Lemma rx_unknown_status_not_forwardable fc (p : lgw_pkt_rx_s D) :
  rx_status p <> STAT_CRC_OK -> rx_status p <> STAT_CRC_BAD ->
  rx_status p <> STAT_NO_CRC ->
  rx_forwardable fc p = false.
Proof.
  intros H1 H2 H3. unfold rx_forwardable, rx_filter.
  apply Z.eqb_neq in H1, H2, H3. rewrite H1, H2, H3. reflexivity.
Qed.

Lemma put_rx_status_done fc (p : lgw_pkt_rx_s D) :
  rx_forwardable fc p = true -> exists s, put_rx_status p = Done s.
Proof.
  unfold rx_forwardable, rx_filter, put_rx_status.
  destruct (rx_status p =? STAT_CRC_OK); [eexists; reflexivity|].
  destruct (rx_status p =? STAT_CRC_BAD); [eexists; reflexivity|].
  destruct (rx_status p =? STAT_NO_CRC); [eexists; reflexivity|].
  cbn. discriminate.
Qed.

Lemma put_lora_datarate_cases (p : lgw_pkt_rx_s D) :
  let known := (rx_datarate p =? DR_LORA_SF5) || (rx_datarate p =? DR_LORA_SF6)
               || (rx_datarate p =? DR_LORA_SF7) || (rx_datarate p =? DR_LORA_SF8)
               || (rx_datarate p =? DR_LORA_SF9) || (rx_datarate p =? DR_LORA_SF10)
               || (rx_datarate p =? DR_LORA_SF11) || (rx_datarate p =? DR_LORA_SF12) in
  (known = true /\ exists s, put_lora_datarate p = Done s)
  \/ (known = false /\ put_lora_datarate p = ExitFailure).
Proof.
  unfold put_lora_datarate.
  repeat (match goal with
          | |- context [rx_datarate p =? ?c] => destruct (rx_datarate p =? c)
          end; cbn [orb]; [left; split; [reflexivity | eexists; reflexivity]|]).
  right. split; reflexivity.
Qed.

Lemma put_lora_bandwidth_cases (p : lgw_pkt_rx_s D) :
  let known := (rx_bandwidth p =? BW_125KHZ) || (rx_bandwidth p =? BW_250KHZ)
               || (rx_bandwidth p =? BW_500KHZ) in
  (known = true /\ exists s, put_lora_bandwidth p = Done s)
  \/ (known = false /\ put_lora_bandwidth p = ExitFailure).
Proof.
  unfold put_lora_bandwidth.
  repeat (match goal with
          | |- context [rx_bandwidth p =? ?c] => destruct (rx_bandwidth p =? c)
          end; cbn [orb]; [left; split; [reflexivity | eexists; reflexivity]|]).
  right. split; reflexivity.
Qed.

Lemma put_lora_coderate_cases (p : lgw_pkt_rx_s D) :
  let known := (rx_coderate p =? CR_LORA_4_5) || (rx_coderate p =? CR_LORA_4_6)
               || (rx_coderate p =? CR_LORA_4_7) || (rx_coderate p =? CR_LORA_4_8)
               || (rx_coderate p =? 0) in
  (known = true /\ exists s, put_lora_coderate p = Done s)
  \/ (known = false /\ put_lora_coderate p = ExitFailure).
Proof.
  unfold put_lora_coderate.
  repeat (match goal with
          | |- context [rx_coderate p =? ?c] => destruct (rx_coderate p =? c)
          end; cbn [orb]; [left; split; [reflexivity | eexists; reflexivity]|]).
  right. split; reflexivity.
Qed.

Lemma put_rx_modulation_cases (p : lgw_pkt_rx_s D) :
  (rx_fields_known p = true /\ exists s, put_rx_modulation p = Done s)
  \/ (rx_fields_known p = false /\ put_rx_modulation p = ExitFailure).
Proof.
  unfold rx_fields_known, put_rx_modulation.
  destruct (rx_modulation p =? MOD_LORA); cbn [andb orb negb].
  - rewrite !orb_false_r.
    destruct (put_lora_datarate_cases p) as [[Hk [s Hs]] | [Hk Hs]];
      cbn zeta in Hk; rewrite Hk, Hs; cbn [andb run_bind];
      [|right; split; reflexivity].
    destruct (put_lora_bandwidth_cases p) as [[Hk2 [s2 Hs2]] | [Hk2 Hs2]];
      cbn zeta in Hk2; rewrite Hk2, Hs2; cbn [andb run_bind];
      [|right; split; reflexivity].
    destruct (put_lora_coderate_cases p) as [[Hk3 [s3 Hs3]] | [Hk3 Hs3]];
      cbn zeta in Hk3; rewrite Hk3, Hs3; cbn [andb run_bind];
      [|right; split; reflexivity].
    rewrite !put_fmt_done. cbn [run_bind].
    left. split; [reflexivity | eexists; reflexivity].
  - destruct (rx_modulation p =? MOD_FSK).
    + rewrite put_fmt_done. cbn [run_bind].
      left. split; [reflexivity | eexists; reflexivity].
    + right. split; reflexivity.
Qed.

(** The configuration's filter, read off the packet status (the three
    status values being distinct). *)
Lemma rx_filter_passes fc (p : lgw_pkt_rx_s D) m :
  STAT_CRC_OK <> STAT_CRC_BAD -> STAT_CRC_OK <> STAT_NO_CRC ->
  STAT_CRC_BAD <> STAT_NO_CRC ->
  fst (rx_filter fc p m) = true
  <-> ((rx_status p = STAT_CRC_OK /\ fwd_valid_pkt fc = true)
       \/ (rx_status p = STAT_CRC_BAD /\ fwd_error_pkt fc = true)
       \/ (rx_status p = STAT_NO_CRC /\ fwd_nocrc_pkt fc = true)).
Proof.
  intros H12 H13 H23. unfold rx_filter.
  destruct (rx_status p =? STAT_CRC_OK) eqn:E1; cbn [fst].
  { apply Z.eqb_eq in E1. split; [intros Hv; left; split; assumption|].
    intros [[_ Hv]|[[He _]|[He _]]]; [exact Hv | congruence | congruence]. }
  apply Z.eqb_neq in E1.
  destruct (rx_status p =? STAT_CRC_BAD) eqn:E2; cbn [fst].
  { apply Z.eqb_eq in E2. split; [intros Hv; right; left; split; assumption|].
    intros [[He _]|[[_ Hv]|[He _]]]; [congruence | exact Hv | congruence]. }
  apply Z.eqb_neq in E2.
  destruct (rx_status p =? STAT_NO_CRC) eqn:E3; cbn [fst].
  { apply Z.eqb_eq in E3. split; [intros Hv; right; right; split; assumption|].
    intros [[He _]|[[He _]|[_ Hv]]]; [congruence | congruence | exact Hv]. }
  apply Z.eqb_neq in E3.
  split; [discriminate|].
  intros [[He _]|[[He _]|[He _]]]; congruence.
Qed.

(** The radio fields the serializer has a case for ([MOD_LORA] and
    [MOD_FSK] being distinct). *)
Lemma rx_fields_known_iff (p : lgw_pkt_rx_s D) :
  MOD_LORA <> MOD_FSK ->
  rx_fields_known p = true
  <-> ((rx_modulation p = MOD_LORA
        /\ In (rx_datarate p) [DR_LORA_SF5; DR_LORA_SF6; DR_LORA_SF7; DR_LORA_SF8;
                               DR_LORA_SF9; DR_LORA_SF10; DR_LORA_SF11; DR_LORA_SF12]
        /\ In (rx_bandwidth p) [BW_125KHZ; BW_250KHZ; BW_500KHZ]
        /\ In (rx_coderate p) [CR_LORA_4_5; CR_LORA_4_6; CR_LORA_4_7; CR_LORA_4_8; 0])
       \/ rx_modulation p = MOD_FSK).
Proof.
  intros Hmod. unfold rx_fields_known.
  assert (Hin : forall x l, existsb (Z.eqb x) l = true <-> In x l).
  { intros x l. rewrite existsb_exists. split.
    - intros (y & Hy & He). apply Z.eqb_eq in He. subst y. exact Hy.
    - intros Hx. exists x. split; [exact Hx | apply Z.eqb_refl]. }
  rewrite <- !Hin. cbn [existsb]. rewrite !orb_false_r, <- !orb_assoc.
  destruct (rx_modulation p =? MOD_LORA) eqn:E1; cbn [andb orb negb].
  - apply Z.eqb_eq in E1. rewrite orb_false_r, !andb_true_iff.
    split.
    + intros [[Hd Hb] Hc]. left. repeat split; assumption.
    + intros [(_ & Hd & Hb & Hc) | He]; [repeat split; assumption | congruence].
  - apply Z.eqb_neq in E1. rewrite Z.eqb_eq. split.
    + intros He. right. exact He.
    + intros [(He & _) | He]; [contradiction | exact He].
Qed.

(** The packet RX time: its only ending besides the normal one is the
    undefined conversion of the GPS time in milliseconds to [uint64_t]. *)
Lemma put_rx_time_undefined local_ref (p : lgw_pkt_rx_s D) :
  let gps_ms_undefined :=
    exists g,
      lgw_cnt2gps local_ref (rx_count_us p) = Some g
      /\ double_to_int 0 (2 ^ 64 - 1)
           (d_add (d_mul (d_of_Z (tv_sec g)) (d_of_Z 1000))
                  (d_div (d_of_Z (tv_nsec g)) (d_of_Z 1000000))) = None in
  ((exists s, put_rx_time local_ref p = Done s) /\ ~ gps_ms_undefined)
  \/ (put_rx_time local_ref p = Undefined /\ gps_ms_undefined).
Proof.
  cbv zeta. unfold put_rx_time.
  assert (H1 : exists t1, match lgw_cnt2utc local_ref (rx_count_us p) with
                          | Some pkt_utc_time => put_fmt (fmt_time pkt_utc_time)
                          | None => Done EmptyString
                          end = Done t1).
  { destruct (lgw_cnt2utc local_ref (rx_count_us p)) as [u|];
      [rewrite put_fmt_done|]; eexists; reflexivity. }
  destruct H1 as [t1 H1]. rewrite H1. cbn [run_bind].
  destruct (lgw_cnt2gps local_ref (rx_count_us p)) as [g|].
  - destruct (double_to_int 0 (2 ^ 64 - 1) _) as [ms|] eqn:Hms.
    + rewrite put_fmt_done. cbn [run_bind]. left.
      split; [eexists; reflexivity|].
      intros (g' & Hg & Hn). injection Hg as Hg. subst g'. congruence.
    + right. split; [reflexivity|]. exists g. split; [reflexivity | exact Hms].
  - left. split; [eexists; reflexivity|]. intros (g' & Hg & _). discriminate.
Qed.

End UpstreamFacts.

(** C9, as stated, fails: a packet with a good CRC whose modulation field
    holds 0 (neither [MOD_LORA] nor [MOD_FSK]) makes the upstream thread
    call [exit(EXIT_FAILURE)]; the same packet with [MOD_LORA] is
    forwarded. *)
Lemma rx_packet_unknown_modulation_exits :
  serialize_rxpk (hal := sx1302_hal) (gl := linear_gps) (ul := plain_upstream_lib)
    ex_fwd_conf false ex_tref 0 (ex_rx_pkt 0) meas_zero
  = ExitFailure
  /\ exists text m,
      serialize_rxpk (hal := sx1302_hal) (gl := linear_gps) (ul := plain_upstream_lib)
        ex_fwd_conf false ex_tref 0 (ex_rx_pkt 0x10) meas_zero
      = Done (Some text, m).
Proof.
  split; [vm_compute; reflexivity|].
  eexists _, _. cbv -[meas_add meas_zero]. reflexivity.
Qed.

(** C9, amended. For every packet the upstream thread fetches, with
    [snprintf] and [bin_to_b64] succeeding, the body of the packet loop ends
    in exactly one of four ways. The packet is skipped and the loop goes on
    exactly when the configuration does not forward it: its status is
    neither [STAT_CRC_OK] with [fwd_valid_pkt] set, nor [STAT_CRC_BAD] with
    [fwd_error_pkt] set, nor [STAT_NO_CRC] with [fwd_nocrc_pkt] set (an
    unknown status included). A packet that is to be forwarded is
    serialized when its modulation is LoRa with a datarate SF5..SF12, a
    bandwidth of 125, 250 or 500 kHz and a coding rate 4/5..4/8 or 0, or
    FSK; with any other modulation, LoRa datarate, bandwidth or coding rate
    the thread calls [exit(EXIT_FAILURE)]. The one exception, which comes
    first: with a GPS time reference in use, a packet to be forwarded for
    which [lgw_cnt2gps] succeeds with a GPS time whose milliseconds
    [tv_sec * 1E3 + tv_nsec / 1E6] are outside the range of [uint64_t]
    goes through a conversion that C leaves undefined. *)
Theorem rx_packet_forwarded_skipped_or_exit :
  forall (D : Type) (ops : DoubleOps D) (hal : HalConsts)
         (gl : GpsLib D) (ul : UpstreamLib D)
         fc ref_ok local_ref pkt_in_dgram (p : lgw_pkt_rx_s D) m,
    (forall f : up_format D, 0 < fst (snprintf f)) ->
    0 <= fst (bin_to_b64 (rx_payload p) (rx_size p)) ->
    STAT_CRC_OK <> STAT_CRC_BAD -> STAT_CRC_OK <> STAT_NO_CRC ->
    STAT_CRC_BAD <> STAT_NO_CRC -> MOD_LORA <> MOD_FSK ->
    let to_forward :=
      (rx_status p = STAT_CRC_OK /\ fwd_valid_pkt fc = true)
      \/ (rx_status p = STAT_CRC_BAD /\ fwd_error_pkt fc = true)
      \/ (rx_status p = STAT_NO_CRC /\ fwd_nocrc_pkt fc = true) in
    let fields_known :=
      (rx_modulation p = MOD_LORA
       /\ In (rx_datarate p) [DR_LORA_SF5; DR_LORA_SF6; DR_LORA_SF7; DR_LORA_SF8;
                              DR_LORA_SF9; DR_LORA_SF10; DR_LORA_SF11; DR_LORA_SF12]
       /\ In (rx_bandwidth p) [BW_125KHZ; BW_250KHZ; BW_500KHZ]
       /\ In (rx_coderate p) [CR_LORA_4_5; CR_LORA_4_6; CR_LORA_4_7; CR_LORA_4_8; 0])
      \/ rx_modulation p = MOD_FSK in
    let gps_ms_undefined :=
      ref_ok = true
      /\ exists g,
          lgw_cnt2gps local_ref (rx_count_us p) = Some g
          /\ double_to_int 0 (2 ^ 64 - 1)
               (d_add (d_mul (d_of_Z (tv_sec g)) (d_of_Z 1000))
                      (d_div (d_of_Z (tv_nsec g)) (d_of_Z 1000000))) = None in
    match serialize_rxpk fc ref_ok local_ref pkt_in_dgram p m with
    | Done (None, _) => ~ to_forward
    | Done (Some _, _) => to_forward /\ ~ gps_ms_undefined /\ fields_known
    | ExitFailure => to_forward /\ ~ gps_ms_undefined /\ ~ fields_known
    | Undefined => to_forward /\ gps_ms_undefined
    end.
Proof.
  intros D ops hal gl ul fc ref_ok local_ref n p m Hfmt Hb64 H12 H13 H23 Hmod.
  cbv zeta.
  pose proof (rx_filter_passes fc p m H12 H13 H23) as Hpass.
  pose proof (rx_filter_passes fc p meas_zero H12 H13 H23) as Hpass0.
  pose proof (rx_fields_known_iff p Hmod) as Hknown.
  unfold serialize_rxpk.
  destruct (rx_filter fc p m) as [fw m1]. cbn [fst] in Hpass.
  destruct fw; cbn [negb].
  2:{ intros Hf. apply Hpass in Hf. discriminate. }
  assert (Hfw : rx_forwardable fc p = true) by (apply Hpass0, Hpass; reflexivity).
  assert (Hto := proj1 Hpass eq_refl).
  rewrite !(put_fmt_done Hfmt). cbn [run_bind].
  assert (Htime : ((exists s, (if ref_ok then put_rx_time local_ref p
                               else Done EmptyString) = Done s)
                   /\ ~ (ref_ok = true
                         /\ exists g,
                             lgw_cnt2gps local_ref (rx_count_us p) = Some g
                             /\ double_to_int 0 (2 ^ 64 - 1)
                                  (d_add (d_mul (d_of_Z (tv_sec g)) (d_of_Z 1000))
                                         (d_div (d_of_Z (tv_nsec g)) (d_of_Z 1000000)))
                                = None))
                  \/ ((if ref_ok then put_rx_time local_ref p
                       else Done EmptyString) = Undefined
                      /\ ref_ok = true
                      /\ exists g,
                          lgw_cnt2gps local_ref (rx_count_us p) = Some g
                          /\ double_to_int 0 (2 ^ 64 - 1)
                               (d_add (d_mul (d_of_Z (tv_sec g)) (d_of_Z 1000))
                                      (d_div (d_of_Z (tv_nsec g)) (d_of_Z 1000000)))
                             = None)).
  { destruct ref_ok.
    - destruct (put_rx_time_undefined Hfmt local_ref p) as [[Hs Hn]|[Hu Hg]].
      + left. split; [exact Hs|]. intros [_ Hg]. exact (Hn Hg).
      + right. split; [exact Hu|]. split; [reflexivity | exact Hg].
    - left. split; [eexists; reflexivity|]. intros [Hr _]. discriminate. }
  destruct Htime as [[[s Hs] Hnu] | (Hu & Hr & Hg)].
  2:{ rewrite Hu. cbn [run_bind]. split; [exact Hto|]. split; [exact Hr | exact Hg]. }
  rewrite Hs. cbn [run_bind].
  assert (Hft : exists s, (if rx_ftime_received p
                           then Done (snd (snprintf (fmt_ftime (rx_ftime p))))
                           else Done EmptyString) = Done s :> run string).
  { destruct (rx_ftime_received p); eexists; reflexivity. }
  destruct Hft as [sf Hsf]. rewrite Hsf. cbn [run_bind].
  destruct (put_rx_status_done fc p Hfw) as [ss Hss]. rewrite Hss. cbn [run_bind].
  destruct (put_rx_modulation_cases Hfmt p) as [[Hk [sm Hsm]] | [Hk Hsm]];
    rewrite Hsm; cbn [run_bind].
  - revert Hb64. destruct (bin_to_b64 (rx_payload p) (rx_size p)) as [j text].
    cbn [fst]. intros Hb64.
    destruct (j >=? 0) eqn:E.
    + cbn [run_bind]. split; [exact Hto|]. split; [exact Hnu|]. apply Hknown, Hk.
    + pose proof (Zge_cases j 0) as Hc. rewrite E in Hc. exfalso. lia.
  - split; [exact Hto|]. split; [exact Hnu|].
    intros Hf. apply Hknown in Hf. congruence.
Qed.

(** The exception is real: with a reference whose GPS time lies before the
    GPS epoch, the milliseconds of the packet of the examples are negative
    and their conversion to [uint64_t] is undefined. *)
Lemma rx_packet_negative_gps_time_undefined :
  serialize_rxpk (hal := sx1302_hal) (gl := linear_gps) (ul := plain_upstream_lib)
    ex_fwd_conf true
    {| tref_systime := 0; tref_count_us := 5000000;
       tref_utc := {| tv_sec := 315963000; tv_nsec := 0 |};
       tref_gps := {| tv_sec := -1000; tv_nsec := 0 |};
       tref_xtal_err := 1%float |}
    0 (ex_rx_pkt 0x10) meas_zero
  = Undefined.
Proof. vm_compute. reflexivity. Qed.

(** The example formatter never returns an empty text. *)
Lemma plain_snprintf_pos {D : Type} {ops : DoubleOps D} (f : up_format D) :
  0 < fst (snprintf (UpstreamLib := plain_upstream_lib) f).
Proof.
  destruct f; cbn [snprintf plain_upstream_lib snprintf_ret fst];
    unfold json_field, quoted, dquote;
    cbn [String.append String.length]; lia.
Qed.

(** The amended statement on the forwarded packet of the counterexample,
    with the GPS reference of the examples in use. *)
Lemma rx_packet_forwarded_skipped_or_exit_witness :
  (exists text m1,
      serialize_rxpk (hal := sx1302_hal) (gl := linear_gps) (ul := plain_upstream_lib)
        ex_fwd_conf true ex_tref 0 (ex_rx_pkt 0x10) meas_zero
      = Done (Some text, m1))
  /\ rx_status (ex_rx_pkt 0x10) = 0x10
  /\ ~ (exists g,
          lgw_cnt2gps (GpsLib := linear_gps) ex_tref (rx_count_us (ex_rx_pkt 0x10))
          = Some g
          /\ double_to_int (D := float) 0 (2 ^ 64 - 1)
               (d_add (d_mul (d_of_Z (tv_sec g)) (d_of_Z 1000))
                      (d_div (d_of_Z (tv_nsec g)) (d_of_Z 1000000))) = None).
Proof.
  assert (Hrun : exists text m1,
             serialize_rxpk (hal := sx1302_hal) (gl := linear_gps)
               (ul := plain_upstream_lib)
               ex_fwd_conf true ex_tref 0 (ex_rx_pkt 0x10) meas_zero
             = Done (Some text, m1)).
  { eexists _, _. cbv -[meas_add meas_zero]. reflexivity. }
  split; [exact Hrun|]. split; [reflexivity|].
  destruct Hrun as (text & m1 & Hrun).
  pose proof (rx_packet_forwarded_skipped_or_exit float _ sx1302_hal linear_gps
                plain_upstream_lib ex_fwd_conf true ex_tref 0 (ex_rx_pkt 0x10)
                meas_zero plain_snprintf_pos ltac:(cbn; lia) ltac:(cbn; lia)
                ltac:(cbn; lia) ltac:(cbn; lia) ltac:(cbn; lia)) as H.
  cbv zeta in H. rewrite Hrun in H. destruct H as (_ & Hnu & _).
  intros Hg. apply Hnu. split; [reflexivity | exact Hg].
Defined.

(* ---------------------------------------------------------------------- *)
(** ** TX power against the gain table *)

(** The search loop keeps the first closest entry seen so far. *)
Lemma lut_search_spec rf_power :
  forall entries pre bi bm,
    - 128 <= rf_power <= 127 ->
    Forall (fun p => - 128 <= p <= 127) (pre ++ entries) ->
    (bi = -1 /\ (forall p, In p pre -> rf_power < p))
    \/ (0 <= bi < Z.of_nat (length pre)
        /\ 0 <= bm
        /\ closest_lower rf_power pre (rf_power - bm)
        /\ nth (Z.to_nat bi) pre 0 = rf_power - bm) ->
    let '(bi', bm') :=
      lut_search rf_power entries (Z.of_nat (length pre)) bi bm in
    (bi' = -1 /\ (forall p, In p (pre ++ entries) -> rf_power < p))
    \/ (0 <= bi' < Z.of_nat (length (pre ++ entries))
        /\ 0 <= bm'
        /\ closest_lower rf_power (pre ++ entries) (rf_power - bm')
        /\ nth (Z.to_nat bi') (pre ++ entries) 0 = rf_power - bm').
Proof.
  induction entries as [|p entries IH]; intros pre bi bm Hr Hall Hinv.
  - cbn [lut_search]. rewrite app_nil_r. exact Hinv.
  - cbn [lut_search].
    assert (Hp : - 128 <= p <= 127).
    { rewrite Forall_forall in Hall. apply Hall. apply in_or_app. right. left. reflexivity. }
    assert (Hlen : Z.of_nat (length pre) + 1 = Z.of_nat (length (pre ++ [p]))).
    { rewrite length_app. cbn [length]. lia. }
    assert (Happ : pre ++ p :: entries = (pre ++ [p]) ++ entries).
    { rewrite <- app_assoc. reflexivity. }
    rewrite Hlen, Happ. rewrite Happ in Hall.
    destruct (rf_power - p <? 0) eqn:Hneg.
    + (* entry above the request: skipped *)
      apply Z.ltb_lt in Hneg. apply IH; [exact Hr | exact Hall |].
      destruct Hinv as [[Hbi Hnone] | (Hbi & Hbm & (Hin & Hle & Hmax) & Hnth)].
      * left. split; [exact Hbi|]. intros p' Hp'. apply in_app_or in Hp'.
        destruct Hp' as [Hp'|[Hp'|[]]]; [apply Hnone; exact Hp' | subst; lia].
      * right. rewrite length_app. cbn [length]. split; [lia|]. split; [exact Hbm|].
        split.
        -- split; [apply in_or_app; left; exact Hin|]. split; [exact Hle|].
           intros p' Hp' Hle'. apply in_app_or in Hp'.
           destruct Hp' as [Hp'|[Hp'|[]]]; [apply Hmax; assumption | subst; lia].
        -- rewrite app_nth1 by lia. exact Hnth.
    + apply Z.ltb_ge in Hneg.
      assert (Hu : uint8 (rf_power - p) = rf_power - p).
      { unfold uint8, wrap_unsigned. apply Z.mod_small. lia. }
      destruct ((bi =? -1) || (rf_power - p <? bm)) eqn:Htake.
      * (* first candidate, or strictly closer than the best so far *)
        apply IH; [exact Hr | exact Hall |].
        right. rewrite length_app. cbn [length]. split; [lia|]. rewrite Hu.
        split; [lia|]. replace (rf_power - (rf_power - p)) with p by lia.
        split.
        -- split; [apply in_or_app; right; left; reflexivity|]. split; [lia|].
           intros p' Hp' Hle'. apply in_app_or in Hp'.
           destruct Hp' as [Hp'|[Hp'|[]]]; [|subst; lia].
           apply orb_prop in Htake.
           destruct Hinv as [[Hbi Hnone] | (Hbi & Hbm & (Hin & Hle & Hmax) & Hnth)].
           ++ specialize (Hnone p' Hp'). lia.
           ++ destruct Htake as [Ht|Ht].
              ** apply Z.eqb_eq in Ht. lia.
              ** apply Z.ltb_lt in Ht. specialize (Hmax p' Hp' Hle'). lia.
        -- rewrite Nat2Z.id. rewrite app_nth2 by lia.
           rewrite Nat.sub_diag. reflexivity.
      * (* not closer: the best so far stays *)
        apply orb_false_elim in Htake. destruct Htake as [Hne Hge].
        apply Z.eqb_neq in Hne. apply Z.ltb_ge in Hge.
        apply IH; [exact Hr | exact Hall |].
        destruct Hinv as [[Hbi Hnone] | (Hbi & Hbm & (Hin & Hle & Hmax) & Hnth)];
          [contradiction|].
        right. rewrite length_app. cbn [length]. split; [lia|]. split; [exact Hbm|].
        split.
        -- split; [apply in_or_app; left; exact Hin|]. split; [exact Hle|].
           intros p' Hp' Hle'. apply in_app_or in Hp'.
           destruct Hp' as [Hp'|[Hp'|[]]]; [apply Hmax; assumption | subst; lia].
        -- rewrite app_nth1 by lia. exact Hnth.
Qed.

(** [get_tx_gain_lut_index]: index of the closest power not above the
    request, or failure with index 0 when every entry is above it. *)
Lemma get_tx_gain_lut_index_spec lut rf_power :
  - 128 <= rf_power <= 127 ->
  Forall (fun p => - 128 <= p <= 127) (lut_in_use lut) ->
  (length (lut_in_use lut) <= 256)%nat ->
  let '(i, idx) := get_tx_gain_lut_index lut rf_power in
  (i = -1 /\ idx = 0 /\ forall p, In p (lut_in_use lut) -> rf_power < p)
  \/ (i = 0 /\ 0 <= idx < Z.of_nat (length (lut_in_use lut))
      /\ closest_lower rf_power (lut_in_use lut) (nth (Z.to_nat idx) (lut_in_use lut) 0)).
Proof.
  intros Hr Hall Hlen. unfold get_tx_gain_lut_index. fold (lut_in_use lut).
  pose proof (lut_search_spec rf_power (lut_in_use lut) [] (-1) 0xFF Hr Hall) as Hs.
  cbn [length app Z.of_nat] in Hs.
  destruct (lut_search rf_power (lut_in_use lut) 0 (-1) 0xFF) as [bi bm].
  destruct Hs as [[Hbi Hnone] | (Hbi & Hbm & Hcl & Hnth)].
  - left. split; [reflexivity|]. intros p Hp. destruct Hp.
  - subst bi. cbn. left. repeat split. exact Hnone.
  - assert (Hgt : (bi >? -1) = true) by (apply Z.gtb_lt; lia).
    rewrite Hgt. right.
    assert (Hu : uint8 bi = bi).
    { unfold uint8, wrap_unsigned. apply Z.mod_small. lia. }
    rewrite Hu. split; [reflexivity|]. split; [exact Hbi|].
    rewrite Hnth. exact Hcl.
Qed.

Lemma nth_firstn_lt {A : Type} (l : list A) (d : A) :
  forall n i, (i < n)%nat -> nth i (firstn n l) d = nth i l d.
Proof.
  induction l as [|x l IH]; intros n i Hi.
  - rewrite firstn_nil. reflexivity.
  - destruct n as [|n]; [lia|]. destruct i as [|i]; [reflexivity|].
    cbn. apply IH. lia.
Qed.

(** The power check on a request without an exact match: a warning, and
    the power of the closest lower entry, or of entry 0 when every entry in
    use is above the request. *)
Lemma check_tx_power_no_match lut txpkt :
  - 128 <= rf_power txpkt <= 127 ->
  Forall (fun p => - 128 <= p <= 127) (lut_in_use lut) ->
  (length (lut_in_use lut) <= 256)%nat ->
  ~ In (rf_power txpkt) (lut_in_use lut) ->
  exists N,
    check_tx_power lut txpkt = (set_rf_power N txpkt, JIT_ERROR_TX_POWER, N)
    /\ (closest_lower (rf_power txpkt) (lut_in_use lut) N
        \/ ((forall p, In p (lut_in_use lut) -> rf_power txpkt < p)
            /\ N = nth 0 (lut_rf_power lut) 0)).
Proof.
  intros Hr Hall Hlen Hno. unfold check_tx_power.
  pose proof (get_tx_gain_lut_index_spec lut (rf_power txpkt) Hr Hall Hlen) as Hs.
  destruct (get_tx_gain_lut_index lut (rf_power txpkt)) as [i idx].
  destruct Hs as [(Hi & Hidx & Habove) | (Hi & Hidx & Hcl)]; subst i.
  - subst idx. cbn [Z.ltb Z.compare orb Z.to_nat].
    exists (nth 0 (lut_rf_power lut) 0). split; [reflexivity|].
    right. split; [exact Habove | reflexivity].
  - assert (Hnth : nth (Z.to_nat idx) (lut_in_use lut) 0
                   = nth (Z.to_nat idx) (lut_rf_power lut) 0).
    { unfold lut_in_use. apply nth_firstn_lt.
      unfold lut_in_use in Hidx. rewrite length_firstn in Hidx. lia. }
    rewrite Hnth in Hcl.
    set (N := nth (Z.to_nat idx) (lut_rf_power lut) 0) in *.
    assert (Hne : (N =? rf_power txpkt) = false).
    { apply Z.eqb_neq. intros Heq. apply Hno. rewrite <- Heq. apply Hcl. }
    rewrite Hne. cbn [Z.ltb Z.compare orb negb].
    exists N. split; [reflexivity|]. left. exact Hcl.
Qed.

(** C4, as stated, fails twice. A request of 5 dBm against a table
    supporting 7, 10 and 14 dBm is sent at 7 dBm, above the request, with
    [value] 7. A request of 12 dBm whose packet the JIT queue refuses is
    not transmitted and its TX_ACK carries the error of the queue, not the
    TX_POWER warning. *)
Lemma tx_power_fallback_not_always_lower :
  (exists st,
      thread_down_enqueue (jq := ex_jit) ex_down_conf ex_down_env 100 0xAB 0xCD
        (ex_txpkt 5) JIT_PKT_TYPE_DOWNLINK_CLASS_A ex_down_state
      = Done (st,
              [tx_ack_prefix 0x01020304 0x05060708 0xAB 0xCD
                 ++ bytes_of_string
                      ("{" ++ quoted "txpk_ack" ++ ":{" ++ quoted "warn" ++ ":"
                           ++ quoted "TX_POWER" ++ "," ++ quoted "value" ++ ":7}}")])
      /\ jit_queue st
         = [[(set_rf_power 7 (ex_txpkt 5), JIT_PKT_TYPE_DOWNLINK_CLASS_A)]; []]
      /\ ~ 7 <= rf_power (ex_txpkt 5))
  /\ (exists st,
         thread_down_enqueue (jq := ex_jit_full) ex_down_conf ex_down_env 100 0xAB 0xCD
           (ex_txpkt 12) JIT_PKT_TYPE_DOWNLINK_CLASS_A ex_down_state
         = Done (st,
                 [tx_ack_prefix 0x01020304 0x05060708 0xAB 0xCD
                    ++ bytes_of_string
                         ("{" ++ quoted "txpk_ack" ++ ":{" ++ quoted "error" ++ ":"
                              ++ quoted "COLLISION_PACKET" ++ "}}")])
         /\ jit_queue st = [[]; []]).
Proof.
  split.
  - eexists. split; [cbv -[meas_add meas_zero]; reflexivity|].
    split; [reflexivity|]. cbn. lia.
  - eexists. split; [cbv -[meas_add meas_zero]; reflexivity|]. reflexivity.
Qed.

(** C4, amended. For every parsed downlink whose frequency is inside the
    band of its RF chain and whose requested power has no exact match among
    the entries in use of the chain's gain table: the descriptor's power is
    replaced by [N], the closest table power not above the request, or the
    power of entry 0 when every entry is above the request; the descriptor
    with power [N] is what is offered to the JIT queue; if the queue accepts
    it, the TX_ACK echoes the token with the body
    [{"txpk_ack":{"warn":"TX_POWER","value":N}}]; if the queue refuses it,
    the TX_ACK is the one of the queue's error. *)
Theorem tx_power_fallback_warning :
  forall (D J : Type) (jq : JitQueue J) (cfg : down_conf) (e : down_env D)
         msg_len ack_h ack_l txpkt downlink_type (st : down_state J)
         fmin fmax lut q,
    let chain := Z.to_nat (rf_chain txpkt) in
    nth_error (tx_freq_min cfg) chain = Some fmin ->
    nth_error (tx_freq_max cfg) chain = Some fmax ->
    nth_error (txlut cfg) chain = Some lut ->
    nth_error (jit_queue st) chain = Some q ->
    fmin <= freq_hz txpkt <= fmax ->
    - 128 <= rf_power txpkt <= 127 ->
    Forall (fun p => - 128 <= p <= 127) (lut_in_use lut) ->
    (length (lut_in_use lut) <= 256)%nat ->
    ~ In (rf_power txpkt) (lut_in_use lut) ->
    exists N,
      (closest_lower (rf_power txpkt) (lut_in_use lut) N
       \/ ((forall p, In p (lut_in_use lut) -> rf_power txpkt < p)
           /\ N = nth 0 (lut_rf_power lut) 0))
      /\ forall jit_result q' pkt',
          jit_enqueue q (down_instcnt e) (set_rf_power N txpkt) downlink_type
          = (jit_result, q', pkt') ->
          exists st' ack,
            thread_down_enqueue cfg e msg_len ack_h ack_l txpkt downlink_type st
            = Done (st', [ack])
            /\ jit_queue st' = list_set chain q' (jit_queue st)
            /\ (jit_result = JIT_ERROR_OK ->
                ack = tx_ack_prefix (net_mac_h (gateway_mac cfg))
                                    (net_mac_l (gateway_mac cfg)) ack_h ack_l
                        ++ bytes_of_string
                             ("{" ++ quoted "txpk_ack" ++ ":{" ++ quoted "warn" ++ ":"
                                  ++ quoted "TX_POWER" ++ "," ++ quoted "value" ++ ":"
                                  ++ fmt_d N ++ "}}"))
            /\ (jit_result <> JIT_ERROR_OK ->
                forall m, ack = fst (send_tx_ack (gateway_mac cfg) ack_h ack_l
                                                 jit_result N m)).
Proof.
  intros D J jq cfg e msg_len ack_h ack_l txpkt ty st fmin fmax lut q chain
         Hmin Hmax Hlut Hq Hfreq Hr Hall Hlen Hno.
  destruct (check_tx_power_no_match lut txpkt Hr Hall Hlen Hno) as (N & Hchk & HN).
  exists N. split; [exact HN|].
  intros jit_result q' pkt' Henq.
  unfold thread_down_enqueue. fold chain. rewrite Hmin, Hmax.
  assert (Hband : (freq_hz txpkt <? fmin) || (freq_hz txpkt >? fmax) = false).
  { apply orb_false_intro; [apply Z.ltb_ge; lia|].
    pose proof (Zgt_cases (freq_hz txpkt) fmax) as Hc.
    destruct (freq_hz txpkt >? fmax); [lia | reflexivity]. }
  rewrite Hband, Hlut, Hq, Hchk, Henq.
  destruct jit_result; cbn [send_tx_ack tx_ack_json tx_ack_type tx_ack_key tx_ack_value];
    eexists _, _; (split; [reflexivity|]); (split; [reflexivity|]);
    (split; [intros Hok; try discriminate; reflexivity
            |intros Hne m; try contradiction; reflexivity]).
Qed.

(** The theorem on the request of 12 dBm against the table supporting 7,
    10 and 14 dBm, the queue accepting the packet: sent at 10 dBm, with
    [value] 10. *)
Lemma tx_power_fallback_warning_witness :
  exists st,
    thread_down_enqueue (jq := ex_jit) ex_down_conf ex_down_env 100 0xAB 0xCD
      (ex_txpkt 12) JIT_PKT_TYPE_DOWNLINK_CLASS_A ex_down_state
    = Done (st,
            [tx_ack_prefix 0x01020304 0x05060708 0xAB 0xCD
               ++ bytes_of_string
                    ("{" ++ quoted "txpk_ack" ++ ":{" ++ quoted "warn" ++ ":"
                         ++ quoted "TX_POWER" ++ "," ++ quoted "value" ++ ":10}}")])
    /\ jit_queue st
       = [[(set_rf_power 10 (ex_txpkt 12), JIT_PKT_TYPE_DOWNLINK_CLASS_A)]; []].
Proof.
  destruct (tx_power_fallback_warning float _ ex_jit ex_down_conf ex_down_env
              100 0xAB 0xCD (ex_txpkt 12) JIT_PKT_TYPE_DOWNLINK_CLASS_A ex_down_state
              863000000 870000000 ex_lut [] eq_refl eq_refl eq_refl eq_refl)
    as (N & HN & Hrun).
  - cbn. lia.
  - cbn. lia.
  - change (lut_in_use ex_lut) with [7; 10; 14]. repeat constructor; lia.
  - change (lut_in_use ex_lut) with [7; 10; 14]. cbn. lia.
  - change (lut_in_use ex_lut) with [7; 10; 14]. cbn.
    intros H. repeat (destruct H as [H|H]; [discriminate|]). exact H.
  - assert (HN10 : N = 10).
    { destruct HN as [(Hin & Hle & Hmax) | (Habove & _)].
      - change (lut_in_use ex_lut) with [7; 10; 14] in Hin, Hmax.
        cbn in Hin, Hmax, Hle.
        destruct Hin as [Hin|[Hin|[Hin|[]]]]; subst N.
        + specialize (Hmax 10 ltac:(right; left; reflexivity) ltac:(lia)). lia.
        + reflexivity.
        + lia.
      - change (lut_in_use ex_lut) with [7; 10; 14] in Habove.
        specialize (Habove 7 ltac:(left; reflexivity)). cbn in Habove. lia. }
    subst N.
    destruct (Hrun JIT_ERROR_OK
                [(set_rf_power 10 (ex_txpkt 12), JIT_PKT_TYPE_DOWNLINK_CLASS_A)]
                (set_rf_power 10 (ex_txpkt 12)) eq_refl)
      as (st' & ack & Hdone & Hqueue & Hok & _).
    exists st'. rewrite Hdone, (Hok eq_refl). split; [reflexivity | exact Hqueue].
Defined.

(* ---------------------------------------------------------------------- *)
(** ** Class B downlinks without a GPS time reference *)

Lemma byte_at_firstn n (l : list Z) :
  forall i, (i < n)%nat -> byte_at (firstn n l) i = byte_at l i.
Proof. intros i Hi. unfold byte_at. apply nth_firstn_lt. exact Hi. Qed.

Section ClassB.
Context {D : Type} {ops : DoubleOps D} {J : Type} {jq : JitQueue J}
        {hal : HalConsts} {gl : GpsLib D} {pl : ParseLib D}.
Variable cfg : down_conf.

(** A request that is neither immediate nor on a counter value, but on a
    GPS time, is rejected as GPS_UNLOCKED when GPS is off or the reference
    is not valid. *)
Lemma parse_tx_time_gps_unlocked (e : down_env D) (txpk_obj : JSON_Object D) txpkt tmms :
  json_object_get_boolean txpk_obj "imme" <> 1 ->
  json_object_get_value txpk_obj "tmst" = None ->
  json_object_get_value txpk_obj "tmms" = Some tmms ->
  gps_enabled cfg = false \/ down_gps_ref_valid e = false ->
  parse_tx_time cfg e txpk_obj txpkt = parsed (TxTimeRejected JIT_ERROR_GPS_UNLOCKED).
Proof.
  intros Himme Htmst Htmms Hgps. unfold parse_tx_time.
  apply Z.eqb_neq in Himme. rewrite Himme, Htmst, Htmms.
  destruct Hgps as [Hoff|Hbad].
  - rewrite Hoff. reflexivity.
  - rewrite Hbad. destruct (gps_enabled cfg); reflexivity.
Qed.

(** A datagram that passes the header test as a PULL_RESP goes to the JSON
    parser with the text after the header, and to the PULL_RESP handling
    with its own token. *)
Lemma thread_down_handle_pull_resp (e : down_env D) dgram (st : down_state J) root_val :
  (4 <= length dgram)%nat ->
  byte_at dgram 0 = PROTOCOL_VERSION ->
  byte_at dgram 3 = PKT_PULL_RESP ->
  json_parse_string_with_comments (c_string (skipn 4 (firstn 999 dgram)))
  = Some root_val ->
  thread_down_handle cfg e (RecvData dgram) st
  = thread_down_pull_resp cfg e (Z.of_nat (length (firstn 999 dgram)))
      (byte_at dgram 1) (byte_at dgram 2) root_val st.
Proof.
  intros Hlen Hv Ht Hparse. unfold thread_down_handle.
  rewrite !byte_at_firstn by lia.
  rewrite Hv, Ht, Hparse.
  assert (Hl : (Z.of_nat (length (firstn 999 dgram)) <? 4) = false).
  { apply Z.ltb_ge. rewrite length_firstn. lia. }
  rewrite Hl. reflexivity.
Qed.

End ClassB.

(** C1. A PULL_RESP whose "txpk" object has neither "imme" nor "tmst" but
    has "tmms", received while GPS is disabled or the GPS time reference is
    not valid, is answered by exactly one datagram: a TX_ACK with the token
    of the PULL_RESP and the body [{"txpk_ack":{"error":"GPS_UNLOCKED"}}];
    the JIT queues, and every downstream counter, are left as they were. *)
Theorem class_b_without_gps_is_rejected :
  forall (D : Type) (ops : DoubleOps D) (J : Type) (jq : JitQueue J)
         (hal : HalConsts) (gl : GpsLib D) (pl : ParseLib D)
         (cfg : down_conf) (e : down_env D) dgram (st : down_state J)
         root_val root_obj txpk_obj tmms,
    (4 <= length dgram)%nat ->
    byte_at dgram 0 = PROTOCOL_VERSION ->
    byte_at dgram 3 = PKT_PULL_RESP ->
    json_parse_string_with_comments (c_string (skipn 4 (firstn 999 dgram)))
    = Some root_val ->
    json_value_get_object root_val = Some root_obj ->
    json_object_get_object root_obj "txpk" = Some txpk_obj ->
    json_object_get_value txpk_obj "imme" = None ->
    json_object_get_value txpk_obj "tmst" = None ->
    json_object_get_value txpk_obj "tmms" = Some tmms ->
    gps_enabled cfg = false \/ down_gps_ref_valid e = false ->
    exists st',
      thread_down_handle cfg e (RecvData dgram) st
      = Done (st',
              [[PROTOCOL_VERSION; byte_at dgram 1; byte_at dgram 2; PKT_TX_ACK]
                 ++ store_uint32 (net_mac_h (gateway_mac cfg))
                 ++ store_uint32 (net_mac_l (gateway_mac cfg))
                 ++ bytes_of_string
                      ("{" ++ quoted "txpk_ack" ++ ":{" ++ quoted "error" ++ ":"
                           ++ quoted "GPS_UNLOCKED" ++ "}}")])
      /\ jit_queue st' = jit_queue st
      /\ down_meas st' = down_meas st
      /\ req_ack st' = req_ack st
      /\ autoquit_cnt st' = autoquit_cnt st.
Proof.
  intros D ops J jq hal gl pl cfg e dgram st root_val root_obj txpk_obj tmms
         Hlen Hv Ht Hparse Hroot Htxpk Himme Htmst Htmms Hgps.
  rewrite (thread_down_handle_pull_resp cfg e dgram st root_val Hlen Hv Ht Hparse).
  unfold thread_down_pull_resp. rewrite Hroot, Htxpk.
  rewrite (parse_tx_time_gps_unlocked cfg e txpk_obj txpkt_zero tmms);
    [|unfold json_object_get_boolean; rewrite Himme; discriminate
     |exact Htmst | exact Htmms | exact Hgps].
  unfold parsed. cbn [send_tx_ack tx_ack_json tx_ack_type tx_ack_key tx_ack_value].
  eexists. split; [reflexivity|]. repeat split.
Qed.

(** The theorem on a Class B request received with the reference not
    valid. *)
Lemma class_b_without_gps_is_rejected_witness :
  exists st',
    thread_down_handle (jq := ex_jit) (hal := sx1302_hal) (gl := linear_gps)
      (pl := fixed_parse_lib (Some ex_class_b_json) (Some (9, 125)) [1; 2; 3; 4])
      ex_down_conf ex_down_env (RecvData ex_pull_resp) ex_down_state
    = Done (st',
            [[2; 0xAB; 0xCD; 5; 4; 3; 2; 1; 8; 7; 6; 5]
               ++ bytes_of_string
                    ("{" ++ quoted "txpk_ack" ++ ":{" ++ quoted "error" ++ ":"
                         ++ quoted "GPS_UNLOCKED" ++ "}}")])
    /\ jit_queue st' = [[]; []].
Proof.
  destruct (class_b_without_gps_is_rejected float _ _ ex_jit sx1302_hal linear_gps
              (fixed_parse_lib (Some ex_class_b_json) (Some (9, 125)) [1; 2; 3; 4])
              ex_down_conf ex_down_env ex_pull_resp ex_down_state
              ex_class_b_json _ _ (JSONNumber 1280000128000%float)
              ltac:(cbn; lia) eq_refl eq_refl eq_refl eq_refl eq_refl
              eq_refl eq_refl eq_refl (or_intror eq_refl))
    as (st' & Hrun & Hq & _).
  exists st'. split; [exact Hrun | exact Hq].
Defined.

(** A whole Class A request run through the handler: 12 dBm asked against
    the table supporting 7, 10 and 14 dBm, queued at 10 dBm and
    acknowledged with the warning. *)
Example class_a_downlink_run :
  exists st',
    thread_down_handle (jq := ex_jit) (hal := sx1302_hal) (gl := linear_gps)
      (pl := fixed_parse_lib (Some ex_class_a_json) (Some (9, 125)) [1; 2; 3; 4])
      ex_down_conf ex_down_env (RecvData ex_pull_resp) ex_down_state
    = Done (st',
            [[2; 0xAB; 0xCD; 5; 4; 3; 2; 1; 8; 7; 6; 5]
               ++ bytes_of_string
                    ("{" ++ quoted "txpk_ack" ++ ":{" ++ quoted "warn" ++ ":"
                         ++ quoted "TX_POWER" ++ "," ++ quoted "value" ++ ":10}}")])
    /\ jit_queue st'
       = [[({| freq_hz := 869500000; tx_mode := 1; count_us := 9000000;
               rf_chain := 0; rf_power := 10; modulation := 0x10;
               bandwidth := 0x04; datarate := 9; coderate := 1;
               invert_pol := true; f_dev := 0; preamble := 8; no_crc := false;
               no_header := false; size := 4;
               payload := [1; 2; 3; 4] ++ repeat 0 252 |},
            JIT_PKT_TYPE_DOWNLINK_CLASS_A)]; []].
Proof.
  eexists. split; [cbv -[meas_add meas_zero]; reflexivity | reflexivity].
Qed.

(* ====================================================================== *)
(** * Further properties of the embedded code *)

(* ---------------------------------------------------------------------- *)
(** ** [modify_os_time] over a process lifetime *)

Section OsTimeLifetime.
Context {D : Type} {gl : GpsLib D}.


End OsTimeLifetime.



(* ---------------------------------------------------------------------- *)
(** ** [send_tx_ack]: size and shape of the datagram *)

(** X2. Whatever the error, a TX_ACK built for a value in the range of a
    TX power (an [int8_t]) is shorter than the 64 bytes of [buff_ack], so the
    terminator written after it stays inside the buffer; it starts with
    the 12-byte header: version, the token, the type TX_ACK and the gateway
    MAC words. *)
Theorem send_tx_ack_within_buffer :
  forall mac tok_h tok_l error error_value m,
    - 128 <= error_value <= 127 ->
    let dgram := fst (send_tx_ack mac tok_h tok_l error error_value m) in
    Z.of_nat (length dgram) < ACK_BUFF_SIZE
    /\ firstn 12 dgram
       = [PROTOCOL_VERSION; tok_h; tok_l; PKT_TX_ACK]
           ++ store_uint32 (net_mac_h mac) ++ store_uint32 (net_mac_l mac)
    /\ (error = JIT_ERROR_OK -> length dgram = 12%nat).
Proof.
  intros mac tok_h tok_l error error_value m Hv dgram. subst dgram.
  split; [apply send_tx_ack_fits_buffer; exact Hv|]. split.
  - unfold send_tx_ack. destruct (tx_ack_json error error_value m) as [json m'].
    cbn [fst]. unfold tx_ack_prefix, store_uint32. reflexivity.
  - intros He. subst error. reflexivity.
Qed.

Lemma send_tx_ack_within_buffer_witness :
  Z.of_nat (length (fst (send_tx_ack {| net_mac_h := 1; net_mac_l := 2 |} 3 4
                           JIT_ERROR_TX_POWER (- 128) meas_zero))) < ACK_BUFF_SIZE.
Proof.
  exact (proj1 (send_tx_ack_within_buffer {| net_mac_h := 1; net_mac_l := 2 |} 3 4
                  JIT_ERROR_TX_POWER (- 128) meas_zero ltac:(lia))).
Defined.

(* ---------------------------------------------------------------------- *)
(** ** [get_tx_gain_lut_index] and the power check *)

(** X3. With powers in the [int8_t] range, [get_tx_gain_lut_index] fails
    (returns -1, index 0) exactly when every entry in use is above the
    request; otherwise it returns 0 and the index of an entry in use that
    is not above the request and that no other such entry exceeds. *)
Theorem get_tx_gain_lut_index_closest :
  forall lut rf_pow,
    - 128 <= rf_pow <= 127 ->
    Forall (fun p => - 128 <= p <= 127) (lut_in_use lut) ->
    (length (lut_in_use lut) <= 256)%nat ->
    let i := fst (get_tx_gain_lut_index lut rf_pow) in
    let idx := snd (get_tx_gain_lut_index lut rf_pow) in
    (i = -1 \/ i = 0)
    /\ (i = -1 <-> forall p, In p (lut_in_use lut) -> rf_pow < p)
    /\ (i = -1 -> idx = 0)
    /\ (i = 0 ->
        0 <= idx < Z.of_nat (length (lut_in_use lut))
        /\ nth (Z.to_nat idx) (lut_rf_power lut) 0 <= rf_pow
        /\ forall p, In p (lut_in_use lut) -> p <= rf_pow ->
                     p <= nth (Z.to_nat idx) (lut_rf_power lut) 0).
Proof.
  intros lut rf_pow Hr Hall Hlen i idx. subst i idx.
  pose proof (get_tx_gain_lut_index_spec lut rf_pow Hr Hall Hlen) as Hs.
  destruct (get_tx_gain_lut_index lut rf_pow) as [i idx]. cbn [fst snd].
  destruct Hs as [(Hi & Hidx & Habove) | (Hi & Hidx & Hin & Hle & Hmax)]; subst i.
  - split; [left; reflexivity|]. split; [tauto|]. split; [intros _; exact Hidx|].
    discriminate.
  - assert (Hnth : nth (Z.to_nat idx) (lut_in_use lut) 0
                   = nth (Z.to_nat idx) (lut_rf_power lut) 0).
    { unfold lut_in_use. apply nth_firstn_lt.
      unfold lut_in_use in Hidx. rewrite length_firstn in Hidx. lia. }
    rewrite Hnth in *.
    split; [right; reflexivity|]. split; [|split; [discriminate|]].
    + split; [discriminate|]. intros Habove. specialize (Habove _ Hin). lia.
    + intros _. split; [exact Hidx|]. split; [exact Hle | exact Hmax].
Qed.

Lemma get_tx_gain_lut_index_closest_witness :
  get_tx_gain_lut_index ex_lut 12 = (0, 1)
  /\ nth 1 (lut_rf_power ex_lut) 0 <= 12.
Proof.
  pose proof (get_tx_gain_lut_index_closest ex_lut 12 ltac:(lia)
                ltac:(change (lut_in_use ex_lut) with [7; 10; 14];
                      repeat constructor; lia)
                ltac:(change (lut_in_use ex_lut) with [7; 10; 14]; cbn; lia))
    as (_ & _ & _ & H0).
  split; [reflexivity|]. exact (proj1 (proj2 (H0 eq_refl))).
Defined.

(** X4. A requested power that is the power of an entry in use passes the
    power check untouched: no warning, no value, the descriptor as it
    was. *)
Theorem check_tx_power_exact_match :
  forall lut txpkt,
    - 128 <= rf_power txpkt <= 127 ->
    Forall (fun p => - 128 <= p <= 127) (lut_in_use lut) ->
    (length (lut_in_use lut) <= 256)%nat ->
    In (rf_power txpkt) (lut_in_use lut) ->
    check_tx_power lut txpkt = (txpkt, JIT_ERROR_OK, 0).
Proof.
  intros lut txpkt Hr Hall Hlen Hin. unfold check_tx_power.
  pose proof (get_tx_gain_lut_index_spec lut (rf_power txpkt) Hr Hall Hlen) as Hs.
  destruct (get_tx_gain_lut_index lut (rf_power txpkt)) as [i idx].
  destruct Hs as [(Hi & Hidx & Habove) | (Hi & Hidx & Hin' & Hle & Hmax)]; subst i.
  - specialize (Habove _ Hin). lia.
  - assert (Hnth : nth (Z.to_nat idx) (lut_in_use lut) 0
                   = nth (Z.to_nat idx) (lut_rf_power lut) 0).
    { unfold lut_in_use. apply nth_firstn_lt.
      unfold lut_in_use in Hidx. rewrite length_firstn in Hidx. lia. }
    rewrite Hnth in *. specialize (Hmax _ Hin ltac:(lia)).
    assert (Heq : nth (Z.to_nat idx) (lut_rf_power lut) 0 = rf_power txpkt) by lia.
    rewrite Heq, Z.eqb_refl. reflexivity.
Qed.

Lemma check_tx_power_exact_match_witness :
  check_tx_power ex_lut (ex_txpkt 14) = (ex_txpkt 14, JIT_ERROR_OK, 0).
Proof.
  apply (check_tx_power_exact_match ex_lut (ex_txpkt 14)).
  - cbn. lia.
  - change (lut_in_use ex_lut) with [7; 10; 14]. repeat constructor; lia.
  - change (lut_in_use ex_lut) with [7; 10; 14]. cbn. lia.
  - change (lut_in_use ex_lut) with [7; 10; 14]. cbn. tauto.
Defined.

(* ---------------------------------------------------------------------- *)
(** ** [thread_down]: what one datagram can do *)

Lemma list_set_length {A : Type} (x : A) (l : list A) :
  forall i, length (list_set i x l) = length l.
Proof.
  induction l as [|y l IH]; intros i; [destruct i; reflexivity|].
  destruct i as [|i]; cbn; [reflexivity | now rewrite IH].
Qed.

Lemma send_tx_ack_datagram mac tok_h tok_l error error_value m :
  fst (send_tx_ack mac tok_h tok_l error error_value m)
  = tx_ack_prefix (net_mac_h mac) (net_mac_l mac) tok_h tok_l
      ++ bytes_of_string (fst (tx_ack_json error error_value m)).
Proof.
  unfold send_tx_ack. destruct (tx_ack_json error error_value m). reflexivity.
Qed.

Section DownDatagram.
Context {D : Type} {ops : DoubleOps D} {J : Type} {jq : JitQueue J}
        {hal : HalConsts} {gl : GpsLib D} {pl : ParseLib D}.
Variable cfg : down_conf.

(** Whatever [thread_down_enqueue] does, it answers with one TX_ACK for the
    token it was given and keeps the token, the acknowledgement flag and
    the number of queues. *)
Lemma thread_down_enqueue_shape (e : down_env D) msg_len ack_h ack_l txpkt ty
      (st st' : down_state J) out :
  thread_down_enqueue cfg e msg_len ack_h ack_l txpkt ty st = Done (st', out) ->
  token_h st' = token_h st /\ token_l st' = token_l st
  /\ req_ack st' = req_ack st /\ autoquit_cnt st' = autoquit_cnt st
  /\ length (jit_queue st') = length (jit_queue st)
  /\ exists json,
      out = [tx_ack_prefix (net_mac_h (gateway_mac cfg)) (net_mac_l (gateway_mac cfg))
               ack_h ack_l ++ json].
Proof.
  unfold thread_down_enqueue.
  destruct (nth_error (tx_freq_min cfg) _) as [fmin|]; [|discriminate].
  destruct (nth_error (tx_freq_max cfg) _) as [fmax|]; [|discriminate].
  destruct ((freq_hz txpkt <? fmin) || (freq_hz txpkt >? fmax)).
  - match goal with
    | |- context [send_tx_ack ?a ?b ?c ?d ?v ?m] =>
        pose proof (send_tx_ack_datagram a b c d v m) as Hd;
        destruct (send_tx_ack a b c d v m) as [dgram m1]
    end.
    cbn [fst] in Hd. intros Hs. inversion Hs; subst.
    repeat (split; [reflexivity|]). eexists. reflexivity.
  - destruct (nth_error (txlut cfg) _) as [lut|]; [|discriminate].
    destruct (nth_error (jit_queue st) _) as [q|]; [|discriminate].
    destruct (check_tx_power lut txpkt) as [[txpkt1 wr] wv].
    destruct (jit_enqueue q (down_instcnt e) txpkt1 ty) as [[jr q'] p'].
    match goal with
    | |- context [send_tx_ack ?a ?b ?c ?d ?v ?m] =>
        pose proof (send_tx_ack_datagram a b c d v m) as Hd;
        destruct (send_tx_ack a b c d v m) as [dgram m1]
    end.
    cbn [fst] in Hd. intros Hs. inversion Hs; subst.
    cbn [token_h token_l req_ack autoquit_cnt jit_queue set_down_meas set_jit_queue].
    repeat (split; [reflexivity|]).
    split; [apply list_set_length|]. eexists. reflexivity.
Qed.

Lemma thread_down_pull_resp_shape (e : down_env D) msg_len ack_h ack_l root_val
      (st st' : down_state J) out :
  thread_down_pull_resp cfg e msg_len ack_h ack_l root_val st = Done (st', out) ->
  (out = [] /\ st' = st)
  \/ (token_h st' = token_h st /\ token_l st' = token_l st
      /\ req_ack st' = req_ack st /\ autoquit_cnt st' = autoquit_cnt st
      /\ length (jit_queue st') = length (jit_queue st)
      /\ exists json,
          out = [tx_ack_prefix (net_mac_h (gateway_mac cfg))
                   (net_mac_l (gateway_mac cfg)) ack_h ack_l ++ json]).
Proof.
  unfold thread_down_pull_resp.
  destruct (match json_value_get_object root_val with
            | Some o => json_object_get_object o "txpk"
            | None => None
            end) as [txpk_obj|].
  2:{ intros Hs. inversion Hs. left. split; reflexivity. }
  destruct (parse_tx_time cfg e txpk_obj txpkt_zero) as [[[t|error]|]| |];
    try discriminate.
  - destruct (parse_txpk_fields cfg txpk_obj t) as [[txpkt|]| |]; try discriminate.
    + intros Hs. right. exact (thread_down_enqueue_shape _ _ _ _ _ _ _ _ _ Hs).
    + intros Hs. inversion Hs. left. split; reflexivity.
  - match goal with
    | |- context [send_tx_ack ?a ?b ?c ?d ?v ?m] =>
        pose proof (send_tx_ack_datagram a b c d v m) as Hd;
        destruct (send_tx_ack a b c d v m) as [dgram m1]
    end.
    cbn [fst] in Hd. intros Hs. inversion Hs; subst. right.
    repeat (split; [reflexivity|]). eexists. reflexivity.
  - intros Hs. inversion Hs. left. split; reflexivity.
Qed.

Lemma thread_down_handle_header (dgram : list Z) :
  (Z.of_nat (length (firstn 999 dgram)) <? 4) = false ->
  (4 <= length dgram)%nat
  /\ forall i, (i < 4)%nat -> byte_at (firstn 999 dgram) i = byte_at dgram i.
Proof.
  intros Hl. apply Z.ltb_ge in Hl. rewrite length_firstn in Hl.
  split; [lia|]. intros i Hi. apply byte_at_firstn. lia.
Qed.

End DownDatagram.

(** The cases of the handling of what [recv] returned: nothing happens,
    a PULL_ACK is taken, or a PULL_RESP is answered. *)
Lemma thread_down_handle_cases :
  forall (D : Type) (ops : DoubleOps D) (J : Type) (jq : JitQueue J)
         (hal : HalConsts) (gl : GpsLib D) (pl : ParseLib D)
         (cfg : down_conf) (e : down_env D) r (st st' : down_state J) out,
    thread_down_handle cfg e r st = Done (st', out) ->
    token_h st' = token_h st /\ token_l st' = token_l st
    /\ length (jit_queue st') = length (jit_queue st)
    /\ ((out = []
         /\ (st' = st
             \/ (req_ack st = false
                 /\ (exists dgram, r = RecvData dgram
                                   /\ is_pull_ack_for (token_h st) (token_l st) dgram)
                 /\ st' = {| token_h := token_h st; token_l := token_l st;
                             req_ack := true; autoquit_cnt := 0;
                             jit_queue := jit_queue st;
                             down_meas := meas_add meas_dw_ack_rcv 1 (down_meas st) |})))
        \/ (exists dgram json,
               r = RecvData dgram
               /\ (4 <= length dgram)%nat
               /\ byte_at dgram 0 = PROTOCOL_VERSION
               /\ byte_at dgram 3 = PKT_PULL_RESP
               /\ req_ack st' = req_ack st /\ autoquit_cnt st' = autoquit_cnt st
               /\ out = [[PROTOCOL_VERSION; byte_at dgram 1; byte_at dgram 2; PKT_TX_ACK]
                           ++ store_uint32 (net_mac_h (gateway_mac cfg))
                           ++ store_uint32 (net_mac_l (gateway_mac cfg))
                           ++ json])).
Proof.
  intros D ops J jq hal gl pl cfg e r st st' out.
  unfold thread_down_handle.
  destruct r as [eagain|dgram].
  { intros Hs. inversion Hs; subst. repeat (split; [reflexivity|]).
    left. split; [reflexivity | left; reflexivity]. }
  destruct (Z.of_nat (length (firstn 999 dgram)) <? 4) eqn:Hlen; cbn [orb].
  { intros Hs. inversion Hs; subst. repeat (split; [reflexivity|]).
    left. split; [reflexivity | left; reflexivity]. }
  destruct (thread_down_handle_header dgram Hlen) as [Hl Hb].
  rewrite !Hb by lia.
  destruct (byte_at dgram 0 =? PROTOCOL_VERSION) eqn:Hv; cbn [negb orb].
  2:{ intros Hs. inversion Hs; subst. repeat (split; [reflexivity|]).
      left. split; [reflexivity | left; reflexivity]. }
  destruct (byte_at dgram 3 =? PKT_PULL_RESP) eqn:Hresp; cbn [negb andb].
  - apply Z.eqb_eq in Hresp, Hv. rewrite Hresp.
    change (PKT_PULL_RESP =? PKT_PULL_ACK) with false. cbv iota.
    destruct (json_parse_string_with_comments _) as [root_val|].
    2:{ intros Hs. inversion Hs; subst. repeat (split; [reflexivity|]).
        left. split; [reflexivity | left; reflexivity]. }
    intros Hs.
    destruct (thread_down_pull_resp_shape cfg _ _ _ _ _ _ _ _ Hs)
      as [[Ho Hst] | (Hth & Htl & Hra & Hac & Hq & json & Ho)].
    + subst. repeat (split; [reflexivity|]).
      left. split; [reflexivity | left; reflexivity].
    + split; [exact Hth|]. split; [exact Htl|]. split; [exact Hq|].
      right. exists dgram, json. repeat (split; [assumption || reflexivity|]).
      rewrite Ho. unfold tx_ack_prefix. rewrite <- !app_assoc. reflexivity.
  - destruct (byte_at dgram 3 =? PKT_PULL_ACK) eqn:Hack; cbn [negb].
    2:{ intros Hs. inversion Hs; subst. repeat (split; [reflexivity|]).
        left. split; [reflexivity | left; reflexivity]. }
    destruct ((byte_at dgram 1 =? token_h st) && (byte_at dgram 2 =? token_l st))
      eqn:Htok.
    2:{ intros Hs. inversion Hs; subst. repeat (split; [reflexivity|]).
        left. split; [reflexivity | left; reflexivity]. }
    destruct (req_ack st) eqn:Hreq.
    + intros Hs. inversion Hs; subst. repeat (split; [reflexivity|]).
      left. split; [reflexivity | left; reflexivity].
    + intros Hs. inversion Hs; subst. cbn [token_h token_l jit_queue].
      repeat (split; [reflexivity|]).
      left. split; [reflexivity|]. right. split; [reflexivity|].
      split; [|reflexivity].
      exists dgram. split; [reflexivity|].
      apply andb_prop in Htok. destruct Htok as [H1 H2].
      apply Z.eqb_eq in H1, H2, Hack, Hv.
      repeat split; assumption.
Qed.


(** X5. The handling of whatever [recv] returned on the downstream socket
    never changes the token of the pending PULL_DATA nor the number of JIT
    queues, and sends at most one datagram. What it sends is a TX_ACK for
    a PULL_RESP just received: protocol version, the token of that
    PULL_RESP, type 5 and the gateway MAC. When it sends nothing, no JIT
    queue and no counter has changed, except that a PULL_ACK taken for the
    pending PULL_DATA is counted in [meas_dw_ack_rcv]. So every change to a
    JIT queue, and every change to a counter other than [meas_dw_ack_rcv],
    is acknowledged to the server. *)
Theorem thread_down_handle_acknowledges :
  forall (D : Type) (ops : DoubleOps D) (J : Type) (jq : JitQueue J)
         (hal : HalConsts) (gl : GpsLib D) (pl : ParseLib D)
         (cfg : down_conf) (e : down_env D) r (st st' : down_state J) out,
    thread_down_handle cfg e r st = Done (st', out) ->
    token_h st' = token_h st /\ token_l st' = token_l st
    /\ length (jit_queue st') = length (jit_queue st)
    /\ (length out <= 1)%nat
    /\ (forall d, In d out ->
                  exists dgram json,
                    r = RecvData dgram
                    /\ byte_at dgram 0 = PROTOCOL_VERSION
                    /\ byte_at dgram 3 = PKT_PULL_RESP
                    /\ d = [PROTOCOL_VERSION; byte_at dgram 1; byte_at dgram 2;
                            PKT_TX_ACK]
                             ++ store_uint32 (net_mac_h (gateway_mac cfg))
                             ++ store_uint32 (net_mac_l (gateway_mac cfg))
                             ++ json)
    /\ (out = [] ->
        jit_queue st' = jit_queue st
        /\ (forall v, v <> meas_dw_ack_rcv -> down_meas st' v = down_meas st v)
        /\ (down_meas st' meas_dw_ack_rcv = down_meas st meas_dw_ack_rcv
            \/ (req_ack st = false /\ req_ack st' = true /\ autoquit_cnt st' = 0
                /\ down_meas st' meas_dw_ack_rcv
                   = uint32 (down_meas st meas_dw_ack_rcv + 1)))).
Proof.
  intros D ops J jq hal gl pl cfg e r st st' out Hs.
  destruct (thread_down_handle_cases D ops J jq hal gl pl cfg e r st st' out Hs)
    as (Hth & Htl & Hq & Hcases).
  split; [exact Hth|]. split; [exact Htl|]. split; [exact Hq|].
  destruct Hcases as [[Hout [Hsame | (Hreq & _ & Hst)]]
                     | (dgram & json & Hr & _ & Hv & Ht & _ & _ & Hout)].
  - subst out st'. split; [cbn; lia|]. split; [intros d []|].
    intros _. split; [reflexivity|]. split; [reflexivity | left; reflexivity].
  - subst out st'. split; [cbn; lia|]. split; [intros d []|].
    intros _. cbn [jit_queue down_meas req_ack autoquit_cnt].
    split; [reflexivity|]. split.
    + intros v Hne. apply meas_add_other. congruence.
    + right. split; [exact Hreq|]. split; [reflexivity|]. split; [reflexivity|].
      apply meas_add_same.
  - subst out. split; [cbn; lia|]. split.
    + intros d [Hd|[]]. subst d. exists dgram, json.
      split; [exact Hr|]. split; [exact Hv|]. split; [exact Ht | reflexivity].
    + discriminate.
Qed.

(** The theorem on the Class A request of [class_a_downlink_run]. *)
Lemma thread_down_handle_acknowledges_witness :
  exists st' out,
    thread_down_handle (jq := ex_jit) (hal := sx1302_hal) (gl := linear_gps)
      (pl := fixed_parse_lib (Some ex_class_a_json) (Some (9, 125)) [1; 2; 3; 4])
      ex_down_conf ex_down_env (RecvData ex_pull_resp) ex_down_state
    = Done (st', out)
    /\ token_h st' = 0x11 /\ token_l st' = 0x22 /\ length (jit_queue st') = 2%nat.
Proof.
  destruct class_a_downlink_run as (st' & Hrun & _).
  eexists st', _. split; [exact Hrun|].
  destruct (thread_down_handle_acknowledges _ _ _ _ _ _ _ _ _ _ _ _ _ Hrun)
    as (Hh & Hl & Hq & _).
  split; [exact Hh|]. split; [exact Hl | exact Hq].
Defined.

Section DownAck.
Context {D : Type} {ops : DoubleOps D} {J : Type} {jq : JitQueue J}
        {hal : HalConsts} {gl : GpsLib D} {pl : ParseLib D}.
Variable cfg : down_conf.

(** A PULL_ACK for the pending token, none having been taken yet, is
    taken. *)
Lemma thread_down_handle_takes_ack (e : down_env D) dgram (st : down_state J) :
  is_pull_ack_for (token_h st) (token_l st) dgram ->
  req_ack st = false ->
  exists st',
    thread_down_handle cfg e (RecvData dgram) st = Done (st', [])
    /\ req_ack st' = true /\ autoquit_cnt st' = 0.
Proof.
  intros (Hlen & Hv & Ht & H1 & H2) Hreq. unfold thread_down_handle.
  rewrite !byte_at_firstn by lia. rewrite Hv, Ht, H1, H2, Hreq.
  assert (Hl : (Z.of_nat (length (firstn 999 dgram)) <? 4) = false).
  { apply Z.ltb_ge. rewrite length_firstn. lia. }
  rewrite Hl, !Z.eqb_refl. change (PKT_PULL_ACK =? PKT_PULL_RESP) with false.
  cbn [negb orb andb]. eexists. split; [reflexivity|]. split; reflexivity.
Qed.

End DownAck.

(** X6. A PULL_ACK (at least 4 bytes, version 2, type 4) is never answered
    and never touches a JIT queue. The first one that carries the token of
    the pending PULL_DATA sets [req_ack], clears [autoquit_cnt] and adds one
    to [meas_dw_ack_rcv]; one with another token, or a second one for the
    same PULL_DATA, changes nothing. *)
Theorem pull_ack_counted_once :
  forall (D : Type) (ops : DoubleOps D) (J : Type) (jq : JitQueue J)
         (hal : HalConsts) (gl : GpsLib D) (pl : ParseLib D)
         (cfg : down_conf) (e : down_env D) dgram (st : down_state J),
    (4 <= length dgram)%nat ->
    byte_at dgram 0 = PROTOCOL_VERSION ->
    byte_at dgram 3 = PKT_PULL_ACK ->
    exists st',
      thread_down_handle cfg e (RecvData dgram) st = Done (st', [])
      /\ jit_queue st' = jit_queue st
      /\ token_h st' = token_h st /\ token_l st' = token_l st
      /\ (byte_at dgram 1 = token_h st -> byte_at dgram 2 = token_l st ->
          req_ack st = false ->
          req_ack st' = true /\ autoquit_cnt st' = 0
          /\ down_meas st' meas_dw_ack_rcv = uint32 (down_meas st meas_dw_ack_rcv + 1)
          /\ forall v, v <> meas_dw_ack_rcv -> down_meas st' v = down_meas st v)
      /\ (byte_at dgram 1 <> token_h st \/ byte_at dgram 2 <> token_l st
          \/ req_ack st = true ->
          st' = st).
Proof.
  intros D ops J jq hal gl pl cfg e dgram st Hlen Hv Ht.
  unfold thread_down_handle.
  rewrite !byte_at_firstn by lia. rewrite Hv, Ht.
  assert (Hl : (Z.of_nat (length (firstn 999 dgram)) <? 4) = false).
  { apply Z.ltb_ge. rewrite length_firstn. lia. }
  rewrite Hl. change (PKT_PULL_ACK =? PKT_PULL_RESP) with false.
  rewrite !Z.eqb_refl. cbn [negb orb andb].
  destruct (byte_at dgram 1 =? token_h st) eqn:H1; cbn [andb].
  2:{ apply Z.eqb_neq in H1. exists st. repeat (split; [reflexivity|]).
      split; [intros; contradiction | reflexivity]. }
  destruct (byte_at dgram 2 =? token_l st) eqn:H2.
  2:{ apply Z.eqb_neq in H2. exists st. repeat (split; [reflexivity|]).
      split; [intros; contradiction | reflexivity]. }
  destruct (req_ack st) eqn:Hreq.
  { exists st. repeat (split; [reflexivity|]).
    split; [intros; discriminate | reflexivity]. }
  eexists. split; [reflexivity|]. cbn [jit_queue token_h token_l req_ack
                                        autoquit_cnt down_meas].
  repeat (split; [reflexivity|]). split.
  - intros _ _ _. split; [reflexivity|]. split; [reflexivity|]. split.
    + apply meas_add_same.
    + intros v Hne. apply meas_add_other. congruence.
  - apply Z.eqb_eq in H1, H2. intros [Hn|[Hn|Hn]]; [contradiction | contradiction | discriminate].
Qed.

(** The theorem on a second PULL_ACK for the pending token 0x11 0x22. *)
Lemma pull_ack_counted_once_witness :
  thread_down_handle (jq := ex_jit) (hal := sx1302_hal) (gl := linear_gps)
    (pl := fixed_parse_lib (D := float) None None [])
    ex_down_conf ex_down_env (RecvData [2; 0x11; 0x22; 4]) ex_down_state
  = Done (ex_down_state, []).
Proof.
  destruct (pull_ack_counted_once float _ _ ex_jit sx1302_hal linear_gps
              (fixed_parse_lib None None [])
              ex_down_conf ex_down_env [2; 0x11; 0x22; 4] ex_down_state
              ltac:(cbn; lia) eq_refl eq_refl)
    as (st' & Hrun & _ & _ & _ & _ & Hsame).
  rewrite Hrun, (Hsame (or_intror (or_intror eq_refl))). reflexivity.
Defined.

(** X7. A downlink whose frequency is outside the band configured for its
    RF chain is answered with the error TX_FREQ and reaches no queue. The
    datagram and its bytes are counted as received
    ([meas_dw_dgram_rcv], [meas_dw_network_byte], [meas_dw_payload_byte]),
    but not as a TX request. *)
Theorem thread_down_out_of_band :
  forall (D : Type) (J : Type) (jq : JitQueue J)
         (cfg : down_conf) (e : down_env D) msg_len ack_h ack_l txpkt ty
         (st : down_state J) fmin fmax,
    nth_error (tx_freq_min cfg) (Z.to_nat (rf_chain txpkt)) = Some fmin ->
    nth_error (tx_freq_max cfg) (Z.to_nat (rf_chain txpkt)) = Some fmax ->
    freq_hz txpkt < fmin \/ fmax < freq_hz txpkt ->
    exists st',
      thread_down_enqueue cfg e msg_len ack_h ack_l txpkt ty st
      = Done (st',
              [tx_ack_prefix (net_mac_h (gateway_mac cfg)) (net_mac_l (gateway_mac cfg))
                 ack_h ack_l
                 ++ bytes_of_string
                      ("{" ++ quoted "txpk_ack" ++ ":{" ++ quoted "error" ++ ":"
                           ++ quoted "TX_FREQ" ++ "}}")])
      /\ jit_queue st' = jit_queue st
      /\ down_meas st' meas_dw_dgram_rcv = uint32 (down_meas st meas_dw_dgram_rcv + 1)
      /\ down_meas st' meas_dw_network_byte
         = uint32 (down_meas st meas_dw_network_byte + msg_len)
      /\ down_meas st' meas_dw_payload_byte
         = uint32 (down_meas st meas_dw_payload_byte + size txpkt)
      /\ forall v, v <> meas_dw_dgram_rcv -> v <> meas_dw_network_byte ->
                   v <> meas_dw_payload_byte ->
                   down_meas st' v = down_meas st v.
Proof.
  intros D J jq cfg e msg_len ack_h ack_l txpkt ty st fmin fmax
         Hmin Hmax Hout.
  unfold thread_down_enqueue. rewrite Hmin, Hmax.
  assert (Hc : (freq_hz txpkt <? fmin) || (freq_hz txpkt >? fmax) = true).
  { apply orb_true_iff. destruct Hout as [Hlo|Hhi].
    - left. apply Z.ltb_lt. exact Hlo.
    - right. apply Z.gtb_lt. exact Hhi. }
  rewrite Hc.
  cbn [send_tx_ack tx_ack_json tx_ack_type tx_ack_key tx_ack_value].
  eexists. split; [reflexivity|].
  cbn [jit_queue down_meas set_down_meas].
  split; [reflexivity|]. split; [|split; [|split]].
  - rewrite (meas_add_other meas_dw_payload_byte) by congruence.
    rewrite (meas_add_other meas_dw_network_byte) by congruence.
    apply meas_add_same.
  - rewrite (meas_add_other meas_dw_payload_byte) by congruence.
    rewrite meas_add_same.
    rewrite (meas_add_other meas_dw_dgram_rcv) by congruence. reflexivity.
  - rewrite meas_add_same.
    rewrite (meas_add_other meas_dw_network_byte) by congruence.
    rewrite (meas_add_other meas_dw_dgram_rcv) by congruence. reflexivity.
  - intros v H1 H2 H3. rewrite !meas_add_other by congruence. reflexivity.
Qed.

(** The theorem on a request at 862 MHz against the band 863 to 870 MHz. *)
Lemma thread_down_out_of_band_witness :
  exists st',
    thread_down_enqueue (jq := ex_jit)
      ex_down_conf ex_down_env 200 0xAB 0xCD
      (set_freq_hz 862000000 (ex_txpkt 14)) JIT_PKT_TYPE_DOWNLINK_CLASS_A ex_down_state
    = Done (st',
            [[2; 0xAB; 0xCD; 5; 4; 3; 2; 1; 8; 7; 6; 5]
               ++ bytes_of_string
                    ("{" ++ quoted "txpk_ack" ++ ":{" ++ quoted "error" ++ ":"
                         ++ quoted "TX_FREQ" ++ "}}")])
    /\ jit_queue st' = [[]; []].
Proof.
  destruct (thread_down_out_of_band float _ ex_jit
              ex_down_conf ex_down_env 200 0xAB 0xCD
              (set_freq_hz 862000000 (ex_txpkt 14)) JIT_PKT_TYPE_DOWNLINK_CLASS_A
              ex_down_state 863000000 870000000 eq_refl eq_refl
              ltac:(left; cbn; lia))
    as (st' & Hrun & Hq & _).
  exists st'. split; [exact Hrun | exact Hq].
Defined.

(* ---------------------------------------------------------------------- *)
(** ** [thread_jit]: what a pass over one chain does to a due packet *)

(** X8. When the packet that [jit_peek] found due has been dequeued and
    [lgw_status] reports the concentrator as emitting, the pass ends there:
    nothing is handed to [lgw_send], the packet is gone from the queue, and
    neither [meas_nb_tx_ok] nor [meas_nb_tx_fail] moves; a beacon has
    nevertheless been counted in [meas_nb_beacon_sent]. *)
Theorem thread_jit_chain_emitting_drops_packet :
  forall (D : Type) (ops : DoubleOps D) (J : Type) (jq : JitQueue J) (hal : HalConsts)
         xtal_corr scan (e : jit_env) (q q' : J) m idx pkt ty,
    jit_peek q (jit_instcnt e) = (JIT_ERROR_OK, idx) ->
    - 1 < idx ->
    jit_dequeue q idx = (JIT_ERROR_OK, q', pkt, ty) ->
    jit_status_result e <> LGW_HAL_ERROR ->
    jit_tx_status e = TX_EMITTING ->
    (ty = JIT_PKT_TYPE_BEACON ->
     beacon_freq_correct xtal_corr (freq_hz pkt) <> None) ->
    thread_jit_chain xtal_corr scan e q m
    = Some (q',
            if jit_pkt_type_is_beacon ty then meas_add meas_nb_beacon_sent 1 m else m,
            []).
Proof.
  intros D ops J jq hal xtal_corr scan e q q' m idx pkt ty
         Hpeek Hidx Hdeq Hst Hem Hconv.
  unfold thread_jit_chain. rewrite Hpeek.
  assert (Hi : (idx >? -1) = true) by (apply Z.gtb_lt; lia).
  rewrite Hi, Hdeq.
  assert (Hc : negb (jit_status_result e =? LGW_HAL_ERROR)
               && (jit_tx_status e =? TX_EMITTING) = true).
  { apply andb_true_intro. split.
    - apply negb_true_iff, Z.eqb_neq. exact Hst.
    - apply Z.eqb_eq. exact Hem. }
  destruct ty; cbn [jit_pkt_type_is_beacon bind]; try (rewrite Hc; reflexivity).
  destruct (beacon_freq_correct xtal_corr (freq_hz pkt)) as [f|] eqn:Hf.
  - cbn [bind]. rewrite Hc. reflexivity.
  - exfalso. exact (Hconv eq_refl eq_refl).
Qed.

(** The theorem on the example queue, with [lgw_status] answering
    TX_EMITTING: the due beacon leaves the queue and is not sent. *)
Lemma thread_jit_chain_emitting_drops_packet_witness :
  thread_jit_chain (jq := ex_jit) (hal := sx1302_hal) ex_xtal_correct false
    {| jit_instcnt := jit_instcnt ex_jit_env; jit_status_result := 0;
       jit_tx_status := 4; jit_scan_abort_result := 0; jit_send_result := 0 |}
    ex_jit_queue meas_zero
  = Some ([], meas_add meas_nb_beacon_sent 1 meas_zero, []).
Proof.
  apply (thread_jit_chain_emitting_drops_packet float _ _ ex_jit sx1302_hal
           ex_xtal_correct false
           {| jit_instcnt := jit_instcnt ex_jit_env; jit_status_result := 0;
              jit_tx_status := 4; jit_scan_abort_result := 0; jit_send_result := 0 |}
           ex_jit_queue [] meas_zero 0
           (set_freq_hz 869525000 ex_beacon_pkt) JIT_PKT_TYPE_BEACON).
  - reflexivity.
  - lia.
  - reflexivity.
  - cbn. discriminate.
  - reflexivity.
  - intros _. vm_compute. discriminate.
Defined.

(** X9. A pass over one chain calls [lgw_send] at most once, as the last
    call into the radio, preceded by [lgw_spectral_scan_abort] exactly when
    the spectral scan is enabled; each call of [lgw_send] is counted once,
    in [meas_nb_tx_ok] when it returned [LGW_HAL_SUCCESS] and in
    [meas_nb_tx_fail] otherwise, and without a call neither counter
    moves. The queue is left as it was unless a packet was dequeued. *)
Theorem thread_jit_chain_send_accounting :
  forall (D : Type) (ops : DoubleOps D) (J : Type) (jq : JitQueue J) (hal : HalConsts)
         xtal_corr scan (e : jit_env) (q : J) m,
    match thread_jit_chain xtal_corr scan e q m with
    | None => True
    | Some (q', m', calls) =>
        (calls = []
         /\ m' meas_nb_tx_ok = m meas_nb_tx_ok
         /\ m' meas_nb_tx_fail = m meas_nb_tx_fail)
        \/ (exists pkt,
               calls = (if scan then [LgwSpectralScanAbort] else []) ++ [LgwSend pkt]
               /\ q' = snd (fst (fst (jit_dequeue q (snd (jit_peek q (jit_instcnt e))))))
               /\ (if jit_send_result e =? LGW_HAL_SUCCESS
                   then m' meas_nb_tx_ok = uint32 (m meas_nb_tx_ok + 1)
                        /\ m' meas_nb_tx_fail = m meas_nb_tx_fail
                   else m' meas_nb_tx_fail = uint32 (m meas_nb_tx_fail + 1)
                        /\ m' meas_nb_tx_ok = m meas_nb_tx_ok))
    end.
Proof.
  intros D ops J jq hal xtal_corr scan e q m.
  unfold thread_jit_chain.
  destruct (jit_peek q (jit_instcnt e)) as [r idx]. cbn [snd].
  destruct r; try (cbv beta iota; left; repeat split; reflexivity).
  destruct (idx >? -1); [|cbv beta iota; left; repeat split; reflexivity].
  destruct (jit_dequeue q idx) as [[[r q1] pkt0] ty]. cbn [fst snd].
  destruct r; try (cbv beta iota; left; repeat split; reflexivity).
  assert (Hpm : forall pm : option (lgw_pkt_tx_s * meas_dw),
             (forall p m1, pm = Some (p, m1) ->
                           m1 meas_nb_tx_ok = m meas_nb_tx_ok
                           /\ m1 meas_nb_tx_fail = m meas_nb_tx_fail) ->
             match
               bind pm (fun pm0 =>
                 let '(pkt, m0) := pm0 in
                 if negb (jit_status_result e =? LGW_HAL_ERROR)
                    && (jit_tx_status e =? TX_EMITTING)
                 then Some (q1, m0, [])
                 else
                   if negb (jit_send_result e =? LGW_HAL_SUCCESS)
                   then Some (q1, meas_add meas_nb_tx_fail 1 m0,
                              (if scan then [LgwSpectralScanAbort] else [])
                                ++ [LgwSend pkt])
                   else Some (q1, meas_add meas_nb_tx_ok 1 m0,
                              (if scan then [LgwSpectralScanAbort] else [])
                                ++ [LgwSend pkt]))
             with
             | None => True
             | Some (q', m', calls) =>
                 (calls = []
                  /\ m' meas_nb_tx_ok = m meas_nb_tx_ok
                  /\ m' meas_nb_tx_fail = m meas_nb_tx_fail)
                 \/ (exists pkt,
                        calls = (if scan then [LgwSpectralScanAbort] else [])
                                  ++ [LgwSend pkt]
                        /\ q' = q1
                        /\ (if jit_send_result e =? LGW_HAL_SUCCESS
                            then m' meas_nb_tx_ok = uint32 (m meas_nb_tx_ok + 1)
                                 /\ m' meas_nb_tx_fail = m meas_nb_tx_fail
                            else m' meas_nb_tx_fail = uint32 (m meas_nb_tx_fail + 1)
                                 /\ m' meas_nb_tx_ok = m meas_nb_tx_ok))
             end).
  { intros [[p m1]|] Hm; cbn [bind]; [|exact I].
    destruct (Hm p m1 eq_refl) as [Hok Hfail].
    destruct (negb (jit_status_result e =? LGW_HAL_ERROR)
              && (jit_tx_status e =? TX_EMITTING)).
    - cbv beta iota. left. repeat split; assumption.
    - destruct (jit_send_result e =? LGW_HAL_SUCCESS); cbn [negb];
        cbv beta iota; right; exists p.
      + split; [reflexivity|]. split; [reflexivity|]. split.
        * rewrite meas_add_same, Hok. reflexivity.
        * rewrite meas_add_other by congruence. exact Hfail.
      + split; [reflexivity|]. split; [reflexivity|]. split.
        * rewrite meas_add_same, Hfail. reflexivity.
        * rewrite meas_add_other by congruence. exact Hok. }
  apply Hpm. intros p m1.
  destruct (jit_pkt_type_is_beacon ty).
  - destruct (beacon_freq_correct xtal_corr (freq_hz pkt0)); cbn [bind];
      [|discriminate].
    intros Hs. inversion Hs; subst.
    rewrite !meas_add_other by congruence. split; reflexivity.
  - intros Hs. inversion Hs; subst. split; reflexivity.
Qed.

(* ---------------------------------------------------------------------- *)
(** ** [thread_valid]: when the XTAL correction is usable *)

Section ValidInvariant.
Context {D : Type} `{DoubleOps D}.

Lemma thread_valid_step_inv age err (s : valid_state D) :
  valid_inv s -> valid_inv (thread_valid_step age err s).
Proof.
  unfold valid_inv, thread_valid_step, XERR_INIT_AVG.
  intros (Hc & Hok & Hv & Hx).
  destruct ((0 <=? age) && (age <=? GPS_REF_MAX_AGE)).
  - destruct (init_cpt s <? 16) eqn:Hlt.
    + apply Z.ltb_lt in Hlt.
      cbn [init_cpt xtal_correct_ok xtal_correct gps_ref_valid].
      assert (Hu : uint32 (init_cpt s + 1) = init_cpt s + 1).
      { unfold uint32, wrap_unsigned. apply Z.mod_small. lia. }
      rewrite Hu. split; [lia|]. split; [|split].
      * split; intros Ht; [apply Hok in Ht; lia | lia].
      * intros _. reflexivity.
      * exact Hx.
    + apply Z.ltb_ge in Hlt. destruct (init_cpt s =? 16) eqn:Heq.
      * apply Z.eqb_eq in Heq.
        cbn [init_cpt xtal_correct_ok xtal_correct gps_ref_valid].
        rewrite Heq. change (uint32 (16 + 1)) with 17.
        split; [lia|]. split; [split; reflexivity|].
        split; [reflexivity | discriminate].
      * apply Z.eqb_neq in Heq.
        cbn [init_cpt xtal_correct_ok xtal_correct gps_ref_valid].
        assert (Hcpt : init_cpt s = 16 + 1) by lia.
        apply Hok in Hcpt.
        split; [lia|]. split; [exact Hok|]. split; [reflexivity|].
        intros Hf. rewrite Hcpt in Hf. discriminate.
  - cbn [init_cpt xtal_correct_ok xtal_correct gps_ref_valid].
    split; [lia|]. split; [split; [discriminate | lia]|].
    split; [discriminate | reflexivity].
Qed.

Lemma thread_valid_run_inv (ticks : list (Z * D)) :
  forall s, valid_inv s -> valid_inv (thread_valid_run ticks s).
Proof.
  unfold thread_valid_run.
  induction ticks as [|t ticks IH]; intros s Hs; [exact Hs|].
  cbn [fold_left]. apply IH. apply thread_valid_step_inv. exact Hs.
Qed.

Lemma thread_valid_run_snoc (ticks : list (Z * D)) t s :
  thread_valid_run (ticks ++ [t]) s
  = thread_valid_step (fst t) (snd t) (thread_valid_run ticks s).
Proof. unfold thread_valid_run. rewrite fold_left_app. reflexivity. Qed.

End ValidInvariant.

Lemma Forall_skipn_more {A : Type} (P : A -> Prop) (l : list A) n k :
  (n <= k)%nat -> Forall P (skipn n l) -> Forall P (skipn k l).
Proof.
  intros Hnk Hn. replace k with ((k - n) + n)%nat by lia.
  rewrite <- skipn_skipn. generalize (skipn n l) Hn. intros l'.
  generalize (k - n)%nat. intros j. revert l'.
  induction j as [|j IH]; intros l' Hl'; [exact Hl'|].
  destruct l' as [|x l']; [constructor|]. cbn [skipn]. apply IH.
  inversion Hl'; assumption.
Qed.

(** X10. From start-up and after any sequence of iterations of
    [thread_valid], for either arithmetic: the sample count stays between 0
    and 17 (so its [uint32_t] never wraps); [xtal_correct_ok] is true
    exactly when the count is 17, and then [gps_ref_valid] is true as well;
    while [xtal_correct_ok] is false [xtal_correct] is exactly 1.0; and the
    count is the length of a run of iterations, the most recent ones, that
    all found the reference between 0 and 30 s old. So the correction is
    never marked usable before 17 consecutive iterations with a usable
    reference. *)
Theorem thread_valid_lock_invariant :
  forall (D : Type) (ops : DoubleOps D) (ticks : list (Z * D)),
    let s := thread_valid_run ticks valid_init in
    0 <= init_cpt s <= 17
    /\ (xtal_correct_ok s = true <-> init_cpt s = 17)
    /\ (xtal_correct_ok s = true -> gps_ref_valid s = true)
    /\ (xtal_correct_ok s = false -> xtal_correct s = d_of_Z 1)
    /\ (Z.to_nat (init_cpt s) <= length ticks)%nat
    /\ Forall (fun t => age_ok (fst t))
              (skipn (length ticks - Z.to_nat (init_cpt s)) ticks).
Proof.
  intros D ops ticks s.
  assert (Hinv : valid_inv s).
  { apply thread_valid_run_inv. unfold valid_inv, valid_init, XERR_INIT_AVG.
    cbn [init_cpt xtal_correct_ok xtal_correct gps_ref_valid].
    split; [lia|]. split; [split; [discriminate | lia]|].
    split; [discriminate | reflexivity]. }
  destruct Hinv as (Hc & Hok & Hv & Hx). unfold XERR_INIT_AVG in Hc, Hok.
  split; [exact Hc|]. split; [exact Hok|]. split; [exact Hv|]. split; [exact Hx|].
  clear Hc Hok Hv Hx. subst s.
  induction ticks as [|t ticks IH] using rev_ind.
  - cbn. split; [lia | constructor].
  - rewrite thread_valid_run_snoc.
    pose proof (thread_valid_run_inv ticks valid_init) as Hinv.
    set (s0 := thread_valid_run ticks valid_init) in *.
    assert (Hs0 : valid_inv s0).
    { apply Hinv. unfold valid_inv, valid_init, XERR_INIT_AVG.
      cbn [init_cpt xtal_correct_ok xtal_correct gps_ref_valid].
      split; [lia|]. split; [split; [discriminate | lia]|].
      split; [discriminate | reflexivity]. }
    destruct Hs0 as (Hc & _). unfold XERR_INIT_AVG in Hc.
    destruct IH as [Hlen Hall].
    rewrite length_app. cbn [length].
    unfold thread_valid_step, XERR_INIT_AVG.
    destruct ((0 <=? fst t) && (fst t <=? GPS_REF_MAX_AGE)) eqn:Hage.
    + assert (Ht : age_ok (fst t)).
      { apply andb_prop in Hage. destruct Hage as [H0 H1].
        apply Z.leb_le in H0, H1. split; assumption. }
      destruct (init_cpt s0 <? 16) eqn:Hlt.
      * apply Z.ltb_lt in Hlt. cbn [init_cpt].
        assert (Hu : uint32 (init_cpt s0 + 1) = init_cpt s0 + 1).
        { unfold uint32, wrap_unsigned. apply Z.mod_small. lia. }
        rewrite Hu. split; [lia|].
        replace (length ticks + 1 - Z.to_nat (init_cpt s0 + 1))%nat
          with (length ticks - Z.to_nat (init_cpt s0))%nat by lia.
        rewrite skipn_app. apply Forall_app. split; [exact Hall|].
        replace (length ticks - Z.to_nat (init_cpt s0) - length ticks)%nat
          with 0%nat by lia.
        cbn [skipn]. constructor; [exact Ht | constructor].
      * apply Z.ltb_ge in Hlt. destruct (init_cpt s0 =? 16) eqn:Heq.
        -- apply Z.eqb_eq in Heq. cbn [init_cpt]. rewrite Heq in *.
           change (uint32 (16 + 1)) with 17. split; [lia|].
           replace (length ticks + 1 - Z.to_nat 17)%nat
             with (length ticks - Z.to_nat 16)%nat by lia.
           rewrite skipn_app. apply Forall_app. split; [exact Hall|].
           replace (length ticks - Z.to_nat 16 - length ticks)%nat
             with 0%nat by lia.
           cbn [skipn]. constructor; [exact Ht | constructor].
        -- apply Z.eqb_neq in Heq. cbn [init_cpt]. split; [lia|].
           rewrite skipn_app. apply Forall_app. split.
           ++ apply (Forall_skipn_more _ _ (length ticks - Z.to_nat (init_cpt s0)));
                [lia | exact Hall].
           ++ replace (length ticks + 1 - Z.to_nat (init_cpt s0) - length ticks)%nat
                with 0%nat by lia.
              cbn [skipn]. constructor; [exact Ht | constructor].
    + cbn [init_cpt]. change (Z.to_nat 0) with 0%nat. split; [lia|].
      rewrite skipn_all2 by (rewrite length_app; cbn [length]; lia). constructor.
Qed.

(* ---------------------------------------------------------------------- *)
(** ** [crc16] *)

Lemma crc16_shift_range x : 0 <= crc16_shift x < 65536.
Proof.
  unfold crc16_shift, uint16, wrap_unsigned.
  destruct (Z.land x 32768 =? 0); apply Z.mod_pos_bound; lia.
Qed.

Lemma crc16_byte_range x b : 0 <= crc16_byte x b < 65536.
Proof. unfold crc16_byte. cbn [Nat.iter nat_rect]. apply crc16_shift_range. Qed.

Lemma crc16_fold_range data :
  forall x, 0 <= x < 65536 -> 0 <= fold_left crc16_byte data x < 65536.
Proof.
  induction data as [|b data IH]; intros x Hx; [exact Hx|].
  cbn [fold_left]. apply IH. apply crc16_byte_range.
Qed.

Lemma zrange_In n : forall start c,
  start <= c < start + Z.of_nat n -> In c (zrange n start).
Proof.
  induction n as [|n IH]; intros start c Hc; [lia|].
  cbn [zrange]. destruct (Z.eq_dec start c) as [He|Hne]; [left; exact He|].
  right. apply IH. lia.
Qed.

Lemma crc16_residue_all :
  forallb (fun c => crc16_byte (crc16_byte c (Z.shiftr c 8)) (Z.land c 255) =? 0)
          (zrange (Z.to_nat 65536) 0) = true.
Proof. vm_compute. reflexivity. Qed.

Lemma crc16_app (a b : list Z) : crc16 (a ++ b) = fold_left crc16_byte b (crc16 a).
Proof. unfold crc16. apply fold_left_app. Qed.

Lemma fold_left_two {A B : Type} (f : A -> B -> A) x y c :
  fold_left f [x; y] c = f (f c x) y.
Proof. reflexivity. Qed.

(** Checked on each of the 65 536 values. *)
Lemma crc16_residue_value c :
  0 <= c < 65536 ->
  crc16_byte (crc16_byte c (Z.shiftr c 8)) (Z.land c 255) = 0.
Proof.
  intros Hc. apply Z.eqb_eq.
  apply (proj1 (forallb_forall
                  (fun c => crc16_byte (crc16_byte c (Z.shiftr c 8)) (Z.land c 255) =? 0)
                  (zrange (Z.to_nat 65536) 0)) crc16_residue_all c).
  apply zrange_In. rewrite Z2Nat.id by discriminate. exact Hc.
Qed.

(** X11. [crc16] returns a 16-bit value, and a message followed by its own
    CRC, high byte first, has CRC zero (the check a receiver of a
    CRC-16/XMODEM protected frame makes). *)
Theorem crc16_residue :
  forall data,
    0 <= crc16 data < 65536
    /\ crc16 (data ++ [Z.shiftr (crc16 data) 8; Z.land (crc16 data) 255]) = 0.
Proof.
  intros data.
  assert (Hr : 0 <= crc16 data < 65536)
    by (unfold crc16; apply crc16_fold_range; lia).
  split; [exact Hr|].
  rewrite crc16_app, fold_left_two. apply crc16_residue_value. exact Hr.
Qed.

(* ---------------------------------------------------------------------- *)
(** ** The beacon frame *)

Lemma write_bytes_length off (bs buf : list Z) :
  (off + length bs <= length buf)%nat ->
  length (write_bytes off bs buf) = length buf.
Proof.
  intros Hl. unfold write_bytes.
  rewrite !length_app, length_firstn, length_skipn. lia.
Qed.

Lemma write_bytes_before off (bs buf : list Z) n :
  (n <= off)%nat -> (off <= length buf)%nat ->
  firstn n (write_bytes off bs buf) = firstn n buf.
Proof.
  intros Hn Hl. unfold write_bytes.
  rewrite firstn_app, length_firstn.
  replace (n - Nat.min off (length buf))%nat with 0%nat by lia.
  cbn [firstn]. rewrite app_nil_r, firstn_firstn.
  replace (Nat.min n off) with n by lia. reflexivity.
Qed.

Lemma write_bytes_at off (bs buf : list Z) :
  (off <= length buf)%nat ->
  firstn (length bs) (skipn off (write_bytes off bs buf)) = bs.
Proof.
  intros Hl. unfold write_bytes.
  rewrite skipn_app, length_firstn.
  replace (Nat.min off (length buf)) with off by lia.
  rewrite skipn_all2 by (rewrite length_firstn; lia).
  rewrite Nat.sub_diag. cbn [skipn app].
  rewrite firstn_app, Nat.sub_diag. cbn [firstn].
  rewrite app_nil_r, firstn_all. reflexivity.
Qed.

Lemma write_bytes_after off (bs buf : list Z) n :
  (off + length bs <= n)%nat -> (off <= length buf)%nat ->
  skipn n (write_bytes off bs buf) = skipn n buf.
Proof.
  intros Hn Hl. unfold write_bytes.
  rewrite skipn_app, length_firstn.
  replace (Nat.min off (length buf)) with off by lia.
  rewrite skipn_all2 by (rewrite length_firstn; lia).
  cbn [app]. rewrite skipn_app.
  rewrite skipn_all2 by lia. cbn [app].
  rewrite skipn_skipn. f_equal. lia.
Qed.

Lemma write_bytes_window off (bs buf : list Z) a n :
  (a + n <= off)%nat -> (off <= length buf)%nat ->
  firstn n (skipn a (write_bytes off bs buf)) = firstn n (skipn a buf).
Proof.
  intros Ha Hl. unfold write_bytes.
  rewrite skipn_app, firstn_app.
  rewrite length_skipn, length_firstn.
  replace (n - (Nat.min off (length buf) - a))%nat with 0%nat by lia.
  cbn [firstn]. rewrite app_nil_r.
  rewrite !firstn_skipn_comm, firstn_firstn.
  replace (Nat.min (a + n) off) with (a + n)%nat by lia. reflexivity.
Qed.

Lemma le_bytes_length n v : length (le_bytes n v) = n.
Proof. unfold le_bytes. now rewrite length_map, length_seq. Qed.

Lemma beacon_frame_split (pre gw crc : list Z) n k :
  length pre = n -> length gw = k ->
  skipn (n + k) (pre ++ gw ++ crc) = crc
  /\ firstn k (skipn n (pre ++ gw ++ crc)) = gw
  /\ nth n (pre ++ gw ++ crc) 0 = nth 0 (gw ++ crc) 0.
Proof.
  intros Hn Hk. subst n k. split; [|split].
  - rewrite app_assoc, skipn_app.
    rewrite skipn_all2 by (rewrite length_app; lia).
    rewrite length_app.
    replace (length pre + length gw - (length pre + length gw))%nat with 0%nat by lia.
    reflexivity.
  - rewrite skipn_app, skipn_all, Nat.sub_diag. cbn [skipn app].
    rewrite firstn_app, firstn_all, Nat.sub_diag. cbn [firstn].
    apply app_nil_r.
  - rewrite app_nth2 by lia. rewrite Nat.sub_diag. reflexivity.
Qed.

(** X12. The beacon frame prepared at start-up. Only the datarates SF8,
    SF9, SF10 and SF12 give a frame, of 19, 17, 19 and 23 bytes; its [size]
    is the length of the payload written; it is sent on the GPS trigger,
    without header and without payload CRC, at the configured power; and
    its last two bytes are the CRC-16, low byte first, of the gateway part
    that precedes them (info descriptor, latitude, longitude and RFU2). *)
Theorem beacon_pkt_init_frame :
  forall (D : Type) (ops : DoubleOps D) (hal : HalConsts)
         (cfg : beacon_conf) (reference_coord : coord_s D) pkt layout,
    beacon_pkt_init cfg reference_coord = Some (pkt, layout) ->
    let rfu1 := beacon_RFU1_size layout in
    let rfu2 := beacon_RFU2_size layout in
    ((beacon_datarate cfg = 8 /\ rfu1 = 1%nat /\ rfu2 = 3%nat /\ size pkt = 19)
     \/ (beacon_datarate cfg = 9 /\ rfu1 = 2%nat /\ rfu2 = 0%nat /\ size pkt = 17)
     \/ (beacon_datarate cfg = 10 /\ rfu1 = 3%nat /\ rfu2 = 1%nat /\ size pkt = 19)
     \/ (beacon_datarate cfg = 12 /\ rfu1 = 5%nat /\ rfu2 = 3%nat /\ size pkt = 23))
    /\ Z.of_nat (length (payload pkt)) = size pkt
    /\ tx_mode pkt = ON_GPS /\ no_crc pkt = true /\ no_header pkt = true
    /\ rf_power pkt = beacon_power cfg
    /\ nth (rfu1 + 6) (payload pkt) 0 = uint8 (beacon_infodesc cfg)
    /\ skipn (rfu1 + 13 + rfu2) (payload pkt)
       = le_bytes 2 (crc16 (firstn (7 + rfu2) (skipn (rfu1 + 6) (payload pkt)))).
Proof.
  intros D ops hal cfg reference_coord pkt layout.
  unfold beacon_pkt_init.
  destruct (if beacon_bw_hz cfg =? 125000 then Some BW_125KHZ
            else if beacon_bw_hz cfg =? 500000 then Some BW_500KHZ else None)
    as [bw|]; [|discriminate].
  cbn [bind].
  destruct (if beacon_datarate cfg =? 8 then Some (DR_LORA_SF8, 1%nat, 3%nat)
            else if beacon_datarate cfg =? 9 then Some (DR_LORA_SF9, 2%nat, 0%nat)
            else if beacon_datarate cfg =? 10 then Some (DR_LORA_SF10, 3%nat, 1%nat)
            else if beacon_datarate cfg =? 12 then Some (DR_LORA_SF12, 5%nat, 3%nat)
            else None) as [[[sf r1] r2]|] eqn:Hdr; [|discriminate].
  cbn [bind].
  destruct (field_latitude reference_coord) as [flat|]; [|discriminate].
  destruct (field_longitude reference_coord) as [flon|]; [|discriminate].
  cbn [bind].
  remember (beacon_gateway_fields (beacon_infodesc cfg) flat flon ++ repeat 0 r2)
    as gw eqn:Egw.
  assert (Hgw : length gw = (7 + r2)%nat).
  { subst gw. rewrite length_app, repeat_length. reflexivity. }
  assert (Hinfo : nth 0 (gw ++ le_bytes 2 (crc16 gw)) 0 = uint8 (beacon_infodesc cfg)).
  { subst gw. reflexivity. }
  clear Egw.
  assert (Hpre : length (repeat 0 r1 ++ repeat 0 4 ++ repeat (A := Z) 0 2)
                 = (r1 + 6)%nat).
  { rewrite !length_app, !repeat_length. lia. }
  replace (repeat 0 r1 ++ repeat 0 4 ++ repeat 0 2 ++ gw ++ le_bytes 2 (crc16 gw))
    with ((repeat 0 r1 ++ repeat 0 4 ++ repeat 0 2) ++ gw ++ le_bytes 2 (crc16 gw))
    by (rewrite <- !app_assoc; reflexivity).
  pose proof (beacon_frame_split _ gw (le_bytes 2 (crc16 gw)) _ _ Hpre Hgw)
    as (Hcrc & Hpart & Hfirst).
  remember ((repeat 0 r1 ++ repeat 0 4 ++ repeat 0 2) ++ gw ++ le_bytes 2 (crc16 gw))
    as pl eqn:Epl.
  assert (Hlen : length pl = (r1 + 4 + 2 + 7 + r2 + 2)%nat).
  { subst pl. rewrite length_app, Hpre, length_app, Hgw, le_bytes_length. lia. }
  clear Epl.
  intros Hs. injection Hs as Hpkt Hlayout. subst pkt layout.
  cbn [beacon_RFU1_size beacon_RFU2_size payload size tx_mode no_crc no_header
       rf_power].
  split.
  { destruct (beacon_datarate cfg =? 8) eqn:H8;
      [|destruct (beacon_datarate cfg =? 9) eqn:H9;
        [|destruct (beacon_datarate cfg =? 10) eqn:H10;
          [|destruct (beacon_datarate cfg =? 12) eqn:H12; [|discriminate]]]];
      inversion Hdr; subst;
      first [ apply Z.eqb_eq in H8 | apply Z.eqb_eq in H9
            | apply Z.eqb_eq in H10 | apply Z.eqb_eq in H12 ];
      cbn; tauto. }
  split; [rewrite Hlen; reflexivity|].
  repeat (split; [reflexivity|]). split.
  - rewrite Hfirst. exact Hinfo.
  - replace (r1 + 13 + r2)%nat with (r1 + 6 + (7 + r2))%nat by lia.
    rewrite Hcrc, Hpart. reflexivity.
Qed.

(** The theorem on the configuration of the examples (SF9, 125 kHz) with
    the reference coordinates 45, 90. *)
Lemma beacon_pkt_init_frame_witness :
  exists pkt layout,
    beacon_pkt_init (ops := float_ops) (hal := sx1302_hal) ex_beacon_conf
      {| lat := 45%float; lon := 90%float; alt := 0 |} = Some (pkt, layout)
    /\ Z.of_nat (length (payload pkt)) = size pkt
    /\ size pkt = 17.
Proof.
  eexists _, _. split; [vm_compute; reflexivity|].
  destruct (beacon_pkt_init_frame float float_ops sx1302_hal ex_beacon_conf
              {| lat := 45%float; lon := 90%float; alt := 0 |} _ _
              ltac:(vm_compute; reflexivity))
    as (_ & Hlen & _).
  split; [exact Hlen | reflexivity].
Defined.

Section BeaconTimePart.
Context {D : Type} {J : Type} {jq : JitQueue J} {gl : GpsLib D}.
Variable cfg : beacon_conf.
Variable layout : beacon_layout.

(** The descriptor that an iteration with a usable reference offers to the
    queue, and what the iteration keeps of the answer. *)
Lemma beacon_body_offer (e : beacon_env D) (v : beacon_vars J) :
  env_gps_ref_valid e = true ->
  env_xtal_correct_ok e = true ->
  let next := next_beacon_gps_time cfg
                (tv_sec (tref_gps (env_time_reference_gps e)))
                (last_beacon_gps_time v) (retry v) in
  let rfu1 := beacon_RFU1_size layout in
  let pyld1 := write_bytes rfu1 (le_bytes 4 next) (payload (beacon_pkt v)) in
  let pyld2 := write_bytes (rfu1 + 4)
                 (le_bytes 2 (crc16 (firstn (4 + rfu1) pyld1))) pyld1 in
  let cnt := match lgw_gps2cnt (env_time_reference_gps e)
                     {| tv_sec := next; tv_nsec := 0 |} with
             | Some c => c
             | None => count_us (beacon_pkt v)
             end in
  let pkt := set_payload pyld2
               (set_freq_hz
                  (uint32 (beacon_freq_hz cfg
                           + beacon_chan_of cfg next * beacon_freq_step cfg))
                  (set_count_us cnt (beacon_pkt v))) in
  forall r q' p',
    jit_enqueue (jit_queue0 v) (env_instcnt e) pkt JIT_PKT_TYPE_BEACON = (r, q', p') ->
    jit_queue0 (snd (beacon_body cfg layout e v)) = q'
    /\ beacon_pkt (snd (beacon_body cfg layout e v)) = p'.
Proof.
  intros Hv Hx next rfu1 pyld1 pyld2 cnt pkt r q' p' Henq.
  unfold beacon_body. rewrite Hv, Hx. cbn [andb].
  fold next. fold rfu1. fold pyld1. fold pyld2. fold cnt. fold pkt.
  rewrite Henq. destruct r; split; reflexivity.
Qed.

End BeaconTimePart.

(** X13. The time part of a beacon. In an iteration of the pre-allocation
    loop with a usable reference, on a frame of at least RFU1 + 6 bytes,
    the descriptor offered to the queue differs from the stored one only in
    its counter, its frequency and six payload bytes: the four bytes after
    RFU1 hold the beacon time (GPS seconds, low byte first) and the next two
    the CRC-16, low byte first, of the RFU1 and time bytes as they now
    stand. The RFU1 bytes and everything after the time CRC, so the gateway
    part and its CRC, are untouched, as are size, power and modulation. *)
Theorem beacon_time_part :
  forall (D J : Type) (jq : JitQueue J) (gl : GpsLib D)
         (cfg : beacon_conf) (layout : beacon_layout)
         (e : beacon_env D) (v : beacon_vars J),
    env_gps_ref_valid e = true ->
    env_xtal_correct_ok e = true ->
    (beacon_RFU1_size layout + 6 <= length (payload (beacon_pkt v)))%nat ->
    let rfu1 := beacon_RFU1_size layout in
    let next := next_beacon_gps_time cfg
                  (tv_sec (tref_gps (env_time_reference_gps e)))
                  (last_beacon_gps_time v) (retry v) in
    exists pkt,
      (forall r q' p',
          jit_enqueue (jit_queue0 v) (env_instcnt e) pkt JIT_PKT_TYPE_BEACON
          = (r, q', p') ->
          jit_queue0 (snd (beacon_body cfg layout e v)) = q'
          /\ beacon_pkt (snd (beacon_body cfg layout e v)) = p')
      /\ length (payload pkt) = length (payload (beacon_pkt v))
      /\ firstn rfu1 (payload pkt) = firstn rfu1 (payload (beacon_pkt v))
      /\ firstn 4 (skipn rfu1 (payload pkt)) = le_bytes 4 next
      /\ firstn 2 (skipn (rfu1 + 4) (payload pkt))
         = le_bytes 2 (crc16 (firstn (rfu1 + 4) (payload pkt)))
      /\ skipn (rfu1 + 6) (payload pkt) = skipn (rfu1 + 6) (payload (beacon_pkt v))
      /\ freq_hz pkt
         = uint32 (beacon_freq_hz cfg + beacon_chan_of cfg next * beacon_freq_step cfg)
      /\ set_payload (payload (beacon_pkt v))
           (set_freq_hz (freq_hz (beacon_pkt v))
              (set_count_us (count_us (beacon_pkt v)) pkt))
         = beacon_pkt v.
Proof.
  intros D J jq gl cfg layout e v Hv Hx Hlen rfu1 next.
  pose proof (beacon_body_offer cfg layout e v Hv Hx) as Hoffer.
  cbv zeta in Hoffer. fold rfu1 in Hoffer. fold next in Hoffer.
  set (old := payload (beacon_pkt v)) in *.
  set (pyld1 := write_bytes rfu1 (le_bytes 4 next) old) in *.
  set (pyld2 := write_bytes (rfu1 + 4)
                  (le_bytes 2 (crc16 (firstn (4 + rfu1) pyld1))) pyld1) in *.
  assert (H1 : length pyld1 = length old).
  { apply write_bytes_length. rewrite le_bytes_length. subst rfu1. lia. }
  assert (H2 : length pyld2 = length old).
  { rewrite <- H1. apply write_bytes_length. rewrite le_bytes_length, H1.
    subst rfu1. lia. }
  eexists. split; [exact Hoffer|].
  cbn [payload set_payload set_freq_hz set_count_us freq_hz].
  split; [exact H2|]. split; [|split; [|split; [|split; [|split]]]].
  - subst pyld2. rewrite write_bytes_before by (subst rfu1; lia).
    subst pyld1. apply write_bytes_before; subst rfu1; lia.
  - subst pyld2. rewrite write_bytes_window by (subst rfu1; lia).
    subst pyld1. pose proof (write_bytes_at rfu1 (le_bytes 4 next) old) as Hat.
    rewrite le_bytes_length in Hat. apply Hat. subst rfu1. lia.
  - replace (firstn (rfu1 + 4) pyld2) with (firstn (4 + rfu1) pyld1).
    + subst pyld2.
      pose proof (write_bytes_at (rfu1 + 4)
                    (le_bytes 2 (crc16 (firstn (4 + rfu1) pyld1))) pyld1) as Hat.
      rewrite le_bytes_length in Hat. apply Hat. subst rfu1. lia.
    + subst pyld2. rewrite write_bytes_before by (subst rfu1; lia).
      f_equal. lia.
  - subst pyld2. rewrite write_bytes_after
      by (rewrite ?le_bytes_length; subst rfu1; lia).
    subst pyld1. apply write_bytes_after; rewrite ?le_bytes_length; subst rfu1; lia.
  - reflexivity.
  - destruct (beacon_pkt v); reflexivity.
Qed.

(** The theorem on the first iteration of the examples: the beacon queued
    carries GPS second 1 280 000 128 after its two RFU bytes. *)
Lemma beacon_time_part_witness :
  firstn 4 (skipn 2 (payload
     (beacon_pkt (snd (beacon_body (jq := ex_jit) (gl := linear_gps)
                         ex_beacon_conf ex_beacon_layout ex_beacon_env
                         ex_beacon_vars)))))
  = le_bytes 4 1280000128.
Proof.
  destruct (beacon_time_part float _ ex_jit linear_gps
              ex_beacon_conf ex_beacon_layout ex_beacon_env ex_beacon_vars
              eq_refl eq_refl ltac:(cbn; lia))
    as (pkt & Hres & _ & _ & Htime & _).
  destruct (Hres JIT_ERROR_OK [(pkt, JIT_PKT_TYPE_BEACON)] pkt eq_refl) as [_ Hp].
  rewrite Hp. exact Htime.
Defined.

(** X14. The beacon channel. With a positive period, a beacon time that
    is not negative and a channel plan that fits the [uint8_t] count and
    the [uint32_t] frequency, the beacon for GPS second [next] goes out on
    channel [(next / beacon_period) mod beacon_freq_nb] of the plan, at
    [beacon_freq_hz + channel * beacon_freq_step]. *)
Theorem beacon_channel_in_plan :
  forall (cfg : beacon_conf) next,
    0 < beacon_period cfg ->
    0 <= next ->
    1 <= beacon_freq_nb cfg <= 255 ->
    0 <= beacon_freq_step cfg ->
    0 <= beacon_freq_hz cfg ->
    beacon_freq_hz cfg + (beacon_freq_nb cfg - 1) * beacon_freq_step cfg < 2 ^ 32 ->
    let chan := (next / beacon_period cfg) mod beacon_freq_nb cfg in
    beacon_chan_of cfg next = chan
    /\ 0 <= chan < beacon_freq_nb cfg
    /\ uint32 (beacon_freq_hz cfg + beacon_chan_of cfg next * beacon_freq_step cfg)
       = beacon_freq_hz cfg + chan * beacon_freq_step cfg.
Proof.
  intros cfg next Hp Hn Hnb Hstep Hf Hmax chan.
  assert (Hchan : 0 <= chan < beacon_freq_nb cfg)
    by (apply Z.mod_pos_bound; lia).
  assert (Heq : beacon_chan_of cfg next = chan).
  { unfold beacon_chan_of. destruct (beacon_freq_nb cfg >? 1) eqn:Hgt.
    - rewrite Z.quot_div_nonneg by lia.
      rewrite Z.rem_mod_nonneg by (try apply Z.div_pos; lia).
      fold chan. unfold uint8, wrap_unsigned. apply Z.mod_small. lia.
    - assert (beacon_freq_nb cfg = 1) by (rewrite Z.gtb_ltb in Hgt; apply Z.ltb_ge in Hgt; lia).
      subst chan. lia. }
  split; [exact Heq|]. split; [exact Hchan|].
  rewrite Heq. unfold uint32, wrap_unsigned. apply Z.mod_small. nia.
Qed.

Lemma beacon_channel_in_plan_witness :
  beacon_chan_of
    {| beacon_period := 128; beacon_freq_hz := 923300000; beacon_freq_nb := 8;
       beacon_freq_step := 600000; beacon_datarate := 12; beacon_bw_hz := 500000;
       beacon_power := 27; beacon_infodesc := 0 |} 1280000128 = 1.
Proof.
  exact (proj1 (beacon_channel_in_plan
                  {| beacon_period := 128; beacon_freq_hz := 923300000;
                     beacon_freq_nb := 8; beacon_freq_step := 600000;
                     beacon_datarate := 12; beacon_bw_hz := 500000;
                     beacon_power := 27; beacon_infodesc := 0 |} 1280000128
                  ltac:(cbn; lia) ltac:(lia) ltac:(cbn; lia) ltac:(cbn; lia)
                  ltac:(cbn; lia) ltac:(cbn; lia))).
Defined.

(** X15. The pre-allocation adds nothing when beaconing is off
    ([beacon_period] is 0), when the queue of chain 0 already holds
    [JIT_NUM_BEACON_IN_QUEUE] beacons, or when the first look at the GPS
    state finds the reference not valid or the XTAL correction not usable:
    the queue, the beacon descriptor, the time of the last beacon and the
    counters are left as they were. *)
Theorem beacon_prealloc_idle :
  forall (D J : Type) (jq : JitQueue J) (gl : GpsLib D)
         (cfg : beacon_conf) (layout : beacon_layout)
         (envs : list (beacon_env D)) (v : beacon_vars J),
    beacon_period cfg = 0
    \/ num_beacon (jit_queue0 v) = JIT_NUM_BEACON_IN_QUEUE
    \/ (exists e rest, envs = e :: rest
                       /\ (env_gps_ref_valid e = false
                           \/ env_xtal_correct_ok e = false)) ->
    let v' := beacon_prealloc cfg layout envs v in
    jit_queue0 v' = jit_queue0 v
    /\ beacon_pkt v' = beacon_pkt v
    /\ last_beacon_gps_time v' = last_beacon_gps_time v
    /\ beacon_meas v' = beacon_meas v.
Proof.
  intros D J jq gl cfg layout envs v Hidle v'. subst v'.
  unfold beacon_prealloc.
  destruct envs as [|e rest]; [cbn; repeat split|].
  cbn [beacon_while beacon_loop].
  destruct Hidle as [Hp | [Hn | (e' & rest' & He & Hbad)]].
  - rewrite Hp. change (0 =? 0) with true. cbn [negb andb].
    destruct (negb _); repeat split.
  - rewrite Hn, Z.sub_diag. change (uint8 0 =? 0) with true. cbn [negb andb].
    repeat split.
  - inversion He; subst e' rest'.
    destruct (negb _ && negb _); [|repeat split].
    unfold beacon_body.
    assert (Hc : env_gps_ref_valid e && env_xtal_correct_ok e = false).
    { destruct Hbad as [Hb|Hb]; rewrite Hb; [reflexivity | apply andb_false_r]. }
    rewrite Hc. repeat split.
Qed.

Lemma beacon_prealloc_idle_witness :
  jit_queue0 (beacon_prealloc (jq := ex_jit) (gl := linear_gps)
                ex_beacon_conf ex_beacon_layout
                [{| env_gps_ref_valid := true; env_xtal_correct_ok := false;
                    env_time_reference_gps := ex_tref; env_instcnt := 5200000 |}]
                ex_beacon_vars)
  = [].
Proof.
  exact (proj1 (beacon_prealloc_idle float _ ex_jit linear_gps
                  ex_beacon_conf ex_beacon_layout
                  [{| env_gps_ref_valid := true; env_xtal_correct_ok := false;
                      env_time_reference_gps := ex_tref; env_instcnt := 5200000 |}]
                  ex_beacon_vars
                  (or_intror (or_intror
                     (ex_intro _ _ (ex_intro _ _
                        (conj eq_refl (or_intror eq_refl)))))))).
Defined.

(* ---------------------------------------------------------------------- *)
(** ** [thread_up]: the counters of one received packet *)

Section UpstreamCounters.
Context {D : Type} {ops : DoubleOps D} {hal : HalConsts}
        {gl : GpsLib D} {ul : UpstreamLib D}.

(** The filter counts every packet as received and at most one of the
    three CRC classes, and leaves the other upstream counters alone. *)
Lemma rx_filter_counters (fc : fwd_conf) (p : lgw_pkt_rx_s D) (m : meas_up) :
  let m' := snd (rx_filter fc p m) in
  m' meas_nb_rx_rcv = uint32 (m meas_nb_rx_rcv + 1)
  /\ m' meas_nb_rx_ok
     = (if rx_status p =? STAT_CRC_OK then uint32 (m meas_nb_rx_ok + 1)
        else m meas_nb_rx_ok)
  /\ m' meas_nb_rx_bad
     = (if negb (rx_status p =? STAT_CRC_OK) && (rx_status p =? STAT_CRC_BAD)
        then uint32 (m meas_nb_rx_bad + 1) else m meas_nb_rx_bad)
  /\ m' meas_nb_rx_nocrc
     = (if negb (rx_status p =? STAT_CRC_OK) && negb (rx_status p =? STAT_CRC_BAD)
           && (rx_status p =? STAT_NO_CRC)
        then uint32 (m meas_nb_rx_nocrc + 1) else m meas_nb_rx_nocrc)
  /\ m' meas_up_pkt_fwd = m meas_up_pkt_fwd
  /\ m' meas_up_payload_byte = m meas_up_payload_byte
  /\ m' meas_up_network_byte = m meas_up_network_byte
  /\ m' meas_up_dgram_sent = m meas_up_dgram_sent
  /\ m' meas_up_ack_rcv = m meas_up_ack_rcv.
Proof.
  unfold rx_filter.
  destruct (rx_status p =? STAT_CRC_OK);
    [|destruct (rx_status p =? STAT_CRC_BAD);
      [|destruct (rx_status p =? STAT_NO_CRC)]];
    cbn [snd negb andb];
    repeat split;
    repeat first [ rewrite meas_add_same | rewrite meas_add_other by congruence ];
    reflexivity.
Qed.

End UpstreamCounters.

(** X16. Whenever the handling of a received packet comes to its end
    (forwarded or skipped), [meas_nb_rx_rcv] has grown by one, whatever the
    packet; exactly the counter of its CRC class has grown by one
    ([meas_nb_rx_ok], [meas_nb_rx_bad] or [meas_nb_rx_nocrc], none for an
    unknown status); [meas_up_pkt_fwd] has grown by one and
    [meas_up_payload_byte] by the payload size exactly when the packet went
    into the datagram; and the datagram counters are untouched. *)
Theorem serialize_rxpk_counters :
  forall (D : Type) (ops : DoubleOps D) (hal : HalConsts)
         (gl : GpsLib D) (ul : UpstreamLib D)
         fc ref_ok local_ref pkt_in_dgram (p : lgw_pkt_rx_s D) m,
    match serialize_rxpk fc ref_ok local_ref pkt_in_dgram p m with
    | Done (text, m') =>
        m' meas_nb_rx_rcv = uint32 (m meas_nb_rx_rcv + 1)
        /\ m' meas_nb_rx_ok
           = (if rx_status p =? STAT_CRC_OK then uint32 (m meas_nb_rx_ok + 1)
              else m meas_nb_rx_ok)
        /\ m' meas_nb_rx_bad
           = (if negb (rx_status p =? STAT_CRC_OK) && (rx_status p =? STAT_CRC_BAD)
              then uint32 (m meas_nb_rx_bad + 1) else m meas_nb_rx_bad)
        /\ m' meas_nb_rx_nocrc
           = (if negb (rx_status p =? STAT_CRC_OK)
                 && negb (rx_status p =? STAT_CRC_BAD)
                 && (rx_status p =? STAT_NO_CRC)
              then uint32 (m meas_nb_rx_nocrc + 1) else m meas_nb_rx_nocrc)
        /\ m' meas_up_pkt_fwd
           = match text with
             | Some _ => uint32 (m meas_up_pkt_fwd + 1)
             | None => m meas_up_pkt_fwd
             end
        /\ m' meas_up_payload_byte
           = match text with
             | Some _ => uint32 (m meas_up_payload_byte + rx_size p)
             | None => m meas_up_payload_byte
             end
        /\ m' meas_up_network_byte = m meas_up_network_byte
        /\ m' meas_up_dgram_sent = m meas_up_dgram_sent
        /\ m' meas_up_ack_rcv = m meas_up_ack_rcv
    | _ => True
    end.
Proof.
  intros D ops hal gl ul fc ref_ok local_ref n p m.
  unfold serialize_rxpk.
  pose proof (rx_filter_counters fc p m) as Hf.
  destruct (rx_filter fc p m) as [fw m1]. cbn [snd] in Hf.
  destruct Hf as (H1 & H2 & H3 & H4 & H5 & H6 & H7 & H8 & H9).
  destruct fw; cbn [negb].
  2:{ repeat split; assumption. }
  repeat match goal with
         | |- context [run_bind ?x _] =>
             destruct x; cbn [run_bind]; try exact I
         end.
  repeat split;
    repeat first [ rewrite meas_add_same | rewrite meas_add_other by congruence ];
    try assumption; congruence.
Qed.

(* ---------------------------------------------------------------------- *)
(** ** The gateway ID in the datagram headers *)

Ltac decide_cmp :=
  repeat match goal with
    | |- context [?a <? ?b] =>
        first [ replace (a <? b) with true by (symmetry; apply Z.ltb_lt; lia)
              | replace (a <? b) with false by (symmetry; apply Z.ltb_ge; lia) ]
    | |- context [?a <=? ?b] =>
        first [ replace (a <=? b) with true by (symmetry; apply Z.leb_le; lia)
              | replace (a <=? b) with false by (symmetry; apply Z.leb_gt; lia) ]
    end.

Lemma testbit_byte_mask s i :
  0 <= s -> 0 <= i ->
  Z.testbit (Z.shiftl (Z.ones 8) s) i = (s <=? i) && (i <? s + 8).
Proof.
  intros Hs Hi. destruct (Z.leb_spec s i) as [Hle|Hgt].
  - rewrite Z.shiftl_spec by lia. rewrite Z.testbit_ones_nonneg by lia.
    cbn [andb]. destruct (Z.ltb_spec (i - s) 8), (Z.ltb_spec i (s + 8)); lia || reflexivity.
  - rewrite Z.shiftl_spec_low by lia. reflexivity.
Qed.

Lemma uint32_testbit y i :
  0 <= i -> Z.testbit (uint32 y) i = (i <? 32) && Z.testbit y i.
Proof.
  intros Hi. unfold uint32, wrap_unsigned. destruct (Z.ltb_spec i 32).
  - rewrite Z.mod_pow2_bits_low by lia. reflexivity.
  - rewrite Z.mod_pow2_bits_high by lia. reflexivity.
Qed.

Lemma htonl_testbit x i :
  0 <= i ->
  Z.testbit (htonl x) i
  = (Z.testbit x (i + 24) && (i <? 8))
    || (Z.testbit x (i + 8) && (8 <=? i) && (i <? 16))
    || (Z.testbit x (i - 8) && (16 <=? i) && (i <? 24))
    || (Z.testbit x (i - 24) && (24 <=? i) && (i <? 32)).
Proof.
  intros Hi. unfold htonl.
  change 0xff000000 with (Z.shiftl (Z.ones 8) 24).
  change 0x00ff0000 with (Z.shiftl (Z.ones 8) 16).
  change 0x0000ff00 with (Z.shiftl (Z.ones 8) 8).
  change 0x000000ff with (Z.shiftl (Z.ones 8) 0).
  rewrite !Z.lor_spec, !Z.shiftr_spec by lia.
  rewrite !Z.land_spec, !testbit_byte_mask by lia.
  destruct (Z.ltb_spec i 8).
  { rewrite !Z.shiftl_spec_low by lia. decide_cmp.
    rewrite !andb_false_r, !orb_false_r. reflexivity. }
  destruct (Z.ltb_spec i 16).
  { rewrite Z.shiftl_spec by lia. rewrite Z.shiftl_spec_low by lia.
    rewrite Z.land_spec, testbit_byte_mask by lia. decide_cmp.
    rewrite !andb_false_r, !andb_true_r, !orb_false_r. cbn [orb].
    f_equal. }
  destruct (Z.ltb_spec i 24).
  { rewrite (Z.shiftl_spec_low _ 24) by lia. rewrite Z.shiftl_spec by lia.
    rewrite Z.land_spec, testbit_byte_mask by lia. decide_cmp.
    rewrite !andb_false_r, !andb_true_r, ?orb_false_r. cbn [orb]. reflexivity. }
  rewrite !Z.shiftl_spec by lia.
  rewrite !Z.land_spec, !testbit_byte_mask by lia.
  destruct (Z.ltb_spec i 32).
  { decide_cmp. rewrite !andb_false_r, !andb_true_r. cbn [orb]. reflexivity. }
  decide_cmp. rewrite !andb_false_r. reflexivity.
Qed.

Lemma byte_of_htonl x k j :
  In (k, j) [(0, 24); (8, 16); (16, 8); (24, 0)] ->
  Z.land (Z.shiftr (htonl (uint32 (Z.land 0xFFFFFFFF x))) k) 255
  = Z.land 255 (Z.shiftr x j).
Proof.
  intros Hkj.
  assert (Hk : 0 <= k /\ 0 <= j /\ k + j = 24 /\ (k = 0 \/ k = 8 \/ k = 16 \/ k = 24)).
  { cbn [In] in Hkj. destruct Hkj as [E|[E|[E|[E|[]]]]]; inversion E; lia. }
  clear Hkj. destruct Hk as (Hk0 & Hj0 & Hsum & Hk).
  apply Z.bits_inj'. intros n Hn.
  rewrite !Z.land_spec, !Z.shiftr_spec by lia.
  change 255 with (Z.ones 8). rewrite Z.testbit_ones_nonneg by lia.
  destruct (Z.ltb_spec n 8) as [Hlt|Hge]; [|rewrite andb_false_r; reflexivity].
  rewrite andb_true_r. cbn [andb].
  rewrite htonl_testbit by lia.
  change 0xFFFFFFFF with (Z.ones 32).
  destruct Hk as [E|[E|[E|E]]]; subst k;
    rewrite !uint32_testbit by lia;
    rewrite !Z.land_spec;
    rewrite !Z.testbit_ones_nonneg by lia;
    decide_cmp;
    rewrite ?andb_false_r, ?andb_true_r; cbn [orb andb];
    rewrite ?orb_false_r; f_equal; lia.
Qed.

Lemma store_uint32_htonl x :
  store_uint32 (htonl (uint32 (Z.land 0xFFFFFFFF x))) = be_bytes 4 x.
Proof.
  unfold store_uint32, be_bytes, le_bytes. cbn [seq map rev app].
  rewrite <- (Z.shiftr_0_r (htonl (uint32 (Z.land 0xFFFFFFFF x)))) at 1.
  rewrite (byte_of_htonl x 0 24) by (cbn; tauto).
  rewrite (byte_of_htonl x 8 16) by (cbn; tauto).
  rewrite (byte_of_htonl x 16 8) by (cbn; tauto).
  rewrite (byte_of_htonl x 24 0) by (cbn; tauto).
  reflexivity.
Qed.

(** X17. The gateway ID on the wire. With [net_mac_h] and [net_mac_l] as
    [main] computes them from the 64-bit gateway ID, bytes 4 to 11 of the
    header of every datagram the gateway sends (PUSH_DATA, PULL_DATA,
    TX_ACK) are the eight bytes of the ID, most significant first. *)
Theorem gateway_id_network_order :
  forall lgwm token_h token_l pkt_type m,
    dgram_header (main_net_mac lgwm) token_h token_l pkt_type
    = [PROTOCOL_VERSION; token_h; token_l; pkt_type] ++ be_bytes 8 lgwm
    /\ fst (send_tx_ack (main_net_mac lgwm) token_h token_l JIT_ERROR_OK 0 m)
       = [PROTOCOL_VERSION; token_h; token_l; PKT_TX_ACK] ++ be_bytes 8 lgwm.
Proof.
  intros lgwm token_h token_l pkt_type m.
  assert (Hmac : store_uint32 (net_mac_h (main_net_mac lgwm))
                   ++ store_uint32 (net_mac_l (main_net_mac lgwm))
                 = be_bytes 8 lgwm).
  { unfold main_net_mac. cbn [net_mac_h net_mac_l].
    rewrite !store_uint32_htonl.
    unfold be_bytes, le_bytes. cbn [seq map rev app].
    rewrite !Z.shiftr_shiftr by lia. reflexivity. }
  split.
  - unfold dgram_header. rewrite Hmac. reflexivity.
  - unfold send_tx_ack, tx_ack_json. cbn [fst bytes_of_string list_ascii_of_string map].
    rewrite app_nil_r. unfold tx_ack_prefix. rewrite Hmac. reflexivity.
Qed.

(* ---------------------------------------------------------------------- *)
(** ** [thread_up]: the datagram of one pass *)

Lemma uint32_add_idemp a b : uint32 (uint32 a + b) = uint32 (a + b).
Proof. unfold uint32, wrap_unsigned. apply Zplus_mod_idemp_l. Qed.

Lemma string_app_assoc (a b c : string) :
  ((a ++ b) ++ c)%string = (a ++ (b ++ c))%string.
Proof. induction a as [|x a IH]; cbn; [reflexivity | now rewrite IH]. Qed.

Lemma run_Done_inj {A : Type} (a b : A) : Done a = Done b -> a = b.
Proof. intros H. inversion H. reflexivity. Qed.

Lemma push_ack_wait_meas n token_h token_l :
  forall rs buff_ack (m : meas_up),
    snd (push_ack_wait n token_h token_l rs buff_ack m) = m
    \/ snd (push_ack_wait n token_h token_l rs buff_ack m)
       = meas_add meas_up_ack_rcv 1 m.
Proof.
  induction n as [|n IH]; intros rs buff_ack m; [left; reflexivity|].
  destruct rs as [|r rs]; [left; reflexivity|].
  cbn [push_ack_wait].
  pose proof (push_ack_body_spec token_h token_l r buff_ack m) as Hb.
  destruct (push_ack_body token_h token_l r buff_ack m) as [[c b1] m1].
  cbn [fst snd] in Hb.
  destruct Hb as [(d & _ & _ & Hm & Hc) | (_ & Hm)]; subst.
  - right. reflexivity.
  - destruct c; [apply IH | left; reflexivity].
Qed.

Section UpstreamPass.
Context {D : Type} {ops : DoubleOps D} {hal : HalConsts}
        {gl : GpsLib D} {ul : UpstreamLib D}.

(** The serialization of a packet leaves the datagram counters alone. *)
Lemma serialize_rxpk_dgram_counters fc ref_ok local_ref n (p : lgw_pkt_rx_s D) m t m' :
  serialize_rxpk fc ref_ok local_ref n p m = Done (t, m') ->
  m' meas_up_dgram_sent = m meas_up_dgram_sent
  /\ m' meas_up_network_byte = m meas_up_network_byte
  /\ m' meas_up_ack_rcv = m meas_up_ack_rcv.
Proof.
  unfold serialize_rxpk.
  pose proof (rx_filter_counters fc p m) as Hf.
  destruct (rx_filter fc p m) as [fw m1]. cbn [snd] in Hf.
  destruct Hf as (_ & _ & _ & _ & _ & _ & H7 & H8 & H9).
  destruct fw; cbn [negb].
  2:{ intros Hs. inversion Hs; subst. repeat split; assumption. }
  repeat match goal with
         | |- context [run_bind ?x _] =>
             destruct x; cbn [run_bind]; try discriminate
         end.
  intros Hs. inversion Hs; subst.
  rewrite !meas_add_other by congruence. repeat split; assumption.
Qed.

Lemma serialize_rxpks_dgram_counters fc ref_ok local_ref (pkts : list (lgw_pkt_rx_s D)) :
  forall n text m n' text' m',
    serialize_rxpks fc ref_ok local_ref pkts n text m = Done (n', text', m') ->
    m' meas_up_dgram_sent = m meas_up_dgram_sent
    /\ m' meas_up_network_byte = m meas_up_network_byte
    /\ m' meas_up_ack_rcv = m meas_up_ack_rcv.
Proof.
  induction pkts as [|p pkts IH]; intros n text m n' text' m' Hs.
  - inversion Hs; subst. repeat split.
  - cbn [serialize_rxpks] in Hs.
    destruct (serialize_rxpk fc ref_ok local_ref n p m) as [[t m1]| |] eqn:Hp;
      cbn [run_bind] in Hs; try discriminate.
    destruct (serialize_rxpk_dgram_counters _ _ _ _ _ _ _ _ Hp) as (H1 & H2 & H3).
    destruct t as [s|]; apply IH in Hs; destruct Hs as (G1 & G2 & G3);
      rewrite G1, G2, G3; repeat split; assumption.
Qed.

(** Packets that the filter rejects add no text. *)
Lemma serialize_rxpks_all_skipped fc ref_ok local_ref (pkts : list (lgw_pkt_rx_s D)) :
  forall n text m,
    Forall (fun p => rx_forwardable fc p = false) pkts ->
    exists m',
      serialize_rxpks fc ref_ok local_ref pkts n text m = Done (n, text, m')
      /\ m' meas_up_pkt_fwd = m meas_up_pkt_fwd
      /\ m' meas_up_payload_byte = m meas_up_payload_byte.
Proof.
  induction pkts as [|p pkts IH]; intros n text m Hall.
  - exists m. repeat split.
  - inversion Hall as [|? ? Hp Hrest]; subst.
    cbn [serialize_rxpks]. unfold serialize_rxpk at 1.
    pose proof (rx_filter_forwardable fc p m) as Hfw.
    pose proof (rx_filter_counters fc p m) as Hc.
    destruct (rx_filter fc p m) as [fw m1]. cbn [fst snd] in Hfw, Hc.
    rewrite Hp in Hfw. subst fw. cbn [negb run_bind].
    destruct Hc as (_ & _ & _ & _ & Hfwd & Hpay & _).
    destruct (IH n text m1 Hrest) as (m' & Hrun & Hf' & Hp').
    exists m'. split; [exact Hrun|]. split; congruence.
Qed.

(** What [thread_up_send] sends and counts. *)
Lemma thread_up_send_shape mac send_report status_report token_h token_l acks
      buff_ack report_ready text (m : meas_up) r :
  thread_up_send mac send_report status_report token_h token_l acks buff_ack
                 report_ready text m = Done r ->
  let text' := (text ++ (if send_report then status_report else EmptyString)
                     ++ "}")%string in
  up_sent r = Some (dgram_header mac token_h token_l PKT_PUSH_DATA
                      ++ bytes_of_string text')
  /\ 12 + Z.of_nat (String.length text') < TX_BUFF_SIZE
  /\ (send_report = true -> 0 < Z.of_nat (String.length status_report))
  /\ up_report_ready r = (if send_report then false else report_ready)
  /\ up_meas r meas_up_dgram_sent = uint32 (m meas_up_dgram_sent + 1)
  /\ up_meas r meas_up_network_byte
     = uint32 (m meas_up_network_byte + (12 + Z.of_nat (String.length text'))).
Proof.
  intros Hs text'. unfold thread_up_send in Hs.
  assert (Hrep : exists t1,
             (if send_report
              then if Z.of_nat (String.length status_report) >? 0
                   then Done (text ++ status_report)%string else ExitFailure
              else Done text) = Done t1
             /\ (t1 ++ "}")%string = text'
             /\ (send_report = true -> 0 < Z.of_nat (String.length status_report))).
  { subst text'. destruct send_report.
    - destruct (Z.of_nat (String.length status_report) >? 0) eqn:Hj;
        [|discriminate].
      eexists. split; [reflexivity|]. split.
      + apply string_app_assoc.
      + intros _. apply Z.gtb_lt in Hj. exact Hj.
    - eexists. split; [reflexivity|]. split; [reflexivity | discriminate]. }
  destruct Hrep as (t1 & Ht1 & Htext & Hj). rewrite Ht1 in Hs.
  cbn [run_bind] in Hs. unfold put_char in Hs.
  destruct (12 + Z.of_nat (String.length t1) <? TX_BUFF_SIZE); [|discriminate].
  cbn [run_bind] in Hs. rewrite Htext in Hs.
  destruct (12 + Z.of_nat (String.length text') <? TX_BUFF_SIZE) eqn:Hfit;
    [|discriminate].
  apply Z.ltb_lt in Hfit.
  pose proof (push_ack_wait_meas 2 token_h token_l acks buff_ack
                (meas_add meas_up_network_byte (12 + Z.of_nat (String.length text'))
                   (meas_add meas_up_dgram_sent 1 m))) as Hack.
  destruct (push_ack_wait 2 token_h token_l acks buff_ack _) as [b' m'].
  cbn [snd] in Hack. apply run_Done_inj in Hs. subst r.
  cbn [up_sent up_report_ready up_meas].
  split; [reflexivity|]. split; [exact Hfit|]. split; [exact Hj|].
  split; [reflexivity|].
  destruct Hack as [Hm|Hm]; rewrite Hm;
    repeat first [ rewrite meas_add_same | rewrite meas_add_other by congruence ];
    split; reflexivity.
Qed.

End UpstreamPass.

(** X18. One pass of the upstream loop, whenever it ends normally. If
    nothing is sent, no report was pending and the datagram counters, the
    acknowledgement buffer and [report_ready] are as before. If a datagram
    is sent, it starts with the PUSH_DATA header carrying the fresh token
    and the gateway MAC, ends with the closing brace of the JSON object,
    fits [buff_up] with its terminator, and is counted once in
    [meas_up_dgram_sent] and with its full length in
    [meas_up_network_byte]; the pending report, if any, has been
    consumed. *)
Theorem thread_up_pass_datagram :
  forall (D : Type) (ops : DoubleOps D) (hal : HalConsts)
         (gl : GpsLib D) (ul : UpstreamLib D)
         mac fc gps_on ref_valid (time_ref : tref D) fetch report_ready status_report
         rand_h rand_l acks buff_ack m,
    match thread_up_pass mac fc gps_on ref_valid time_ref fetch report_ready
                         status_report rand_h rand_l acks buff_ack m with
    | Done r =>
        match up_sent r with
        | None =>
            report_ready = false
            /\ up_report_ready r = false
            /\ up_buff_ack r = buff_ack
            /\ up_meas r meas_up_dgram_sent = m meas_up_dgram_sent
            /\ up_meas r meas_up_network_byte = m meas_up_network_byte
            /\ up_meas r meas_up_ack_rcv = m meas_up_ack_rcv
        | Some dgram =>
            exists text,
              dgram = dgram_header mac (uint8 rand_h) (uint8 rand_l) PKT_PUSH_DATA
                        ++ bytes_of_string (text ++ "}")
              /\ Z.of_nat (length dgram) < TX_BUFF_SIZE
              /\ up_report_ready r = false
              /\ up_meas r meas_up_dgram_sent = uint32 (m meas_up_dgram_sent + 1)
              /\ up_meas r meas_up_network_byte
                 = uint32 (m meas_up_network_byte + Z.of_nat (length dgram))
        end
    | _ => True
    end.
Proof.
  intros D ops hal gl ul mac fc gps_on ref_valid time_ref fetch report_ready
         status_report rand_h rand_l acks buff_ack m.
  assert (Hsend : forall text m1 r,
             m1 meas_up_dgram_sent = m meas_up_dgram_sent ->
             m1 meas_up_network_byte = m meas_up_network_byte ->
             thread_up_send mac report_ready status_report (uint8 rand_h) (uint8 rand_l)
                            acks buff_ack report_ready text m1 = Done r ->
             match up_sent r with
             | None =>
                 report_ready = false
                 /\ up_report_ready r = false
                 /\ up_buff_ack r = buff_ack
                 /\ up_meas r meas_up_dgram_sent = m meas_up_dgram_sent
                 /\ up_meas r meas_up_network_byte = m meas_up_network_byte
                 /\ up_meas r meas_up_ack_rcv = m meas_up_ack_rcv
             | Some dgram =>
                 exists text,
                   dgram = dgram_header mac (uint8 rand_h) (uint8 rand_l) PKT_PUSH_DATA
                             ++ bytes_of_string (text ++ "}")
                   /\ Z.of_nat (length dgram) < TX_BUFF_SIZE
                   /\ up_report_ready r = false
                   /\ up_meas r meas_up_dgram_sent = uint32 (m meas_up_dgram_sent + 1)
                   /\ up_meas r meas_up_network_byte
                      = uint32 (m meas_up_network_byte + Z.of_nat (length dgram))
             end).
  { intros text m1 r Hd Hn Hs.
    destruct (thread_up_send_shape _ _ _ _ _ _ _ _ _ _ _ Hs)
      as (Hsent & Hfit & _ & Hrr & Hds & Hnb).
    rewrite Hsent.
    assert (Hlen : Z.of_nat (length
                     (dgram_header mac (uint8 rand_h) (uint8 rand_l) PKT_PUSH_DATA
                        ++ bytes_of_string
                             (text ++ (if report_ready then status_report
                                       else EmptyString) ++ "}")))
                   = 12 + Z.of_nat (String.length
                             (text ++ (if report_ready then status_report
                                       else EmptyString) ++ "}"))).
    { rewrite length_app, bytes_of_string_length.
      cbn [dgram_header length app store_uint32]. lia. }
    cbv beta iota.
    exists (text ++ (if report_ready then status_report else EmptyString))%string.
    rewrite string_app_assoc.
    split; [reflexivity|]. rewrite Hlen. split; [exact Hfit|].
    split; [rewrite Hrr; destruct report_ready; reflexivity|].
    rewrite Hds, Hnb, Hd, Hn. split; reflexivity. }
  unfold thread_up_pass. destruct fetch as [pkts|]; [|exact I].
  destruct ((Z.of_nat (length pkts) =? 0) && negb report_ready) eqn:Hidle.
  { cbn [up_sent up_report_ready up_buff_ack up_meas].
    apply andb_prop in Hidle. destruct Hidle as [_ Hr].
    apply negb_true_iff in Hr. subst report_ready. repeat split. }
  cbv zeta.
  destruct (serialize_rxpks fc _ time_ref pkts 0 _ m) as [[[n text] m1]| |] eqn:Hser;
    cbn [run_bind]; try exact I.
  destruct (serialize_rxpks_dgram_counters _ _ _ _ _ _ _ _ _ _ Hser) as (Hd & Hn & Ha).
  destruct (n =? 0).
  - destruct report_ready eqn:Hrr.
    + destruct (thread_up_send _ _ _ _ _ _ _ _ _ _) as [r| |] eqn:Hs; try exact I.
      exact (Hsend _ _ _ Hd Hn Hs).
    + cbn [up_sent up_report_ready up_buff_ack up_meas]. repeat split; assumption.
  - unfold put_char at 1.
    destruct (12 + Z.of_nat (String.length text) <? TX_BUFF_SIZE);
      cbn [run_bind]; [|exact I].
    destruct (if report_ready then put_char "," (text ++ "]")
              else Done (text ++ "]")%string)
      as [t2| |]; cbn [run_bind]; try exact I.
    destruct (thread_up_send _ _ _ _ _ _ _ _ _ _) as [r| |] eqn:Hs; try exact I.
    exact (Hsend _ _ _ Hd Hn Hs).
Qed.

(** X19. Report-only and empty passes. When every packet fetched is
    rejected by the filter (or none was fetched) and a status report of
    1 to 199 characters is pending, the datagram sent is the header
    followed by the report between braces, without any trace of
    the packet array, and the report is consumed. Without a pending report
    the same pass sends nothing. In both cases no packet is counted as
    forwarded. *)
Theorem thread_up_report_only :
  forall (D : Type) (ops : DoubleOps D) (hal : HalConsts)
         (gl : GpsLib D) (ul : UpstreamLib D)
         mac fc gps_on ref_valid (time_ref : tref D) (pkts : list (lgw_pkt_rx_s D))
         report_ready status_report rand_h rand_l acks buff_ack m,
    Forall (fun p => rx_forwardable fc p = false) pkts ->
    (0 < String.length status_report < 200)%nat ->
    exists r,
      thread_up_pass mac fc gps_on ref_valid time_ref (Some pkts) report_ready
                     status_report rand_h rand_l acks buff_ack m = Done r
      /\ up_sent r
         = (if report_ready
            then Some (dgram_header mac (uint8 rand_h) (uint8 rand_l) PKT_PUSH_DATA
                         ++ bytes_of_string ("{" ++ status_report ++ "}"))
            else None)
      /\ up_report_ready r = false
      /\ up_meas r meas_up_pkt_fwd = m meas_up_pkt_fwd.
Proof.
  intros D ops hal gl ul mac fc gps_on ref_valid time_ref pkts report_ready
         status_report rand_h rand_l acks buff_ack m Hall Hlen.
  unfold thread_up_pass.
  destruct ((Z.of_nat (length pkts) =? 0) && negb report_ready) eqn:Hidle.
  { apply andb_prop in Hidle. destruct Hidle as [_ Hr].
    apply negb_true_iff in Hr. subst report_ready.
    eexists. split; [reflexivity|]. repeat split. }
  cbv zeta.
  destruct (serialize_rxpks_all_skipped fc
              (if (Z.of_nat (length pkts) >? 0) && gps_on then ref_valid else false)
              time_ref pkts 0 ("{" ++ quoted "rxpk" ++ ":[")%string m Hall)
    as (m1 & Hser & Hfwd & _).
  rewrite Hser. cbn [run_bind]. change (0 =? 0) with true. cbv iota.
  destruct report_ready.
  2:{ eexists. split; [reflexivity|]. cbn [up_sent up_report_ready up_meas].
      repeat split. exact Hfwd. }
  change (substring 0 (String.length ("{" ++ quoted "rxpk" ++ ":[") - 8)
            ("{" ++ quoted "rxpk" ++ ":[")%string) with "{"%string.
  unfold thread_up_send.
  assert (Hj : (Z.of_nat (String.length status_report) >? 0) = true)
    by (apply Z.gtb_lt; lia).
  rewrite Hj. cbn [run_bind]. unfold put_char.
  assert (Hl1 : String.length ("{" ++ status_report)
                = S (String.length status_report)) by reflexivity.
  assert (Hl2 : String.length (("{" ++ status_report) ++ "}")
                = S (S (String.length status_report))).
  { rewrite string_length_append, Hl1. cbn [String.length]. lia. }
  assert (Hf1 : (12 + Z.of_nat (String.length ("{" ++ status_report)) <? TX_BUFF_SIZE)
                = true).
  { apply Z.ltb_lt. rewrite Hl1. unfold TX_BUFF_SIZE, NB_PKT_MAX, STATUS_SIZE. lia. }
  assert (Hf2 : (12 + Z.of_nat (String.length (("{" ++ status_report) ++ "}"))
                 <? TX_BUFF_SIZE) = true).
  { apply Z.ltb_lt. rewrite Hl2. unfold TX_BUFF_SIZE, NB_PKT_MAX, STATUS_SIZE. lia. }
  rewrite Hf1. cbn [run_bind]. rewrite Hf2.
  pose proof (push_ack_wait_meas 2 (uint8 rand_h) (uint8 rand_l) acks buff_ack
                (meas_add meas_up_network_byte
                   (12 + Z.of_nat (String.length (("{" ++ status_report) ++ "}")))
                   (meas_add meas_up_dgram_sent 1 m1))) as Hack.
  destruct (push_ack_wait 2 _ _ acks buff_ack _) as [b' m'].
  cbn [snd] in Hack.
  eexists. split; [reflexivity|]. cbn [up_sent up_report_ready up_meas].
  split; [|split; [reflexivity|]].
  - rewrite <- string_app_assoc. reflexivity.
  - destruct Hack as [Hm|Hm]; rewrite Hm;
      rewrite !meas_add_other by congruence; exact Hfwd.
Qed.

(** The theorem on a pass that fetched one packet with a bad CRC, which
    the configuration does not forward, while a report is pending. *)
Lemma thread_up_report_only_witness :
  exists r,
    thread_up_pass (ops := float_ops) (hal := sx1302_hal) (gl := linear_gps)
      (ul := plain_upstream_lib)
      ex_down_mac {| fwd_valid_pkt := true; fwd_error_pkt := false;
                     fwd_nocrc_pkt := false |}
      true true ex_tref (Some [ex_rx_bad_crc]) true ex_status_report
      0x1234 0x56 [] (repeat 0 32) meas_zero = Done r
    /\ up_sent r
       = Some ([2; 0x34; 0x56; 0; 4; 3; 2; 1; 8; 7; 6; 5]
                 ++ bytes_of_string ("{" ++ ex_status_report ++ "}")).
Proof.
  destruct (thread_up_report_only float float_ops sx1302_hal linear_gps
              plain_upstream_lib
              ex_down_mac {| fwd_valid_pkt := true; fwd_error_pkt := false;
                             fwd_nocrc_pkt := false |}
              true true ex_tref [ex_rx_bad_crc] true ex_status_report
              0x1234 0x56 [] (repeat 0 32) meas_zero
              ltac:(repeat constructor) ltac:(cbn; lia))
    as (r & Hrun & Hsent & _).
  exists r. split; [exact Hrun | exact Hsent].
Defined.

(* ---------------------------------------------------------------------- *)
(** ** [thread_down]: keep-alive and auto-quit *)

Section KeepAlive.
Context {D : Type} {ops : DoubleOps D} {J : Type} {jq : JitQueue J}
        {hal : HalConsts} {gl : GpsLib D} {pl : ParseLib D}.
Variable bcfg : beacon_conf.
Variable layout : beacon_layout.
Variable cfg : down_conf.

(** A pass of the inner loop keeps the token; it keeps [req_ack] and
    [autoquit_cnt] too, unless it takes a PULL_ACK for the token. *)
Lemma thread_down_inner_cases (i : down_input D) (s s' : down_loop J) out :
  thread_down_inner bcfg layout cfg i s = Done (s', out) ->
  token_h (dl_state s') = token_h (dl_state s)
  /\ token_l (dl_state s') = token_l (dl_state s)
  /\ ((req_ack (dl_state s') = req_ack (dl_state s)
       /\ autoquit_cnt (dl_state s') = autoquit_cnt (dl_state s))
      \/ (req_ack (dl_state s) = false
          /\ (exists dgram,
                 in_recv i = RecvData dgram
                 /\ is_pull_ack_for (token_h (dl_state s)) (token_l (dl_state s)) dgram)
          /\ req_ack (dl_state s') = true
          /\ autoquit_cnt (dl_state s') = 0)).
Proof.
  unfold thread_down_inner.
  destruct (jit_queue (dl_state s)) as [|q0 qs]; [discriminate|].
  cbv zeta.
  match goal with
  | |- context [thread_down_handle cfg ?e ?r ?st1] =>
      destruct (thread_down_handle cfg e r st1) as [[st2 o]| |] eqn:Hh;
      cbn [run_bind]; try discriminate
  end.
  intros Hs. apply run_Done_inj in Hs. injection Hs as Hs' Hout. subst s' out.
  cbn [dl_state fst].
  destruct (thread_down_handle_cases _ _ _ _ _ _ _ _ _ _ _ _ _ Hh)
    as (Hth & Htl & _ & Hcases).
  cbn [token_h token_l set_down_meas set_jit_queue req_ack autoquit_cnt] in *.
  split; [exact Hth|]. split; [exact Htl|].
  destruct Hcases as [[_ [Hsame | (Hreq & Hack & Hst)]]
                     | (dgram & json & _ & _ & _ & _ & Hra & Hac & _)].
  - left. subst st2. split; reflexivity.
  - right. subst st2. cbn [req_ack autoquit_cnt]. repeat split; assumption.
  - left. split; assumption.
Qed.

(** A PULL_ACK for the pending token is taken when none was taken
    before. *)
Lemma thread_down_inner_ack (i : down_input D) (s s' : down_loop J) out dgram :
  thread_down_inner bcfg layout cfg i s = Done (s', out) ->
  in_recv i = RecvData dgram ->
  is_pull_ack_for (token_h (dl_state s)) (token_l (dl_state s)) dgram ->
  req_ack (dl_state s) = false ->
  req_ack (dl_state s') = true /\ autoquit_cnt (dl_state s') = 0.
Proof.
  unfold thread_down_inner.
  destruct (jit_queue (dl_state s)) as [|q0 qs]; [discriminate|].
  cbv zeta. intros Hs Hr (Hlen & Hv & Ht & H1 & H2) Hreq. rewrite Hr in Hs.
  match type of Hs with
  | context [thread_down_handle cfg ?e _ ?st1] =>
      destruct (thread_down_handle_takes_ack cfg e dgram st1
                  (conj Hlen (conj Hv (conj Ht (conj H1 H2)))) Hreq)
        as (st2 & Hh & Ha & Hb);
      rewrite Hh in Hs
  end.
  cbn [run_bind fst] in Hs. apply run_Done_inj in Hs. injection Hs as Hs' _.
  subst s'. cbn [dl_state]. split; assumption.
Qed.

(** While no datagram acknowledges the pending PULL_DATA, the inner loop
    leaves the token, [req_ack] and [autoquit_cnt] as they are. *)
Lemma thread_down_listen_unacked (inputs : list (down_input D)) :
  forall (s s' : down_loop J) out,
    Forall (fun i => forall dgram,
                in_recv i = RecvData dgram ->
                ~ is_pull_ack_for (token_h (dl_state s)) (token_l (dl_state s)) dgram)
           inputs ->
    thread_down_listen bcfg layout cfg inputs s = Done (s', out) ->
    token_h (dl_state s') = token_h (dl_state s)
    /\ token_l (dl_state s') = token_l (dl_state s)
    /\ req_ack (dl_state s') = req_ack (dl_state s)
    /\ autoquit_cnt (dl_state s') = autoquit_cnt (dl_state s).
Proof.
  induction inputs as [|i inputs IH]; intros s s' out Hall Hs.
  - apply run_Done_inj in Hs. injection Hs as Hs' _. subst s'. repeat split.
  - cbn [thread_down_listen] in Hs.
    destruct (thread_down_inner bcfg layout cfg i s) as [[s1 o1]| |] eqn:Hi;
      cbn [run_bind fst snd] in Hs; try discriminate.
    destruct (thread_down_listen bcfg layout cfg inputs s1) as [[s2 o2]| |] eqn:Hl;
      cbn [run_bind fst snd] in Hs; try discriminate.
    apply run_Done_inj in Hs. injection Hs as Hs' _. subst s'.
    inversion Hall as [|? ? Hno Hrest]; subst.
    destruct (thread_down_inner_cases i s s1 o1 Hi)
      as (Hth & Htl & [[Hra Hac] | (_ & (dgram & Hr & Hack) & _)]).
    2:{ exfalso. exact (Hno dgram Hr Hack). }
    destruct (IH s1 s2 o2) as (G1 & G2 & G3 & G4);
      [rewrite Hth, Htl; exact Hrest | exact Hl |].
    rewrite G1, G2, G3, G4. repeat split; assumption.
Qed.

(** Once a PULL_ACK for the pending token has come in, the inner loop
    ends with [req_ack] set and [autoquit_cnt] cleared. *)
Lemma thread_down_listen_acked (inputs : list (down_input D)) :
  forall (s s' : down_loop J) out,
    (req_ack (dl_state s) = true -> autoquit_cnt (dl_state s) = 0) ->
    req_ack (dl_state s) = true
    \/ Exists (fun i => exists dgram,
                   in_recv i = RecvData dgram
                   /\ is_pull_ack_for (token_h (dl_state s)) (token_l (dl_state s))
                                      dgram) inputs ->
    thread_down_listen bcfg layout cfg inputs s = Done (s', out) ->
    req_ack (dl_state s') = true /\ autoquit_cnt (dl_state s') = 0.
Proof.
  induction inputs as [|i inputs IH]; intros s s' out Hinv Hack Hs.
  - apply run_Done_inj in Hs. injection Hs as Hs' _. subst s'.
    destruct Hack as [Hreq | Hex]; [|inversion Hex].
    split; [exact Hreq | exact (Hinv Hreq)].
  - cbn [thread_down_listen] in Hs.
    destruct (thread_down_inner bcfg layout cfg i s) as [[s1 o1]| |] eqn:Hi;
      cbn [run_bind fst snd] in Hs; try discriminate.
    destruct (thread_down_listen bcfg layout cfg inputs s1) as [[s2 o2]| |] eqn:Hl;
      cbn [run_bind fst snd] in Hs; try discriminate.
    apply run_Done_inj in Hs. injection Hs as Hs' _. subst s'.
    pose proof (thread_down_inner_cases i s s1 o1 Hi) as (Hth & Htl & Hcases).
    apply (IH s1 s2 o2); [| |exact Hl].
    + destruct Hcases as [[Hra Hac] | (_ & _ & Hra & Hac)].
      * rewrite Hra, Hac. exact Hinv.
      * intros _. exact Hac.
    + destruct (req_ack (dl_state s)) eqn:Hreq.
      * left. destruct Hcases as [[Hra _] | (Hf & _)]; [congruence | discriminate].
      * destruct Hack as [Hreq' | Hex]; [discriminate|].
        inversion Hex as [? ? (dgram & Hr & Hd) | ? ? Hlater]; subst.
        -- left. exact (proj1 (thread_down_inner_ack i s s1 o1 dgram Hi Hr Hd Hreq)).
        -- right. rewrite Hth, Htl. exact Hlater.
Qed.

(** The inner loop sends TX_ACK datagrams only. *)
Lemma thread_down_listen_sends (inputs : list (down_input D)) :
  forall (s s' : down_loop J) out,
    thread_down_listen bcfg layout cfg inputs s = Done (s', out) ->
    filter (fun d => byte_at d 3 =? PKT_PULL_DATA) out = [].
Proof.
  induction inputs as [|i inputs IH]; intros s s' out Hs.
  - apply run_Done_inj in Hs. injection Hs as _ Hout. subst out. reflexivity.
  - cbn [thread_down_listen] in Hs.
    destruct (thread_down_inner bcfg layout cfg i s) as [[s1 o1]| |] eqn:Hi;
      cbn [run_bind fst snd] in Hs; try discriminate.
    destruct (thread_down_listen bcfg layout cfg inputs s1) as [[s2 o2]| |] eqn:Hl;
      cbn [run_bind fst snd] in Hs; try discriminate.
    apply run_Done_inj in Hs. injection Hs as _ Hout. subst out.
    rewrite filter_app, (IH s1 s2 o2 Hl), app_nil_r.
    unfold thread_down_inner in Hi.
    destruct (jit_queue (dl_state s)) as [|q0 qs]; [discriminate|].
    cbv zeta in Hi.
    match type of Hi with
    | context [thread_down_handle cfg ?e ?r ?st1] =>
        destruct (thread_down_handle cfg e r st1) as [[st2 o]| |] eqn:Hh;
        cbn [run_bind] in Hi; try discriminate
    end.
    apply run_Done_inj in Hi. injection Hi as _ Ho. subst o1. cbn [snd].
    destruct (thread_down_handle_cases _ _ _ _ _ _ _ _ _ _ _ _ _ Hh)
      as (_ & _ & _ & [[Ho _] | (dgram & json & _ & _ & _ & _ & _ & _ & Ho)]);
      rewrite Ho; reflexivity.
Qed.

End KeepAlive.

(** X20. Auto-quit. With a threshold between 1 and 2^32 - 1 and
    [autoquit_cnt] at [c], at most the threshold, passes of the outer loop
    in which no datagram acknowledges the PULL_DATA just sent add one to
    [autoquit_cnt] each: the thread sends [threshold - c] more PULL_DATA, one
    in each such pass, and sets [exit_sig] at the head of the next pass
    without sending another. *)
Theorem thread_down_autoquit :
  forall (D : Type) (ops : DoubleOps D) (J : Type) (jq : JitQueue J)
         (hal : HalConsts) (gl : GpsLib D) (pl : ParseLib D)
         (bcfg : beacon_conf) (layout : beacon_layout) (cfg : down_conf)
         threshold (passes : list (Z * Z * list (down_input D)))
         (s s' : down_loop J) out exited,
    0 < threshold < 2 ^ 32 ->
    0 <= autoquit_cnt (dl_state s) <= threshold ->
    Forall pass_unacked passes ->
    thread_down_run bcfg layout cfg threshold passes s = Done (s', out, exited) ->
    let c := autoquit_cnt (dl_state s) in
    let n := Z.of_nat (length passes) in
    let pulls := Z.of_nat (length (filter (fun d => byte_at d 3 =? PKT_PULL_DATA) out)) in
    (n <= threshold - c ->
     exited = false /\ autoquit_cnt (dl_state s') = c + n /\ pulls = n)
    /\ (threshold - c < n ->
        exited = true /\ autoquit_cnt (dl_state s') = threshold
        /\ pulls = threshold - c).
Proof.
  intros D ops J jq hal gl pl bcfg layout cfg threshold passes.
  induction passes as [|[[rand_h rand_l] inputs] passes IH];
    intros s s' out exited Hth Hc Hall Hs c n pulls; subst c n pulls.
  - apply run_Done_inj in Hs. injection Hs as Hs' Hout Hex. subst s' out exited.
    cbn [length Z.of_nat filter]. split; [|lia].
    intros _. split; [reflexivity|]. split; [lia | reflexivity].
  - cbn [thread_down_run] in Hs. unfold thread_down_pull in Hs.
    inversion Hall as [|? ? Hpass Hrest]; subst.
    destruct ((threshold >? 0) && (autoquit_cnt (dl_state s) >=? threshold)) eqn:Hq.
    + apply run_Done_inj in Hs. injection Hs as Hs' Hout Hex. subst s' out exited.
      apply andb_prop in Hq. destruct Hq as [_ Hge]. apply Z.geb_le in Hge.
      cbn [length filter]. split.
      * intros Hn. rewrite Nat2Z.inj_succ in Hn. lia.
      * intros _. split; [reflexivity|]. cbn [Z.of_nat]. split; lia.
    + assert (Hlt : autoquit_cnt (dl_state s) < threshold).
      { apply andb_false_iff in Hq. destruct Hq as [Hq|Hq].
        - rewrite Z.gtb_ltb in Hq. apply Z.ltb_ge in Hq. lia.
        - rewrite Z.geb_leb in Hq. apply Z.leb_gt in Hq. exact Hq. }
      cbv zeta in Hs.
      match type of Hs with
      | context [thread_down_listen bcfg layout cfg inputs ?s0] =>
          destruct (thread_down_listen bcfg layout cfg inputs s0)
            as [[s1 o1]| |] eqn:Hl; cbn [run_bind fst snd] in Hs; try discriminate;
          pose proof (thread_down_listen_unacked bcfg layout cfg inputs s0 s1 o1
                        Hpass Hl) as (_ & _ & _ & Hcnt);
          pose proof (thread_down_listen_sends bcfg layout cfg inputs s0 s1 o1 Hl)
            as Hsends
      end.
      cbn [dl_state autoquit_cnt] in Hcnt.
      assert (Hu : uint32 (autoquit_cnt (dl_state s) + 1)
                   = autoquit_cnt (dl_state s) + 1).
      { unfold uint32, wrap_unsigned. apply Z.mod_small. lia. }
      rewrite Hu in Hcnt.
      destruct (thread_down_run bcfg layout cfg threshold passes s1)
        as [[[s2 o2] ex2]| |] eqn:Hr; cbn [run_bind fst snd] in Hs; try discriminate.
      apply run_Done_inj in Hs. injection Hs as Hs' Hout Hex. subst s' out exited.
      destruct (IH s1 s2 o2 ex2 Hth ltac:(lia) Hrest Hr) as (Hno & Hyes).
      rewrite Hcnt in Hno, Hyes.
      assert (Hpulls :
                Z.of_nat (length (filter (fun d => byte_at d 3 =? PKT_PULL_DATA)
                                    (dgram_header (gateway_mac cfg) (uint8 rand_h)
                                       (uint8 rand_l) PKT_PULL_DATA :: o1 ++ o2)))
                = 1 + Z.of_nat (length (filter (fun d => byte_at d 3 =? PKT_PULL_DATA)
                                          o2))).
      { cbn [filter].
        change (byte_at (dgram_header (gateway_mac cfg) (uint8 rand_h)
                           (uint8 rand_l) PKT_PULL_DATA) 3 =? PKT_PULL_DATA)
          with true.
        cbv iota. rewrite filter_app, Hsends. cbn [app length].
        rewrite Nat2Z.inj_succ. lia. }
      rewrite Hpulls. cbn [length]. rewrite Nat2Z.inj_succ.
      split.
      * intros Hn. destruct (Hno ltac:(lia)) as (He & Hv & Hp).
        split; [exact He|]. split; lia.
      * intros Hn. destruct (Hyes ltac:(lia)) as (He & Hv & Hp).
        split; [exact He|]. split; lia.
Qed.

(** The theorem with a threshold of 2, on three passes in which nothing is
    received: two PULL_DATA go out, then the thread asks for the exit. *)
Lemma thread_down_autoquit_witness :
  exists s' out,
    thread_down_run (jq := ex_jit) (hal := sx1302_hal) (gl := linear_gps)
      (pl := fixed_parse_lib (D := float) None None [])
      ex_beacon_conf ex_beacon_layout ex_down_conf 2
      [(1, 2, [ex_down_timeout]); (3, 4, [ex_down_timeout]); (5, 6, [])]
      ex_down_loop
    = Done (s', out, true)
    /\ autoquit_cnt (dl_state s') = 2
    /\ Z.of_nat (length (filter (fun d => byte_at d 3 =? PKT_PULL_DATA) out)) = 2.
Proof.
  eexists _, _. split; [cbv -[meas_add meas_zero]; reflexivity|].
  destruct (thread_down_autoquit float _ _ ex_jit sx1302_hal linear_gps
              (fixed_parse_lib None None [])
              ex_beacon_conf ex_beacon_layout ex_down_conf 2
              [(1, 2, [ex_down_timeout]); (3, 4, [ex_down_timeout]); (5, 6, [])]
              ex_down_loop _ _ _
              ltac:(lia) ltac:(cbn; lia)
              ltac:(repeat constructor; intros d Hd; discriminate)
              ltac:(cbv -[meas_add meas_zero]; reflexivity))
    as (_ & Hyes).
  destruct (Hyes ltac:(cbn; lia)) as (_ & Hc & Hp).
  split; [exact Hc | exact Hp].
Defined.

(** X21. Keep-alive acknowledged. A pass of the outer loop in which a
    PULL_ACK carrying the token of the PULL_DATA just sent comes in ends
    with [req_ack] set and [autoquit_cnt] back at 0, whatever else is
    received in that pass. *)
Theorem thread_down_pull_ack_resets_autoquit :
  forall (D : Type) (ops : DoubleOps D) (J : Type) (jq : JitQueue J)
         (hal : HalConsts) (gl : GpsLib D) (pl : ParseLib D)
         (bcfg : beacon_conf) (layout : beacon_layout) (cfg : down_conf)
         threshold rand_h rand_l (inputs : list (down_input D))
         (s s' : down_loop J) out,
    Exists (fun i => exists dgram,
                in_recv i = RecvData dgram
                /\ is_pull_ack_for (uint8 rand_h) (uint8 rand_l) dgram) inputs ->
    thread_down_run bcfg layout cfg threshold [(rand_h, rand_l, inputs)] s
    = Done (s', out, false) ->
    req_ack (dl_state s') = true
    /\ autoquit_cnt (dl_state s') = 0
    /\ token_h (dl_state s') = uint8 rand_h
    /\ token_l (dl_state s') = uint8 rand_l.
Proof.
  intros D ops J jq hal gl pl bcfg layout cfg threshold rand_h rand_l inputs
         s s' out Hex Hs.
  cbn [thread_down_run] in Hs. unfold thread_down_pull in Hs.
  destruct ((threshold >? 0) && (autoquit_cnt (dl_state s) >=? threshold));
    [apply run_Done_inj in Hs; discriminate|].
  cbv zeta in Hs.
  match type of Hs with
  | context [thread_down_listen bcfg layout cfg inputs ?s0] =>
      destruct (thread_down_listen bcfg layout cfg inputs s0)
        as [[s1 o1]| |] eqn:Hl; cbn [run_bind fst snd] in Hs; try discriminate;
      pose proof (thread_down_listen_acked bcfg layout cfg inputs s0 s1 o1) as Hacked
  end.
  apply run_Done_inj in Hs. injection Hs as Hs' _. subst s'.
  cbn [dl_state req_ack autoquit_cnt token_h token_l] in Hacked.
  destruct (Hacked ltac:(discriminate) (or_intror Hex) Hl) as [Hr Hc].
  split; [exact Hr|]. split; [exact Hc|].
  clear Hacked Hr Hc Hex.
  revert Hl. generalize (uint32 (autoquit_cnt (dl_state s) + 1)).
  generalize (meas_add meas_dw_pull_sent 1 (down_meas (dl_state s))).
  intros m0 c0 Hl.
  assert (Htok : forall (inputs : list (down_input D)) (a b : down_loop J) o,
             thread_down_listen bcfg layout cfg inputs a = Done (b, o) ->
             token_h (dl_state b) = token_h (dl_state a)
             /\ token_l (dl_state b) = token_l (dl_state a)).
  { clear. induction inputs as [|i inputs IH]; intros a b o Hs.
    - apply run_Done_inj in Hs. injection Hs as Hb _. subst b. split; reflexivity.
    - cbn [thread_down_listen] in Hs.
      destruct (thread_down_inner bcfg layout cfg i a) as [[a1 o1]| |] eqn:Hi;
        cbn [run_bind fst snd] in Hs; try discriminate.
      destruct (thread_down_listen bcfg layout cfg inputs a1) as [[a2 o2]| |] eqn:Hl;
        cbn [run_bind fst snd] in Hs; try discriminate.
      apply run_Done_inj in Hs. injection Hs as Hb _. subst b.
      destruct (thread_down_inner_cases bcfg layout cfg i a a1 o1 Hi) as (H1 & H2 & _).
      destruct (IH a1 a2 o2 Hl) as [G1 G2]. rewrite G1, G2. split; assumption. }
  exact (Htok _ _ _ _ Hl).
Qed.

(** The theorem on a pass that receives a timeout, then the PULL_ACK for
    the token 0x11 0x22. *)
Lemma thread_down_pull_ack_resets_autoquit_witness :
  exists s' out,
    thread_down_run (jq := ex_jit) (hal := sx1302_hal) (gl := linear_gps)
      (pl := fixed_parse_lib (D := float) None None [])
      ex_beacon_conf ex_beacon_layout ex_down_conf 2
      [(0x11, 0x22, [ex_down_timeout; ex_down_pull_ack])] ex_down_loop
    = Done (s', out, false)
    /\ autoquit_cnt (dl_state s') = 0.
Proof.
  eexists _, _. split; [cbv -[meas_add meas_zero]; reflexivity|].
  exact (proj1 (proj2
    (thread_down_pull_ack_resets_autoquit float _ _ ex_jit sx1302_hal linear_gps
       (fixed_parse_lib None None [])
       ex_beacon_conf ex_beacon_layout ex_down_conf 2 0x11 0x22
       [ex_down_timeout; ex_down_pull_ack] ex_down_loop _ _
       ltac:(right; left; exists [2; 0x11; 0x22; 4]; split;
             [reflexivity | repeat split; cbn; lia])
       ltac:(cbv -[meas_add meas_zero]; reflexivity)))).
Defined.

(* ---------------------------------------------------------------------- *)
(** ** [thread_jit] and the report of [main] *)

Lemma uint32_add_idemp_r a b : uint32 (a + uint32 b) = uint32 (a + b).
Proof. unfold uint32, wrap_unsigned. apply Zplus_mod_idemp_r. Qed.

Section JitCounting.
Context {D : Type} {ops : DoubleOps D} {J : Type} {jq : JitQueue J} {hal : HalConsts}.

Lemma thread_jit_chain_total xtal scan (e : jit_env) (q q' : J) m m' calls :
  thread_jit_chain xtal scan e q m = Some (q', m', calls) ->
  uint32 (m' meas_nb_tx_ok + m' meas_nb_tx_fail)
  = uint32 (m meas_nb_tx_ok + m meas_nb_tx_fail
            + Z.of_nat (length (filter is_lgw_send calls))).
Proof.
  assert (Hnone : uint32 (m meas_nb_tx_ok + m meas_nb_tx_fail)
                  = uint32 (m meas_nb_tx_ok + m meas_nb_tx_fail
                            + Z.of_nat (length (filter is_lgw_send [])))).
  { cbn [filter length Z.of_nat]. f_equal. lia. }
  unfold thread_jit_chain.
  destruct (jit_peek q (jit_instcnt e)) as [r idx].
  destruct r; try (intros Hs; inversion Hs; subst; exact Hnone).
  destruct (idx >? -1); [|intros Hs; inversion Hs; subst; exact Hnone].
  destruct (jit_dequeue q idx) as [[[r q1] pkt0] ty].
  destruct r; try (intros Hs; inversion Hs; subst; exact Hnone).
  assert (Hpm : forall pm : option (lgw_pkt_tx_s * meas_dw),
             (forall p m1, pm = Some (p, m1) ->
                           m1 meas_nb_tx_ok = m meas_nb_tx_ok
                           /\ m1 meas_nb_tx_fail = m meas_nb_tx_fail) ->
             bind pm (fun pm0 =>
               let '(pkt, m0) := pm0 in
               if negb (jit_status_result e =? LGW_HAL_ERROR)
                  && (jit_tx_status e =? TX_EMITTING)
               then Some (q1, m0, [])
               else
                 if negb (jit_send_result e =? LGW_HAL_SUCCESS)
                 then Some (q1, meas_add meas_nb_tx_fail 1 m0,
                            (if scan then [LgwSpectralScanAbort] else [])
                              ++ [LgwSend pkt])
                 else Some (q1, meas_add meas_nb_tx_ok 1 m0,
                            (if scan then [LgwSpectralScanAbort] else [])
                              ++ [LgwSend pkt]))
             = Some (q', m', calls) ->
             uint32 (m' meas_nb_tx_ok + m' meas_nb_tx_fail)
             = uint32 (m meas_nb_tx_ok + m meas_nb_tx_fail
                       + Z.of_nat (length (filter is_lgw_send calls)))).
  { intros [[p m1]|] Hm; cbn [bind]; [|discriminate].
    destruct (Hm p m1 eq_refl) as [Hok Hfail].
    assert (Hone : Z.of_nat (length (filter is_lgw_send
                                       ((if scan then [LgwSpectralScanAbort] else [])
                                          ++ [LgwSend p]))) = 1)
      by (destruct scan; reflexivity).
    destruct (negb (jit_status_result e =? LGW_HAL_ERROR)
              && (jit_tx_status e =? TX_EMITTING)).
    - intros Hs. inversion Hs; subst. rewrite Hok, Hfail. exact Hnone.
    - destruct (negb (jit_send_result e =? LGW_HAL_SUCCESS));
        intros Hs; inversion Hs; subst; rewrite Hone;
        rewrite meas_add_same, meas_add_other by congruence; rewrite Hok, Hfail.
      + rewrite uint32_add_idemp_r. f_equal. lia.
      + rewrite uint32_add_idemp. f_equal. lia. }
  apply Hpm. intros p m1.
  destruct (jit_pkt_type_is_beacon ty).
  - destruct (beacon_freq_correct xtal (freq_hz pkt0)); cbn [bind]; [|discriminate].
    intros Hs. inversion Hs; subst.
    rewrite !meas_add_other by congruence. split; reflexivity.
  - intros Hs. inversion Hs; subst. split; reflexivity.
Qed.

Lemma thread_jit_pass_total scan (es : list (D * jit_env)) :
  forall (qs qs' : list J) m m' calls,
    thread_jit_pass scan es qs m = Some (qs', m', calls) ->
    uint32 (m' meas_nb_tx_ok + m' meas_nb_tx_fail)
    = uint32 (m meas_nb_tx_ok + m meas_nb_tx_fail
              + Z.of_nat (length (filter is_lgw_send calls))).
Proof.
  induction es as [|[xtal e] es IH]; intros qs qs' m m' calls Hs.
  - destruct qs; cbn [thread_jit_pass] in Hs; inversion Hs; subst;
      cbn [filter length Z.of_nat]; f_equal; lia.
  - destruct qs as [|q qs]; cbn [thread_jit_pass] in Hs.
    { inversion Hs; subst. cbn [filter length Z.of_nat]. f_equal. lia. }
    destruct (thread_jit_chain xtal scan e q m) as [[[q1 m1] c1]|] eqn:Hc;
      cbn [bind] in Hs; [|discriminate].
    destruct (thread_jit_pass scan es qs m1) as [[[qs2 m2] c2]|] eqn:Hp;
      cbn [bind] in Hs; [|discriminate].
    inversion Hs; subst; clear Hs.
    rewrite (IH _ _ _ _ _ Hp).
    rewrite filter_app, length_app, Nat2Z.inj_add.
    rewrite <- uint32_add_idemp, (thread_jit_chain_total _ _ _ _ _ _ _ _ Hc).
    rewrite uint32_add_idemp. f_equal. lia.
Qed.

Lemma thread_jit_run_total scan (passes : list (list (D * jit_env))) :
  forall (qs qs' : list J) m m' calls,
    thread_jit_run scan passes qs m = Some (qs', m', calls) ->
    uint32 (m' meas_nb_tx_ok + m' meas_nb_tx_fail)
    = uint32 (m meas_nb_tx_ok + m meas_nb_tx_fail
              + Z.of_nat (length (filter is_lgw_send calls))).
Proof.
  induction passes as [|es passes IH]; intros qs qs' m m' calls Hs.
  - inversion Hs; subst. cbn [filter length Z.of_nat]. f_equal. lia.
  - cbn [thread_jit_run] in Hs.
    destruct (thread_jit_pass scan es qs m) as [[[qs1 m1] c1]|] eqn:Hp;
      cbn [bind] in Hs; [|discriminate].
    destruct (thread_jit_run scan passes qs1 m1) as [[[qs2 m2] c2]|] eqn:Hr;
      cbn [bind] in Hs; [|discriminate].
    inversion Hs; subst; clear Hs.
    rewrite (IH _ _ _ _ _ Hr).
    rewrite filter_app, length_app, Nat2Z.inj_add.
    rewrite <- uint32_add_idemp, (thread_jit_pass_total _ _ _ _ _ _ _ Hp).
    rewrite uint32_add_idemp. f_equal. lia.
Qed.

End JitCounting.

(** X22. What the report calls "RF packets sent to concentrator". Between
    two statistics passes of [main], whatever the JIT thread does in its
    passes over the chains, the number printed by the second report,
    [cp_nb_tx_ok + cp_nb_tx_fail], is the number of calls of [lgw_send]
    made in between (modulo 2^32), and the second pass leaves every
    counter at zero again. *)
Theorem report_counts_lgw_send :
  forall (D : Type) (ops : DoubleOps D) (J : Type) (jq : JitQueue J) (hal : HalConsts)
         (s0 : stats) scan (passes : list (list (D * jit_env))) (qs qs' : list J)
         m_up m' calls,
    let s1 := stats_collect s0 in
    thread_jit_run scan passes qs (st_meas_dw s1) = Some (qs', m', calls) ->
    let s2 := stats_collect {| cp_up := cp_up s1; cp_dw := cp_dw s1;
                               st_meas_up := m_up; st_meas_dw := m' |} in
    report_rf_packets_sent s2
    = uint32 (Z.of_nat (length (filter is_lgw_send calls)))
    /\ (forall v, st_meas_dw s2 v = 0)
    /\ (forall v, st_meas_up s2 v = 0).
Proof.
  intros D ops J jq hal s0 scan passes qs qs' m_up m' calls s1 Hrun s2.
  split; [|split; intros v; reflexivity].
  unfold report_rf_packets_sent. subst s2.
  cbn [stats_collect cp_dw st_meas_dw dw_accumulated].
  rewrite (thread_jit_run_total _ _ _ _ _ _ _ Hrun).
  reflexivity.
Qed.

(** The theorem on the dispatcher example: after a first report, one
    pass that sends the beacon waiting in the queue of chain 0. *)
Lemma report_counts_lgw_send_witness :
  report_rf_packets_sent
    (stats_collect
       {| cp_up := cp_up (stats_collect ex_stats);
          cp_dw := cp_dw (stats_collect ex_stats);
          st_meas_up := meas_zero;
          st_meas_dw := meas_add meas_nb_tx_ok 1
                          (meas_add meas_nb_beacon_sent 1 meas_zero) |})
  = uint32 (Z.of_nat (length (filter is_lgw_send
                                [LgwSend (set_freq_hz 869525103
                                            (set_freq_hz 869525000 ex_beacon_pkt))]))).
Proof.
  assert (Hrun : thread_jit_run (jq := ex_jit) (hal := sx1302_hal) false
                   [[(ex_xtal_correct, ex_jit_env)]] [ex_jit_queue]
                   (st_meas_dw (stats_collect ex_stats))
                 = Some ([[]],
                         meas_add meas_nb_tx_ok 1
                           (meas_add meas_nb_beacon_sent 1 meas_zero),
                         [LgwSend (set_freq_hz 869525103
                                     (set_freq_hz 869525000 ex_beacon_pkt))])).
  { cbv -[meas_add meas_zero]. reflexivity. }
  pose proof (report_counts_lgw_send float _ _ ex_jit sx1302_hal
                ex_stats false [[(ex_xtal_correct, ex_jit_env)]] [ex_jit_queue] [[]]
                meas_zero _ _ Hrun) as H.
  cbv zeta in H. exact (proj1 H).
Defined.

(* ---------------------------------------------------------------------- *)
(** ** [thread_spectral_scan] *)

Section ScanFacts.
Context {hal : HalConsts}.

Lemma tx_busy_test st :
  tx_busy st <-> (st =? TX_SCHEDULED) || (st =? TX_EMITTING) = true.
Proof.
  unfold tx_busy. rewrite orb_true_iff, !Z.eqb_eq. reflexivity.
Qed.

(** A chain that is enabled and reports a programmed downlink leaves
    [tx_status] saying so, whatever the other chains report. *)
Lemma scan_check_chains_busy (enable : list bool) :
  forall (answers : list (Z * option Z)) tx_status i st,
    nth_error enable i = Some true ->
    nth_error answers i = Some (LGW_HAL_SUCCESS, Some st) ->
    tx_busy st ->
    tx_busy (scan_check_chains enable answers tx_status).
Proof.
  induction enable as [|en enable IH]; intros answers tx_status i st Hen Hans Hbusy.
  - destruct i; discriminate.
  - destruct answers as [|[x stored] answers]; [destruct i; discriminate|].
    cbn [scan_check_chains].
    destruct i as [|i]; cbn [nth_error] in Hen, Hans.
    + inversion Hen; inversion Hans; subst.
      rewrite Z.eqb_refl. cbn [negb].
      apply tx_busy_test in Hbusy. rewrite Hbusy.
      apply tx_busy_test. exact Hbusy.
    + destruct en; [|exact (IH _ _ _ _ Hen Hans Hbusy)].
      destruct (negb (x =? LGW_HAL_SUCCESS)); [exact (IH _ _ _ _ Hen Hans Hbusy)|].
      destruct ((_ =? TX_SCHEDULED) || (_ =? TX_EMITTING)) eqn:Hb.
      * apply tx_busy_test. exact Hb.
      * exact (IH _ _ _ _ Hen Hans Hbusy).
Qed.

(** When no call of [lgw_status] stores a status, [tx_status] keeps the
    value of the previous pass. *)
Lemma scan_check_chains_stale (enable : list bool) :
  forall (answers : list (Z * option Z)) tx_status,
    Forall (fun a => snd a = None) answers ->
    scan_check_chains enable answers tx_status = tx_status.
Proof.
  induction enable as [|en enable IH]; intros answers tx_status Hall; [reflexivity|].
  destruct answers as [|[x stored] answers]; [reflexivity|].
  inversion Hall as [|? ? Hs Hrest]; subst. cbn [snd] in Hs. subst stored.
  cbn [scan_check_chains].
  destruct en; [|exact (IH _ _ Hrest)].
  destruct (negb (x =? LGW_HAL_SUCCESS)); [exact (IH _ _ Hrest)|].
  destruct ((tx_status =? TX_SCHEDULED) || (tx_status =? TX_EMITTING));
    [reflexivity | exact (IH _ _ Hrest)].
Qed.

Lemma spectral_scan_pass_busy enable p stop e s :
  tx_busy (scan_check_chains enable (se_chain_status e) (scan_tx_status s)) ->
  spectral_scan_pass enable p stop e s
  = ({| scan_freq_hz := scan_freq_hz s;
        scan_tx_status := scan_check_chains enable (se_chain_status e)
                                            (scan_tx_status s) |}, []).
Proof.
  intros Hbusy. unfold spectral_scan_pass.
  apply tx_busy_test in Hbusy. apply orb_true_iff in Hbusy.
  destruct Hbusy as [Hb|Hb]; rewrite Hb; cbn [negb andb];
    [reflexivity | rewrite andb_false_r; reflexivity].
Qed.

(** A pass leaves the frequency on the grid of the band, and a scan it
    starts is on the frequency the pass began with. *)
Lemma spectral_scan_pass_grid enable p e s j :
  let start := ss_freq_hz_start p in
  let n := Z.max (ss_nb_chan p) 1 in
  let stop := start + ss_nb_chan p * 200000 in
  0 <= start -> 0 <= ss_nb_chan p -> start + n * 200000 < 2 ^ 32 ->
  0 <= j < n -> scan_freq_hz s = start + 200000 * j ->
  (exists j', 0 <= j' < n
              /\ scan_freq_hz (fst (spectral_scan_pass enable p stop e s))
                 = start + 200000 * j')
  /\ Forall (fun c => match c with
                      | LgwSpectralScanStart f nb =>
                          f = scan_freq_hz s /\ nb = ss_nb_scan p
                      | LgwSpectralScanGetResults => True
                      end)
            (snd (spectral_scan_pass enable p stop e s)).
Proof.
  intros start n stop Hs Hnb Hmax Hj Hf. unfold spectral_scan_pass.
  set (t := scan_check_chains enable (se_chain_status e) (scan_tx_status s)).
  assert (Hsame : exists j', 0 <= j' < n /\ scan_freq_hz s = start + 200000 * j')
    by (exists j; split; assumption).
  assert (Hstart : Forall (fun c => match c with
                                    | LgwSpectralScanStart f nb =>
                                        f = scan_freq_hz s /\ nb = ss_nb_scan p
                                    | LgwSpectralScanGetResults => True
                                    end)
                          [LgwSpectralScanStart (scan_freq_hz s) (ss_nb_scan p)])
    by (repeat constructor).
  assert (Hboth : Forall (fun c => match c with
                                   | LgwSpectralScanStart f nb =>
                                       f = scan_freq_hz s /\ nb = ss_nb_scan p
                                   | LgwSpectralScanGetResults => True
                                   end)
                         ([LgwSpectralScanStart (scan_freq_hz s) (ss_nb_scan p)]
                            ++ [LgwSpectralScanGetResults]))
    by (repeat constructor).
  destruct (negb (t =? TX_SCHEDULED) && negb (t =? TX_EMITTING));
    [|split; [exact Hsame | constructor]].
  destruct (negb (se_start_result e =? 0)); [split; [exact Hsame | exact Hstart]|].
  destruct (se_final_status e); try (split; [exact Hsame | exact Hstart]).
  destruct (negb (se_results_result e =? 0)); [split; [exact Hsame | exact Hboth]|].
  split; [|exact Hboth]. cbn [fst scan_freq_hz].
  assert (Hu : uint32 (scan_freq_hz s + 200000) = start + 200000 * (j + 1)).
  { unfold uint32, wrap_unsigned. rewrite Hf. rewrite Z.mod_small; lia. }
  rewrite Hu. fold start.
  destruct (start + 200000 * (j + 1) >=? stop) eqn:Hge.
  - exists 0. split; lia.
  - exists (j + 1). rewrite Z.geb_leb in Hge. apply Z.leb_gt in Hge.
    subst stop. split; lia.
Qed.

End ScanFacts.

Lemma Qtrunc_inject_sum a b :
  Qtrunc (Qplus (inject_Z a) (Qmult (inject_Z b) (inject_Z 200000))) = a + b * 200000.
Proof.
  unfold Qtrunc, Qplus, Qmult, inject_Z. cbn [Qnum Qden].
  change (Z.pos (1 * (1 * 1))) with 1. rewrite Z.quot_1_r. lia.
Qed.

(** X23. No scan while a downlink is programmed. In a pass where an
    enabled RF chain answers [lgw_status] with TX_SCHEDULED or TX_EMITTING,
    [lgw_spectral_scan_start] is not called and the scan frequency does not
    move. The status is kept: in a following pass in which no call of
    [lgw_status] stores a status (no chain enabled, or the calls fail
    without writing), the scan is skipped again. *)
Theorem spectral_scan_skipped_while_tx :
  forall (hal : HalConsts) enable p stop (e e' : scan_env) (s : scan_state) i st,
    nth_error enable i = Some true ->
    nth_error (se_chain_status e) i = Some (LGW_HAL_SUCCESS, Some st) ->
    tx_busy st ->
    let r := spectral_scan_pass enable p stop e s in
    snd r = []
    /\ scan_freq_hz (fst r) = scan_freq_hz s
    /\ tx_busy (scan_tx_status (fst r))
    /\ (Forall (fun a => snd a = None) (se_chain_status e') ->
        spectral_scan_pass enable p stop e' (fst r) = (fst r, [])).
Proof.
  intros hal enable p stop e e' s i st Hen Hans Hbusy r.
  pose proof (scan_check_chains_busy enable (se_chain_status e) (scan_tx_status s)
                i st Hen Hans Hbusy) as Hb.
  subst r. rewrite (spectral_scan_pass_busy enable p stop e s Hb).
  cbn [fst snd scan_freq_hz scan_tx_status].
  split; [reflexivity|]. split; [reflexivity|]. split; [exact Hb|].
  intros Hnone.
  rewrite spectral_scan_pass_busy;
    cbn [scan_tx_status scan_freq_hz];
    rewrite (scan_check_chains_stale enable (se_chain_status e') _ Hnone);
    [reflexivity | exact Hb].
Qed.

(** The theorem on a pass in which chain 0 reports TX_EMITTING. *)
Lemma spectral_scan_skipped_while_tx_witness :
  snd (spectral_scan_pass (hal := sx1302_hal) [true; false] ex_scan_params 868100000
         {| se_chain_status := [(0, Some 4); (0, Some 2)]; se_start_result := 0;
            se_final_status := LGW_SPECTRAL_SCAN_STATUS_COMPLETED;
            se_results_result := 0 |}
         {| scan_freq_hz := 867100000; scan_tx_status := 2 |})
  = [].
Proof.
  exact (proj1 (spectral_scan_skipped_while_tx sx1302_hal [true; false] ex_scan_params
                  868100000
                  {| se_chain_status := [(0, Some 4); (0, Some 2)];
                     se_start_result := 0;
                     se_final_status := LGW_SPECTRAL_SCAN_STATUS_COMPLETED;
                     se_results_result := 0 |}
                  {| se_chain_status := []; se_start_result := 0;
                     se_final_status := LGW_SPECTRAL_SCAN_STATUS_COMPLETED;
                     se_results_result := 0 |}
                  {| scan_freq_hz := 867100000; scan_tx_status := 2 |}
                  0%nat 4 eq_refl eq_refl (or_intror eq_refl))).
Defined.

(** X24. The scan sweeps the configured band. With a start frequency and
    a channel count whose band ends below 2^32 Hz, the stop frequency is
    [start + nb_chan * 200 kHz] (in exact arithmetic), and from the start
    frequency on, after any number of passes, the scan frequency is
    [start + k * 200 kHz] with [0 <= k < max nb_chan 1]; every scan started
    was started on such a frequency, with the configured number of
    points. *)
Theorem spectral_scan_stays_in_band :
  forall (hal : HalConsts) enable p (es : list scan_env) tx_status,
    let start := ss_freq_hz_start p in
    let n := Z.max (ss_nb_chan p) 1 in
    let stop := start + ss_nb_chan p * 200000 in
    0 <= start -> 0 <= ss_nb_chan p -> start + n * 200000 < 2 ^ 32 ->
    let r := spectral_scan_run enable p stop es
               {| scan_freq_hz := start; scan_tx_status := tx_status |} in
    scan_freq_hz_stop (ops := Q_ops) p = Some stop
    /\ (exists k, 0 <= k < n /\ scan_freq_hz (fst r) = start + 200000 * k)
    /\ Forall (fun c => match c with
                        | LgwSpectralScanStart f nb =>
                            nb = ss_nb_scan p
                            /\ exists k, 0 <= k < n /\ f = start + 200000 * k
                        | LgwSpectralScanGetResults => True
                        end) (snd r).
Proof.
  intros hal enable p es tx_status start n stop Hs Hnb Hmax r.
  split.
  { unfold scan_freq_hz_stop, double_to_uint32, double_to_int.
    cbn [d_value d_add d_mul d_of_Z Q_ops].
    rewrite Qtrunc_inject_sum. fold start. fold stop.
    assert (Hin : (0 <=? stop) && (stop <=? 2 ^ 32 - 1) = true).
    { apply andb_true_intro. split; apply Z.leb_le; subst stop n; lia. }
    rewrite Hin. reflexivity. }
  subst r.
  assert (Hgen : forall (es : list scan_env) s j,
             0 <= j < n -> scan_freq_hz s = start + 200000 * j ->
             (exists k, 0 <= k < n
                        /\ scan_freq_hz (fst (spectral_scan_run enable p stop es s))
                           = start + 200000 * k)
             /\ Forall (fun c => match c with
                                 | LgwSpectralScanStart f nb =>
                                     nb = ss_nb_scan p
                                     /\ exists k, 0 <= k < n /\ f = start + 200000 * k
                                 | LgwSpectralScanGetResults => True
                                 end)
                       (snd (spectral_scan_run enable p stop es s))).
  { clear es tx_status. induction es as [|e es IH]; intros s j Hj Hf.
    - cbn [spectral_scan_run fst snd]. split; [exists j; split; assumption | constructor].
    - cbn [spectral_scan_run].
      pose proof (spectral_scan_pass_grid enable p e s j Hs Hnb Hmax Hj Hf)
        as [(j' & Hj' & Hf') Hcalls].
      fold start in Hf', Hcalls. fold stop in Hf', Hcalls.
      destruct (spectral_scan_pass enable p stop e s) as [s1 c1].
      cbn [fst snd] in Hf', Hcalls.
      destruct (IH s1 j' Hj' Hf') as [Hk Hall].
      destruct (spectral_scan_run enable p stop es s1) as [s2 c2].
      cbn [fst snd] in *. split; [exact Hk|].
      apply Forall_app. split; [|exact Hall].
      eapply Forall_impl; [|exact Hcalls].
      intros [f nb|]; [|trivial]. intros [Hfe Hn]. split; [exact Hn|].
      exists j. split; [exact Hj | congruence]. }
  apply (Hgen es _ 0); [subst n; lia | cbn [scan_freq_hz]; lia].
Qed.

(** The theorem on a band of five channels from 867.1 MHz, over six
    completed scans: the sixth is back on the start frequency. *)
Lemma spectral_scan_stays_in_band_witness :
  scan_freq_hz_stop (ops := Q_ops) ex_scan_params = Some 868100000
  /\ map (fun c => match c with
                   | LgwSpectralScanStart f _ => f
                   | LgwSpectralScanGetResults => 0
                   end)
         (filter (fun c => match c with
                           | LgwSpectralScanStart _ _ => true
                           | LgwSpectralScanGetResults => false
                           end)
                 (snd (spectral_scan_run (hal := sx1302_hal) [true; false]
                         ex_scan_params 868100000 (repeat ex_scan_env 6)
                         {| scan_freq_hz := 867100000; scan_tx_status := 0 |})))
     = [867100000; 867300000; 867500000; 867700000; 867900000; 867100000].
Proof.
  split; [|reflexivity].
  exact (proj1 (spectral_scan_stays_in_band sx1302_hal [true; false] ex_scan_params
                  (repeat ex_scan_env 6) 0
                  ltac:(cbn; lia) ltac:(cbn; lia) ltac:(cbn; lia))).
Defined.

(* ---------------------------------------------------------------------- *)
(** ** [thread_gps]: the serial buffer stays inside its 128 bytes *)

Lemma memcpy_within_some dst src n (buf buf' : list Z) :
  memcpy_within dst src n buf = Some buf' ->
  0 <= n /\ 0 <= dst /\ 0 <= src
  /\ dst + n <= Z.of_nat (length buf) /\ src + n <= Z.of_nat (length buf)
  /\ (n = 0 \/ n <= Z.abs (src - dst))
  /\ length buf' = length buf.
Proof.
  unfold memcpy_within.
  destruct ((n <? 0) || (dst <? 0) || (src <? 0)
            || (dst + n >? Z.of_nat (length buf))
            || (src + n >? Z.of_nat (length buf))) eqn:Hb; [discriminate|].
  apply orb_false_iff in Hb. destruct Hb as [Hb H5].
  apply orb_false_iff in Hb. destruct Hb as [Hb H4].
  apply orb_false_iff in Hb. destruct Hb as [Hb H3].
  apply orb_false_iff in Hb. destruct Hb as [H1 H2].
  apply Z.ltb_ge in H1, H2, H3.
  rewrite Z.gtb_ltb in H4, H5. apply Z.ltb_ge in H4, H5.
  destruct ((n >? 0) && (Z.abs (src - dst) <? n)) eqn:Ho; [discriminate|].
  intros Hs. inversion Hs; subst buf'; clear Hs.
  repeat (split; [assumption|]). split.
  - apply andb_false_iff in Ho. destruct Ho as [Ho|Ho].
    + rewrite Z.gtb_ltb in Ho. apply Z.ltb_ge in Ho. left. lia.
    + apply Z.ltb_ge in Ho. right. exact Ho.
  - apply write_bytes_length. rewrite length_firstn, length_skipn. lia.
Qed.

Section GpsBuffer.
Context {gp : GpsParser}.

(** A byte that is neither sync character starts no frame. *)
Lemma gps_scan_at_no_sync buf wr rd :
  nth (Z.to_nat rd) buf 0 <> LGW_GPS_UBX_SYNC_CHAR ->
  nth (Z.to_nat rd) buf 0 <> LGW_GPS_NMEA_SYNC_CHAR ->
  gps_scan_at buf wr rd = (0, []).
Proof.
  intros Hu Hn. unfold gps_scan_at.
  apply Z.eqb_neq in Hu, Hn. rewrite Hu, Hn. reflexivity.
Qed.

Lemma gps_scan_no_sync fuel buf wr :
  forall rd frame_end,
    0 <= rd ->
    (forall i, rd <= i < wr ->
               nth (Z.to_nat i) buf 0 <> LGW_GPS_UBX_SYNC_CHAR
               /\ nth (Z.to_nat i) buf 0 <> LGW_GPS_NMEA_SYNC_CHAR) ->
    gps_scan fuel buf wr rd frame_end = (frame_end, []).
Proof.
  induction fuel as [|fuel IH]; intros rd frame_end Hrd Hno; [reflexivity|].
  cbn [gps_scan]. destruct (rd <? wr) eqn:Hlt; [|reflexivity].
  apply Z.ltb_lt in Hlt.
  destruct (Hno rd ltac:(lia)) as [Hu Hn].
  rewrite (gps_scan_at_no_sync buf wr rd Hu Hn).
  change (0 >? 0) with false. cbv iota.
  rewrite IH; [reflexivity | lia |].
  intros i Hi. apply Hno. lia.
Qed.

End GpsBuffer.

(** X25. The GPS serial buffer. With [LGW_GPS_MIN_MSG_SIZE] between 1 and
    64 and [read] returning at most that many bytes, [wr_idx] is at most
    [128 - LGW_GPS_MIN_MSG_SIZE] whenever a pass begins, so the bytes that
    [read] stores at [serial_buff + wr_idx] fit the buffer; and every pass
    that is defined ends with [wr_idx] in that range again, whatever the
    parsers answer. *)
Theorem thread_gps_buffer_bound :
  forall (gp : GpsParser) (chars : option (list Z)) (s s' : gps_buffer) calls,
    0 < LGW_GPS_MIN_MSG_SIZE <= 64 ->
    length (serial_buff s) = Z.to_nat SERIAL_BUFF_SIZE ->
    0 <= wr_idx s <= SERIAL_BUFF_SIZE - LGW_GPS_MIN_MSG_SIZE ->
    (forall cs, chars = Some cs -> Z.of_nat (length cs) <= LGW_GPS_MIN_MSG_SIZE) ->
    (forall cs, chars = Some cs ->
                wr_idx s + Z.of_nat (length cs) <= SERIAL_BUFF_SIZE)
    /\ (thread_gps_pass chars s = Some (s', calls) ->
        length (serial_buff s') = Z.to_nat SERIAL_BUFF_SIZE
        /\ 0 <= wr_idx s' <= SERIAL_BUFF_SIZE - LGW_GPS_MIN_MSG_SIZE).
Proof.
  intros gp chars s s' calls Hmin Hlen Hwr Hread.
  split.
  { intros cs Hcs. specialize (Hread cs Hcs). lia. }
  unfold thread_gps_pass.
  set (nb_char := match chars with
                  | Some cs => Z.of_nat (length cs)
                  | None => -1
                  end).
  destruct (nb_char <=? 0) eqn:Hnb.
  { intros Hs. inversion Hs; subst. split; assumption. }
  apply Z.leb_gt in Hnb.
  assert (Hcs : exists cs, chars = Some cs /\ nb_char = Z.of_nat (length cs)).
  { subst nb_char. destruct chars as [cs|]; [exists cs; split; reflexivity | lia]. }
  destruct Hcs as (cs & Hchars & Hnbc).
  specialize (Hread cs Hchars). rewrite <- Hnbc in Hread.
  destruct (wr_idx s + nb_char >? SERIAL_BUFF_SIZE); [discriminate|].
  rewrite Hchars.
  set (buf := write_bytes (Z.to_nat (wr_idx s)) cs (serial_buff s)).
  assert (Hbuf : length buf = Z.to_nat SERIAL_BUFF_SIZE).
  { subst buf. rewrite write_bytes_length; [exact Hlen|].
    rewrite Hlen. unfold SERIAL_BUFF_SIZE in *. lia. }
  destruct (gps_scan (Z.to_nat (wr_idx s + nb_char)) buf (wr_idx s + nb_char) 0 0)
    as [frame_end_idx calls0].
  assert (Hstep1 : forall r,
             (if negb (frame_end_idx =? 0)
              then bind (memcpy_within 0 frame_end_idx
                           (wr_idx s + nb_char - frame_end_idx) buf)
                        (fun buf' => Some (buf', wr_idx s + nb_char - frame_end_idx))
              else Some (buf, wr_idx s + nb_char)) = Some r ->
             length (fst r) = Z.to_nat SERIAL_BUFF_SIZE
             /\ 0 <= snd r <= SERIAL_BUFF_SIZE).
  { intros r. destruct (negb (frame_end_idx =? 0)).
    - destruct (memcpy_within 0 frame_end_idx _ buf) as [buf'|] eqn:Hm;
        cbn [bind]; [|discriminate].
      intros Hr. inversion Hr; subst r. cbn [fst snd].
      destruct (memcpy_within_some _ _ _ _ _ Hm) as (H1 & _ & H3 & _ & _ & _ & Hl).
      split; [congruence | lia].
    - intros Hr. inversion Hr; subst r. cbn [fst snd]. split; [exact Hbuf | lia]. }
  match goal with
  | |- context [bind ?x _] => destruct x as [[buf1 wr1]|] eqn:H1; cbn [bind]
  end; [|discriminate].
  destruct (Hstep1 (buf1, wr1) eq_refl) as [Hl1 Hw1]. cbn [fst snd] in Hl1, Hw1.
  destruct (SERIAL_BUFF_SIZE - wr1 <? LGW_GPS_MIN_MSG_SIZE) eqn:Hguard.
  - destruct (memcpy_within 0 LGW_GPS_MIN_MSG_SIZE (wr1 - LGW_GPS_MIN_MSG_SIZE) buf1)
      as [buf2|] eqn:Hm; cbn [bind]; [|discriminate].
    intros Hs. inversion Hs; subst s' calls; clear Hs. cbn [serial_buff wr_idx].
    destruct (memcpy_within_some _ _ _ _ _ Hm) as (Hn & _ & _ & _ & _ & _ & Hl).
    split; [congruence | lia].
  - cbn [bind]. intros Hs. inversion Hs; subst s' calls; clear Hs.
    cbn [serial_buff wr_idx]. apply Z.ltb_ge in Hguard.
    split; [exact Hl1 | lia].
Qed.

(** The theorem on the first read of eight bytes into the cleared buffer,
    with parsers that find nothing. *)
Lemma thread_gps_buffer_bound_witness :
  exists s' calls,
    thread_gps_pass (gp := ex_gps_parser) (Some [1; 2; 3; 4; 5; 6; 7; 8])
                    gps_buffer_init = Some (s', calls)
    /\ 0 <= wr_idx s' <= SERIAL_BUFF_SIZE - 8.
Proof.
  eexists _, _. split; [vm_compute; reflexivity|].
  exact (proj2 (proj2 (thread_gps_buffer_bound ex_gps_parser
                         (Some [1; 2; 3; 4; 5; 6; 7; 8]) gps_buffer_init _ _
                         ltac:(cbn; lia) eq_refl
                         ltac:(unfold SERIAL_BUFF_SIZE; cbn; lia)
                         ltac:(intros cs Hcs; inversion Hcs; cbn; lia))
                       ltac:(vm_compute; reflexivity))).
Defined.

(** X26. The guard against overflow copies between overlapping regions.
    With [3 * LGW_GPS_MIN_MSG_SIZE <= 128]: in a pass that stores bytes and
    finds no sync character in the buffer, so removes no frame, and that
    leaves fewer than [LGW_GPS_MIN_MSG_SIZE] bytes free, the guard calls
    [memcpy(serial_buff, serial_buff + LGW_GPS_MIN_MSG_SIZE, n)] with [n]
    larger than the distance between source and destination; by the rules
    of C that copy is undefined, and the pass has no defined result. *)
Theorem thread_gps_guard_overlaps :
  forall (gp : GpsParser) (cs : list Z) (s : gps_buffer),
    0 < LGW_GPS_MIN_MSG_SIZE ->
    3 * LGW_GPS_MIN_MSG_SIZE <= SERIAL_BUFF_SIZE ->
    length (serial_buff s) = Z.to_nat SERIAL_BUFF_SIZE ->
    0 <= wr_idx s ->
    cs <> [] ->
    wr_idx s + Z.of_nat (length cs) <= SERIAL_BUFF_SIZE ->
    SERIAL_BUFF_SIZE - LGW_GPS_MIN_MSG_SIZE < wr_idx s + Z.of_nat (length cs) ->
    (forall i, 0 <= i < wr_idx s + Z.of_nat (length cs) ->
               let b := nth (Z.to_nat i)
                            (write_bytes (Z.to_nat (wr_idx s)) cs (serial_buff s)) 0 in
               b <> LGW_GPS_UBX_SYNC_CHAR /\ b <> LGW_GPS_NMEA_SYNC_CHAR) ->
    thread_gps_pass (Some cs) s = None.
Proof.
  intros gp cs s Hmin H3 Hlen Hwr Hcs Hfit Hfull Hno.
  unfold thread_gps_pass.
  assert (Hpos : 0 < Z.of_nat (length cs)).
  { destruct cs; [contradiction | cbn [length]; lia]. }
  assert (Hnb : (Z.of_nat (length cs) <=? 0) = false) by (apply Z.leb_gt; exact Hpos).
  rewrite Hnb.
  assert (Hin : (wr_idx s + Z.of_nat (length cs) >? SERIAL_BUFF_SIZE) = false).
  { rewrite Z.gtb_ltb. apply Z.ltb_ge. exact Hfit. }
  rewrite Hin.
  rewrite (gps_scan_no_sync _ _ _ 0 0 ltac:(lia) Hno).
  change (negb (0 =? 0)) with false. cbv iota. cbn [bind].
  assert (Hguard : (SERIAL_BUFF_SIZE - (wr_idx s + Z.of_nat (length cs))
                    <? LGW_GPS_MIN_MSG_SIZE) = true) by (apply Z.ltb_lt; lia).
  rewrite Hguard. unfold memcpy_within.
  set (n := wr_idx s + Z.of_nat (length cs) - LGW_GPS_MIN_MSG_SIZE).
  destruct ((n <? 0) || (0 <? 0) || (LGW_GPS_MIN_MSG_SIZE <? 0)
            || (0 + n >? Z.of_nat (length (write_bytes (Z.to_nat (wr_idx s)) cs
                                             (serial_buff s))))
            || (LGW_GPS_MIN_MSG_SIZE + n
                >? Z.of_nat (length (write_bytes (Z.to_nat (wr_idx s)) cs
                                       (serial_buff s))))); [reflexivity|].
  assert (Ho : (n >? 0) && (Z.abs (LGW_GPS_MIN_MSG_SIZE - 0) <? n) = true).
  { apply andb_true_intro. split.
    - apply Z.gtb_lt. subst n. lia.
    - apply Z.ltb_lt. subst n. lia. }
  rewrite Ho. reflexivity.
Qed.

(** The theorem on the sixteenth read of eight bytes that hold no sync
    character: 128 bytes are in the buffer and the guard runs. *)
Lemma thread_gps_guard_overlaps_witness :
  thread_gps_pass (gp := ex_gps_parser) (Some [1; 2; 3; 4; 5; 6; 7; 8])
                  {| serial_buff := repeat 1 128; wr_idx := 120 |}
  = None.
Proof.
  apply (thread_gps_guard_overlaps ex_gps_parser [1; 2; 3; 4; 5; 6; 7; 8]
           {| serial_buff := repeat 1 128; wr_idx := 120 |}).
  - cbn. lia.
  - unfold SERIAL_BUFF_SIZE. cbn. lia.
  - reflexivity.
  - cbn. lia.
  - discriminate.
  - unfold SERIAL_BUFF_SIZE. cbn. lia.
  - unfold SERIAL_BUFF_SIZE. cbn. lia.
  - intros i Hi b. subst b.
    assert (Hall : Forall (fun b => b <> 0xB5 /\ b <> 0x24)
                     (write_bytes (Z.to_nat 120) [1; 2; 3; 4; 5; 6; 7; 8]
                        (repeat 1 128))).
    { vm_compute. repeat constructor; discriminate. }
    cbn [wr_idx serial_buff] in *.
    apply (proj1 (Forall_forall _ _) Hall).
    apply nth_In. cbn in Hi. vm_compute length. lia.
Defined.
